(** * Agentic MentorLoop (TypeScript): a shallow embedding of the agent loop

    The development follows the TypeScript sources of the example:
    - [rag/tips.ts]            (class [TipsRAG])
    - [tools/ragTips.ts]       (class [MentorTips])
    - [tools/csvPulse.ts]      (class [EngagementPulse])
    - [tools/composeNudge.ts]  (class [ComposeNudge])
    - [brain/deterministic.ts] (class [DeterministicBrain])
    - [brain/index.ts]         (class [Brain])
    - [brain/providers/*.ts]   (classes [OpenAIProvider], [OllamaProvider])
    - [cli.ts]                 (function [main]: the command line, the
                                agent loop, the output)

    Conventions of the embedding.
    - A JavaScript string is a [string] of 8-bit characters, which stand
      for the characters U+0000 to U+00FF: [toLowerCase] changes the
      letters A-Z and the capital letters U+00C0 to U+00DE, the class [\w]
      is [A-Za-z0-9_], and white space (the class [\s], [trim], [parseInt])
      is U+0009 to U+000D, the space and U+00A0.  Characters beyond U+00FF
      are outside the embedding; among them are U+212A and U+0130, which
      [toLowerCase] turns into ASCII letters, and further white space.
      Properties that depend on letter case are stated for ASCII text.
    - A JavaScript [Map] is an association list kept in insertion order
      (module [JSMap]), since [forEach] visits entries in that order.
    - Counts, lengths and day numbers are integers ([N], [Z]); a JavaScript
      number holds every integer below 2^53 exactly, so sums and products
      of counts are computed in [N].  The similarity score itself is a
      binary64 value ([spec_float] with the operations [SFdiv], [SFmul],
      [SFsqrt] of the standard library at precision 53), rounded as
      IEEE 754 prescribes.
    - Files are read by the data-access layer: a load either fails with a
      message or yields the typed records in file order ([Load]).  The time
      stamp of a check-in is the number of milliseconds that
      [new Date(timestamp)] holds, for a valid date.
    - [new Date()] and [Math.random()] are inputs of the functions that
      call them; [brain.think] is asynchronous and may ask a language
      model, so the loop takes the decision it returned as an input, and
      [main] runs it with the deterministic brain.  [main_with] runs it
      with the brain that the configuration selects; the end of the
      exchange with a provider (a rejection, or the content of the reply)
      is an input.  Messages written to the error stream are left out. *)

From Stdlib Require Import ZArith NArith PArith List String Ascii Bool Lia.
From Stdlib Require Import Permutation Sorted DecimalString DecimalPos.
From Stdlib Require Import Floats.SpecFloat.
Import ListNotations.

Local Open Scope list_scope.
Local Open Scope string_scope.

(** ** JavaScript strings *)

Module JS.

Definition code (c : ascii) : N := N_of_ascii c.

Definition is_upper (c : ascii) : bool := ((65 <=? code c) && (code c <=? 90))%N.
Definition is_lower (c : ascii) : bool := ((97 <=? code c) && (code c <=? 122))%N.
Definition is_digit (c : ascii) : bool := ((48 <=? code c) && (code c <=? 57))%N.

(** [\w] *)
Definition is_word (c : ascii) : bool :=
  is_upper c || is_lower c || is_digit c || (code c =? 95)%N.

(** [\s], and the white space of [trim] and [parseInt]: the characters
    U+0009 to U+000D, the space and the no-break space U+00A0. *)
Definition is_space (c : ascii) : bool :=
  ((9 <=? code c) && (code c <=? 13) || (code c =? 32) || (code c =? 160))%N.

(** The capital letters U+00C0 to U+00DE; U+00D7 is the multiplication
    sign. *)
Definition is_upper_latin1 (c : ascii) : bool :=
  ((192 <=? code c) && (code c <=? 222) && negb (code c =? 215))%N.

(** The lower-case form of a character: the letters A to Z and the
    capital letters U+00C0 to U+00DE have theirs 32 places on. *)
Definition lower_char (c : ascii) : ascii :=
  if is_upper c || is_upper_latin1 c then ascii_of_N (code c + 32) else c.

(** [s.toLowerCase()] *)
Fixpoint toLowerCase (s : string) : string :=
  match s with
  | EmptyString => EmptyString
  | String c r => String (lower_char c) (toLowerCase r)
  end.

(** The characters U+0000 to U+007F. *)
Definition is_ascii (c : ascii) : bool := (code c <? 128)%N.

(** [s.startsWith(p)] *)
Definition startsWith (s p : string) : bool := String.prefix p s.

(** [s.includes(p)] *)
Fixpoint includes (s p : string) : bool :=
  String.prefix p s ||
  match s with
  | EmptyString => false
  | String _ r => includes r p
  end.

(** [s.substring(n)] *)
Fixpoint substring_from (n : nat) (s : string) : string :=
  match n, s with
  | O, _ => s
  | S n', EmptyString => EmptyString
  | S n', String _ r => substring_from n' r
  end.

(** [s.split(sep)] for a one-character separator. *)
Fixpoint split_char (sep : ascii) (s : string) : list string :=
  match s with
  | EmptyString => [EmptyString]
  | String c r =>
      if Ascii.eqb c sep then EmptyString :: split_char sep r
      else match split_char sep r with
           | [] => [String c EmptyString]
           | w :: ws => String c w :: ws
           end
  end.

(** [s.split(/[...]+/)]: the pieces between maximal runs of separator
    characters; a leading or trailing run leaves an empty piece, as in
    JavaScript. *)
Fixpoint split_runs_aux (sep : ascii -> bool) (in_gap : bool) (s : string)
  : list string :=
  match s with
  | EmptyString => [EmptyString]
  | String c r =>
      if sep c then
        if in_gap then split_runs_aux sep true r
        else EmptyString :: split_runs_aux sep true r
      else match split_runs_aux sep false r with
           | [] => [String c EmptyString]
           | w :: ws => String c w :: ws
           end
  end.

Definition split_runs (sep : ascii -> bool) (s : string) : list string :=
  split_runs_aux sep false s.

(** [s.split(/\s+/)] *)
Definition split_ws (s : string) : list string := split_runs is_space s.

Definition nonempty (s : string) : bool :=
  match s with EmptyString => false | _ => true end.

(** [s.replace(/[^\w\s]/g, ' ')] *)
Fixpoint strip_punctuation (s : string) : string :=
  match s with
  | EmptyString => EmptyString
  | String c r =>
      String (if is_word c || is_space c then c else " "%char)
             (strip_punctuation r)
  end.

(** [s.trim()] *)
Fixpoint trimStart (s : string) : string :=
  match s with
  | String c r => if is_space c then trimStart r else s
  | EmptyString => EmptyString
  end.

Fixpoint trimEnd (s : string) : string :=
  match s with
  | EmptyString => EmptyString
  | String c r =>
      match trimEnd r with
      | EmptyString => if is_space c then EmptyString else String c EmptyString
      | r' => String c r'
      end
  end.

Definition trim (s : string) : string := trimEnd (trimStart s).

(** [s.replace(p, r)] with a string pattern: the first occurrence only. *)
Fixpoint replace_first (p r s : string) : string :=
  if String.prefix p s then r ++ substring_from (String.length p) s
  else match s with
       | EmptyString => EmptyString
       | String c s' => String c (replace_first p r s')
       end.

(** [parts.join(sep)] *)
Fixpoint join (sep : string) (parts : list string) : string :=
  match parts with
  | [] => EmptyString
  | [p] => p
  | p :: ps => p ++ sep ++ join sep ps
  end.

(** Decimal rendering of an integer, as a template literal prints it. *)
Definition show_Z (z : Z) : string := NilZero.string_of_int (Z.to_int z).
Definition show_N (n : N) : string := show_Z (Z.of_N n).

(** [parseInt] of a non-empty run of decimal digits. *)
Fixpoint parse_digits (acc : N) (s : string) : N :=
  match s with
  | EmptyString => acc
  | String c r => parse_digits (acc * 10 + (code c - 48)) r
  end.

(** The longest prefix of characters satisfying [p], and the rest. *)
Fixpoint span (p : ascii -> bool) (s : string) : string * string :=
  match s with
  | EmptyString => (EmptyString, EmptyString)
  | String c r =>
      if p c then let '(a, b) := span p r in (String c a, b)
      else (EmptyString, s)
  end.

(** [arr.slice(0, end)]: a negative [end] counts from the end of the array. *)
Definition slice0 {A} (l : list A) (e : Z) : list A :=
  if (e <? 0)%Z then firstn (Z.to_nat (Z.of_nat (List.length l) + e)) l
  else firstn (Z.to_nat e) l.

(** [arr.slice(-n)] for a positive [n]: the last [n] elements. *)
Definition slice_last {A} (n : nat) (l : list A) : list A :=
  skipn (List.length l - n) l.

(** The value of a hexadecimal digit. *)
Definition hex_value (c : ascii) : option N :=
  if is_digit c then Some (code c - 48)%N
  else if ((97 <=? code c) && (code c <=? 102))%N then Some (code c - 87)%N
  else if ((65 <=? code c) && (code c <=? 70))%N then Some (code c - 55)%N
  else None.

Definition is_hex (c : ascii) : bool :=
  match hex_value c with Some _ => true | None => false end.

Fixpoint parse_hex (acc : N) (s : string) : N :=
  match s with
  | EmptyString => acc
  | String c r =>
      parse_hex (acc * 16 + match hex_value c with Some d => d | None => 0 end) r
  end.

(** [parseInt(s)] without a radix: white space is skipped, then a sign,
    then [0x] or [0X] selects base 16; the digits that follow are read as
    far as they go, and [None] is [NaN], the result when there is none.
    The integer is given exactly; JavaScript rounds one of more than 53
    bits to the nearest double. *)
Definition parseInt (s : string) : option Z :=
  let s1 := trimStart s in
  let negative := String.prefix "-" s1 in
  let s2 :=
    if String.prefix "-" s1 || String.prefix "+" s1 then substring_from 1 s1
    else s1 in
  let hex := String.prefix "0x" s2 || String.prefix "0X" s2 in
  let digits :=
    if hex then fst (span is_hex (substring_from 2 s2))
    else fst (span is_digit s2) in
  if nonempty digits then
    let n := if hex then parse_hex 0 digits else parse_digits 0 digits in
    Some (if negative then (- Z.of_N n)%Z else Z.of_N n)
  else None.

End JS.

(** ** JavaScript [Map] with string keys, in insertion order *)

Module JSMap.

Section WithValues.
Context {V : Type}.

Definition t := list (string * V).

Definition empty : t := [].

Fixpoint get (k : string) (m : t) : option V :=
  match m with
  | [] => None
  | (k', v) :: m' => if String.eqb k k' then Some v else get k m'
  end.

Definition has (k : string) (m : t) : bool :=
  match get k m with Some _ => true | None => false end.

(** [m.set(k, v)]: an existing key keeps its place. *)
Fixpoint set (k : string) (v : V) (m : t) : t :=
  match m with
  | [] => [(k, v)]
  | (k', v') :: m' =>
      if String.eqb k k' then (k, v) :: m' else (k', v') :: set k v m'
  end.

Definition keys (m : t) : list string := map fst m.
Definition values (m : t) : list V := map snd m.
Definition size (m : t) : nat := List.length m.

End WithValues.

Arguments t : clear implicits.

End JSMap.

(** [new Set(items)] keeps the first occurrence of every item. *)
Fixpoint mem (k : string) (l : list string) : bool :=
  match l with
  | [] => false
  | k' :: l' => String.eqb k k' || mem k l'
  end.

Definition Set_of (items : list string) : list string :=
  fold_left (fun seen k => if mem k seen then seen else (seen ++ [k])%list)
            items [].

(** ** JavaScript numbers that are not integers: binary64 *)

Module Num.

Definition number := spec_float.

Definition prec : Z := 53.
Definition emax : Z := 1024.

Definition mul : number -> number -> number := SFmul prec emax.
Definition sub : number -> number -> number := SFsub prec emax.
Definition div : number -> number -> number := SFdiv prec emax.
Definition sqrt : number -> number := SFsqrt prec emax.

Definition zero : number := S754_zero false.

(** The double that holds the integer [z] (exact below 2^53). *)
Definition of_Z (z : Z) : number := binary_normalize prec emax z 0 false.
Definition of_N (n : N) : number := of_Z (Z.of_N n).

(** [x > 0] *)
Definition positive (x : number) : bool := SFltb zero x.

(** The integer [n] of [Number.prototype.toFixed]: the one for which
    [n / 100] is closest to [|x|], the larger one on a tie. *)
Definition hundredths (x : number) : Z :=
  match x with
  | S754_finite _ m e =>
      if (0 <=? e)%Z then (Z.pos m * 2 ^ e * 100)%Z
      else ((200 * Z.pos m + 2 ^ (- e)) / 2 ^ (1 - e))%Z
  | _ => 0%Z
  end.


(** [parseFloat(x.toFixed(2))]: [x] rounded to two decimals and read back.
    Above 10^21 [toFixed] prints the number itself. *)
Definition round2 (x : number) : number :=
  match x with
  | S754_finite s _ _ =>
      if SFltb (SFabs x) (of_Z (10 ^ 21)) then
        let r := div (of_Z (hundredths x)) (of_Z 100) in
        if s then SFopp r else r
      else x
  | _ => x
  end.

Definition two_digits (n : Z) : string :=
  if (n mod 10 =? 0)%Z then JS.show_Z (n / 10)
  else if (n <? 10)%Z then "0" ++ JS.show_Z n
  else JS.show_Z n.

(** [String(x)] for a double [x] that [round2] returned: the decimal
    numeral with at most two decimals that reads back as [x]. *)
Definition show (x : number) : string :=
  match x with
  | S754_nan => "NaN"
  | S754_infinity s => if s then "-Infinity" else "Infinity"
  | S754_zero _ => "0"
  | S754_finite s _ _ =>
      let n := hundredths x in
      (if s then "-" else "") ++ JS.show_Z (n / 100) ++
      (if (n mod 100 =? 0)%Z then "" else "." ++ two_digits (n mod 100))
  end.

(** [Math.floor(x)]; [None] stands for [NaN] and the two infinities, which
    [Math.floor] returns as they are. *)
Definition floor (x : number) : option Z :=
  match x with
  | S754_zero _ => Some 0%Z
  | S754_finite s m e =>
      let v := if s then Z.neg m else Z.pos m in
      Some (if (0 <=? e)%Z then v * 2 ^ e else v / 2 ^ (- e))%Z
  | S754_infinity _ | S754_nan => None
  end.

(** What [k] right shifts of the rounding keep of the integer [M]: the
    quotient by [2^k], with the first bit shifted out as the round bit. *)
Definition shifted (M : Z) (k : Z) (mrs : shr_record) : Prop :=
  exists rem : Z,
    (0 <= shr_m mrs /\ 0 <= rem < 2 ^ k /\
     M = shr_m mrs * 2 ^ k + rem /\
     (shr_r mrs = true -> 2 ^ k <= 2 * rem))%Z.

(** The sign bit of [r] is [s], where [r] has one. *)
Definition has_sign (s : bool) (r : number) : Prop :=
  match r with
  | S754_zero s' | S754_infinity s' | S754_finite s' _ _ => s' = s
  | S754_nan => True
  end.

Definition eq_dec (x y : number) : {x = y} + {x <> y}.
Proof.
  decide equality; first [apply Bool.bool_dec | apply Z.eq_dec | apply Pos.eq_dec].
Defined.

Definition eqb (x y : number) : bool := if eq_dec x y then true else false.

Definition one : number := of_Z 1.

End Num.

(** [Array.prototype.sort(compareFn)] is stable; [after a b] says that
    [compareFn(a, b) > 0], that is, [a] has to come after [b].  For a
    comparator that orders the elements consistently the result of a stable
    sort is determined; it is computed here by stable insertion. *)
Section ArraySort.
Context {A : Type} (after : A -> A -> bool).

Fixpoint sort_insert (x : A) (l : list A) : list A :=
  match l with
  | [] => [x]
  | y :: l' => if after x y then y :: sort_insert x l' else x :: l
  end.

Definition Array_sort (l : list A) : list A := fold_right sort_insert [] l.

End ArraySort.

(** ** rag/tips.ts *)

Module TipsRAG.

Definition stopWords : list string :=
  [ "a"; "an"; "and"; "are"; "as"; "at"; "be"; "by"; "for"; "from";
    "has"; "he"; "in"; "is"; "it"; "its"; "of"; "on"; "that"; "the";
    "to"; "was"; "will"; "with"; "the"; "this"; "your"; "you"; "our" ].

Definition is_stop (w : string) : bool := mem w stopWords.

Definition Vector := JSMap.t N.

(** [vector.set(k, (vector.get(k) || 0) + 1)] *)
Definition bump (k : string) (vector : Vector) : Vector :=
  JSMap.set k (match JSMap.get k vector with Some n => n | None => 0 end + 1)%N
            vector.

(** The token list [words] of [vectorise]. *)
Definition tokens (text : string) : list string :=
  filter JS.nonempty
         (JS.split_ws (JS.strip_punctuation (JS.toLowerCase text))).

(** The [forEach] that adds the unigrams. *)
Definition add_unigrams (words : list string) (vector : Vector) : Vector :=
  fold_left
    (fun v word =>
       if (2 <? String.length word)%nat && negb (is_stop word)
       then bump word v else v)
    words vector.

(** The [for] loop over [i < words.length - 1] that adds the bigrams. *)
Fixpoint add_bigrams (words : list string) (vector : Vector) : Vector :=
  match words with
  | w1 :: ((w2 :: _) as rest) =>
      add_bigrams rest
        (if negb (is_stop w1) && negb (is_stop w2)
         then bump (w1 ++ "_" ++ w2) vector else vector)
  | _ => vector
  end.

Definition vectorise (text : string) : Vector :=
  let words := tokens text in
  add_bigrams words (add_unigrams words JSMap.empty).

Definition count (word : string) (v : Vector) : N :=
  match JSMap.get word v with Some n => n | None => 0%N end.

(** The three sums of the [allWords.forEach] of [cosineSimilarity]. *)
Definition sums (vec1 vec2 : Vector) : N * N * N :=
  let allWords := Set_of (JSMap.keys vec1 ++ JSMap.keys vec2) in
  fold_left
    (fun '(dotProduct, norm1, norm2) word =>
       let v1 := count word vec1 in
       let v2 := count word vec2 in
       (dotProduct + v1 * v2, norm1 + v1 * v1, norm2 + v2 * v2)%N)
    allWords (0, 0, 0)%N.

Definition cosineSimilarity (vec1 vec2 : Vector) : Num.number :=
  let '(dotProduct, norm1, norm2) := sums vec1 vec2 in
  if (norm1 =? 0)%N || (norm2 =? 0)%N then Num.zero
  else Num.div (Num.of_N dotProduct)
               (Num.mul (Num.sqrt (Num.of_N norm1)) (Num.sqrt (Num.of_N norm2))).

Record Document := {
  doc_id : string;
  doc_text : string;
  doc_tags : option (list string)
}.

Record Scored := {
  id : string;
  score : Num.number;
  text : string;
  tags : option (list string)
}.

(** [(a, b) => b.score - a.score] *)
Definition compareFn (a b : Scored) : Num.number :=
  Num.sub (score b) (score a).

Definition score_all (query : string) (documents : list Document)
  : list Scored :=
  let queryVector := vectorise query in
  map (fun doc =>
         {| id := doc_id doc;
            score := cosineSimilarity queryVector (vectorise (doc_text doc));
            text := doc_text doc;
            tags := doc_tags doc |})
      documents.

Definition findSimilar (query : string) (documents : list Document)
           (topK : Z) : list Scored :=
  let scores := score_all query documents in
  JS.slice0 (Array_sort (fun a b => Num.positive (compareFn a b)) scores) topK.

(** The features of a token list, said directly: the unigrams are the
    tokens longer than two characters that are no stop words; the bigrams
    join every two neighbouring tokens of which neither is a stop word. *)
Definition is_unigram (word : string) : bool :=
  (2 <? String.length word)%nat && negb (is_stop word).

Definition unigram_features (words : list string) : list string :=
  filter is_unigram words.

Fixpoint bigram_features (words : list string) : list string :=
  match words with
  | w1 :: ((w2 :: _) as rest) =>
      if negb (is_stop w1) && negb (is_stop w2)
      then (w1 ++ "_" ++ w2) :: bigram_features rest
      else bigram_features rest
  | _ => []
  end.

Fixpoint has_char (c : ascii) (s : string) : bool :=
  match s with
  | EmptyString => false
  | String d r => Ascii.eqb c d || has_char c r
  end.

(** Counting a list of features into a vector. *)
Definition bump_all (features : list string) (v : Vector) : Vector :=
  fold_left (fun v k => bump k v) features v.

(** [b] may follow [a] in the ranking: [b.score - a.score] is not positive. *)
Definition not_increasing (a b : Scored) : Prop :=
  Num.positive (Num.sub (score b) (score a)) = false.

Definition has_score (s : Num.number) (d : Scored) : bool :=
  Num.eqb (score d) s.

(** Sum of [f] over a list of words. *)
Definition sumN (f : string -> N) (l : list string) : N :=
  fold_right (fun w acc => (f w + acc)%N) 0%N l.

(** The square of the magnitude of a vector: the sum of the squares of
    its counts, over its own keys. *)
Definition magnitude_sq (v : Vector) : N :=
  sumN (fun w => (count w v * count w v)%N) (Set_of (JSMap.keys v)).

(** The dot product of two vectors, over the keys of the first. *)
Definition dot_product (a b : Vector) : N :=
  sumN (fun w => (count w a * count w b)%N) (Set_of (JSMap.keys a)).

(** A character of a token: a lower-case letter, a digit or an underscore. *)
Definition is_token_char (c : ascii) : bool :=
  JS.is_word c && negb (JS.is_upper c).

End TipsRAG.

(** ** The data-access layer *)

(** A load either throws an [Error] with a message or yields the records
    in file order. *)
Inductive Load (A : Type) : Type :=
| Thrown (message : string)
| Loaded (records : list A).

Arguments Thrown {A} message.
Arguments Loaded {A} records.

Record CheckIn := {
  ci_pair_id : string;
  ci_timestamp : Z;          (* [new Date(timestamp).getTime()], in ms *)
  ci_mentee_score : Z;
  ci_mentor_score : Z;
  ci_notes : string
}.

Record Message := {
  msg_pair_id : string;
  msg_timestamp : string;
  msg_author_role : string;
  msg_channel : string;
  msg_text : string
}.

Record User := {
  user_id : string;
  role : string;
  email : string;
  timezone : string;
  first_name : string;
  joined_at : string
}.

Record Pairing := {
  pair_id : string;
  mentor_id : string;
  mentee_id : string;
  programme_id : string;
  started_at : string
}.

Record Programme := {
  prog_programme_id : string;
  name : string;
  cadence_days : Z;
  success_markers : list string
}.

Record Tip := {
  tip_id : string;
  situation : string;
  tip_text : string
}.

(** The files under the data path, as the loaders see them. *)
Record Dataset := {
  checkins_csv : Load CheckIn;
  messages_csv : Load Message;
  users_csv : Load User;
  pairings_csv : Load Pairing;
  programmes_json : Load Programme;
  tips_json : Load Tip
}.

(** Code that may throw: [Throw msg] is an [Error] with that message. *)
Inductive Exn (A : Type) : Type :=
| Throw (message : string)
| Return (a : A).

Arguments Throw {A} message.
Arguments Return {A} a.

Definition bind {A B} (m : Exn A) (k : A -> Exn B) : Exn B :=
  match m with
  | Throw msg => Throw msg
  | Return a => k a
  end.

Notation "x <- m ;; k" := (bind m (fun x => k))
  (at level 61, m at next level, right associativity).

(** [arr.map(f)] for a callback that may throw. *)
Fixpoint map_exn {A B} (f : A -> Exn B) (l : list A) : Exn (list B) :=
  match l with
  | [] => Return []
  | a :: l' => b <- f a ;; bs <- map_exn f l' ;; Return (b :: bs)
  end.

Definition load {A} (file : Load A) : Exn (list A) :=
  match file with
  | Thrown msg => Throw msg
  | Loaded records => Return records
  end.

(** ** tools/csvPulse.ts *)

Module EngagementPulse.

Record EngagementOptions := {
  mode : option string;
  limit : option Z;          (* [None]: absent, or [NaN] *)
  prompt : option string
}.

Record Mentee := {
  m_mentee_id : string;
  m_first_name : string;
  m_pair_id : string;
  m_last_checkin_days : Z
}.

Inductive EngagementResult :=
| SummaryResult (sample : nat) (dormant : nat) (balance : string)
                (last_checkin_days : Z)
| ListResult (dormant_count : nat) (mentees : list Mentee)
| ErrorResult (message : string) (hint : string).

Record Stats := {
  lastCheckin : Z;
  balance : string;
  daysSince : Z
}.

Record DormantPair := {
  pairId : string;
  dp_daysSince : Z
}.

Definition ms_per_day : Z := 1000 * 60 * 60 * 24.

(** The [checkins.forEach] that keeps the latest check-in of every pair. *)
Definition analyse_checkins (now : Z) (checkins : list CheckIn)
  : JSMap.t Stats :=
  fold_left
    (fun pairStats checkin =>
       let pairId := ci_pair_id checkin in
       let checkinDate := ci_timestamp checkin in
       if negb (JSMap.has pairId pairStats) ||
          match JSMap.get pairId pairStats with
          | Some s => (lastCheckin s <? checkinDate)%Z
          | None => false
          end
       then
         let daysSince := ((now - checkinDate) / ms_per_day)%Z in
         JSMap.set pairId
           {| lastCheckin := checkinDate; balance := "balanced";
              daysSince := daysSince |} pairStats
       else pairStats)
    checkins JSMap.empty.

(** The [messages.forEach] that groups the messages by pair. *)
Definition group_messages (messages : list Message)
  : JSMap.t (list Message) :=
  fold_left
    (fun pairMessages msg =>
       let pm := if JSMap.has (msg_pair_id msg) pairMessages then pairMessages
                 else JSMap.set (msg_pair_id msg) [] pairMessages in
       match JSMap.get (msg_pair_id msg) pm with
       | Some msgs => JSMap.set (msg_pair_id msg) (msgs ++ [msg])%list pm
       | None => pm
       end)
    messages JSMap.empty.

Definition count_role (r : string) (msgs : list Message) : nat :=
  List.length (filter (fun m => String.eqb (msg_author_role m) r) msgs).

(** [mentorCount > menteeCount * 1.5] is [2 * mentorCount > 3 * menteeCount]. *)
Definition classify (msgs : list Message) : string :=
  let recentMessages := JS.slice_last 50 msgs in
  let mentorCount := count_role "mentor" recentMessages in
  let menteeCount := count_role "mentee" recentMessages in
  if (3 * menteeCount <? 2 * mentorCount)%nat then "mentor_heavy"
  else if (3 * mentorCount <? 2 * menteeCount)%nat then "mentee_heavy"
  else "balanced".

(** The [pairMessages.forEach] that records the balance of the pairs that
    have statistics. *)
Definition analyse_balance (pairMessages : JSMap.t (list Message))
           (pairStats : JSMap.t Stats) : JSMap.t Stats :=
  fold_left
    (fun stats '(pairId, msgs) =>
       let balance := classify msgs in
       match JSMap.get pairId stats with
       | Some s =>
           JSMap.set pairId
             {| lastCheckin := lastCheckin s; balance := balance;
                daysSince := daysSince s |} stats
       | None => stats
       end)
    pairMessages pairStats.

(** Find dormant pairs (> 14 days). *)
Definition find_dormant (pairStats : JSMap.t Stats) : list DormantPair :=
  fold_left
    (fun dormantPairs '(pairId, stats) =>
       if (14 <? daysSince stats)%Z
       then (dormantPairs ++ [{| pairId := pairId;
                                 dp_daysSince := daysSince stats |}])%list
       else dormantPairs)
    pairStats [].

Definition find {A} (p : A -> bool) (l : list A) : option A := List.find p l.

Definition to_mentee (users : list User) (pairings : list Pairing)
           (d : DormantPair) : Mentee :=
  match find (fun p => String.eqb (pair_id p) (pairId d)) pairings with
  | None =>
      {| m_mentee_id := "unknown"; m_first_name := "Unknown";
         m_pair_id := pairId d; m_last_checkin_days := dp_daysSince d |}
  | Some pairing =>
      let mentee :=
        find (fun u => String.eqb (user_id u) (mentee_id pairing)) users in
      {| m_mentee_id := mentee_id pairing;
         m_first_name :=
           match mentee with
           | Some u => if JS.nonempty (first_name u) then first_name u
                       else "Unknown"
           | None => "Unknown"
           end;
         m_pair_id := pairId d;
         m_last_checkin_days := dp_daysSince d |}
  end.

Definition max_days (pairStats : JSMap.t Stats) : Z :=
  fold_left
    (fun maxDays '(_, stats) =>
       if (maxDays <? daysSince stats)%Z then daysSince stats else maxDays)
    pairStats 0%Z.

Definition count_balance (b : string) (balances : list string) : nat :=
  List.length (filter (fun x => String.eqb x b) balances).

(** [count > balances.length / 2] is [2 * count > balances.length]. *)
Definition overall_balance (balances : list string) : string :=
  if (List.length balances <? 2 * count_balance "mentor_heavy" balances)%nat
  then "mentor_heavy"
  else if (List.length balances <? 2 * count_balance "mentee_heavy" balances)%nat
  then "mentee_heavy"
  else "balanced".

(** [options?.mode || 'summary'] *)
Definition mode_of (options : option EngagementOptions) : string :=
  match options with
  | Some o => match mode o with
              | Some m => if JS.nonempty m then m else "summary"
              | None => "summary"
              end
  | None => "summary"
  end.

(** [options?.limit || 5] *)
Definition limit_of (options : option EngagementOptions) : Z :=
  match options with
  | Some o => match limit o with
              | Some 0%Z | None => 5%Z
              | Some l => l
              end
  | None => 5%Z
  end.

(** [pairStats] after the two analyses. *)
Definition pair_stats (now : Z) (checkins : list CheckIn)
           (messages : list Message) : JSMap.t Stats :=
  analyse_balance (group_messages messages) (analyse_checkins now checkins).

(** The body of the [try] block of [run]. *)
Definition run_body (data : Dataset) (now : Z)
           (options : option EngagementOptions) : Exn EngagementResult :=
  let mode := mode_of options in
  let limit := limit_of options in
  checkins <- load (checkins_csv data) ;;
  messages <- load (messages_csv data) ;;
  users <- load (users_csv data) ;;
  pairings <- load (pairings_csv data) ;;
  let pairStats := pair_stats now checkins messages in
  let dormantPairs := find_dormant pairStats in
  if String.eqb mode "list" then
    let sorted :=
      Array_sort (fun a b => (0 <? dp_daysSince b - dp_daysSince a)%Z)
                 dormantPairs in
    let dormantMentees :=
      map (to_mentee users pairings) (JS.slice0 sorted limit) in
    Return (ListResult (List.length dormantPairs) dormantMentees)
  else
    let maxDays := max_days pairStats in
    let balances := map balance (JSMap.values pairStats) in
    Return (SummaryResult (JSMap.size pairStats) (List.length dormantPairs)
                          (overall_balance balances) maxDays).

Definition run (data : Dataset) (now : Z)
           (options : option EngagementOptions) : EngagementResult :=
  match run_body data now options with
  | Return r => r
  | Throw message =>
      ErrorResult message
        "Check that data files exist and are properly formatted"
  end.

(** The time stamp of the most recent check-in of the pair [pid], if the
    pair has a check-in at all. *)
Definition most_recent_checkin (pid : string) (checkins : list CheckIn)
  : option Z :=
  fold_left
    (fun latest c =>
       if String.eqb (ci_pair_id c) pid then
         match latest with
         | None => Some (ci_timestamp c)
         | Some t => Some (Z.max t (ci_timestamp c))
         end
       else latest)
    checkins None.

(** Whole days between the time stamp [t] and [now]. *)
Definition days_since (now t : Z) : Z := ((now - t) / ms_per_day)%Z.

(** The pairs that [run] classifies as dormant, in the order of
    [dormantPairs]. *)
Definition dormant_pairs (now : Z) (checkins : list CheckIn)
           (messages : list Message) : list string :=
  map pairId (find_dormant (pair_stats now checkins messages)).

(** The entry that [analyse_checkins] stores for a check-in at [t]. *)
Definition stats_of (now t : Z) : Stats :=
  {| lastCheckin := t; balance := "balanced"; daysSince := days_since now t |}.

(** The message of a load that throws. *)
Definition thrown {A} (file : Load A) : option string :=
  match file with
  | Thrown message => Some message
  | Loaded _ => None
  end.

(** The first message in a sequence of attempts. *)
Fixpoint first_thrown (attempts : list (option string)) : option string :=
  match attempts with
  | [] => None
  | Some message :: _ => Some message
  | None :: rest => first_thrown rest
  end.

(** The loads of [run], in the order in which [run] makes them. *)
Definition loads (data : Dataset) : list (option string) :=
  [ thrown (checkins_csv data); thrown (messages_csv data);
    thrown (users_csv data); thrown (pairings_csv data) ].

(** The messages of one pair, in file order. *)
Definition messages_of (pid : string) (messages : list Message)
  : list Message :=
  filter (fun m => String.eqb (msg_pair_id m) pid) messages.

(** The balance that the statistics of a pair end with. *)
Definition balance_of (pid : string) (messages : list Message) : string :=
  match messages_of pid messages with
  | [] => "balanced"
  | msgs => classify msgs
  end.

(** [dormantPairs] after the sort of the list mode. *)
Definition ranked_dormant (now : Z) (checkins : list CheckIn)
           (messages : list Message) : list DormantPair :=
  Array_sort (fun a b => (0 <? dp_daysSince b - dp_daysSince a)%Z)
             (find_dormant (pair_stats now checkins messages)).

(** The roles, and the labels, of mentor and mentee exchanged. *)
Definition swap_role (role : string) : string :=
  if String.eqb role "mentor" then "mentee"
  else if String.eqb role "mentee" then "mentor"
  else role.

Definition swap_author (m : Message) : Message :=
  {| msg_pair_id := msg_pair_id m;
     msg_timestamp := msg_timestamp m;
     msg_author_role := swap_role (msg_author_role m);
     msg_channel := msg_channel m;
     msg_text := msg_text m |}.

Definition swap_balance (balance : string) : string :=
  if String.eqb balance "mentor_heavy" then "mentee_heavy"
  else if String.eqb balance "mentee_heavy" then "mentor_heavy"
  else balance.

(** *** The loaders

    A loader reads a file and turns every line after the first into a
    record.  Here it starts from the content of the file; a line with too
    few values, for which the source builds a record with [undefined]
    fields, gives [None]. *)

(** [content.trim().split('\n').slice(1)] *)
Definition data_lines (content : string) : list string :=
  tl (JS.split_char (ascii_of_N 10) (JS.trim content)).

Definition parse_message (line : string) : option Message :=
  match JS.split_char ","%char line with
  | v0 :: v1 :: v2 :: v3 :: rest =>
      Some {| msg_pair_id := v0;
              msg_timestamp := v1;
              msg_author_role := v2;
              msg_channel := v3;
              msg_text := JS.join "," rest |}
  | _ => None
  end.

Definition loadMessages (content : string) : list (option Message) :=
  map parse_message (data_lines content).

Definition parse_user (line : string) : option User :=
  match JS.split_char ","%char line with
  | v0 :: v1 :: v2 :: v3 :: v4 :: v5 :: _ =>
      Some {| user_id := v0;
              role := v1;
              email := v2;
              timezone := v3;
              first_name := v4;
              joined_at := v5 |}
  | _ => None
  end.

Definition loadUsers (content : string) : list (option User) :=
  map parse_user (data_lines content).

Definition parse_pairing (line : string) : option Pairing :=
  match JS.split_char ","%char line with
  | v0 :: v1 :: v2 :: v3 :: v4 :: _ =>
      Some {| pair_id := v0;
              mentor_id := v1;
              mentee_id := v2;
              programme_id := v3;
              started_at := v4 |}
  | _ => None
  end.

Definition loadPairings (content : string) : list (option Pairing) :=
  map parse_pairing (data_lines content).

(** A file of comma-separated values: a header line, then the lines. *)
Definition csv_file (header : string) (lines : list string) : string :=
  JS.join (String (ascii_of_N 10) EmptyString) (header :: lines).

Definition message_line (m : Message) : string :=
  JS.join "," [ msg_pair_id m; msg_timestamp m; msg_author_role m;
                msg_channel m; msg_text m ].

Definition user_line (u : User) : string :=
  JS.join "," [ user_id u; role u; email u; timezone u; first_name u;
                joined_at u ].

Definition pairing_line (p : Pairing) : string :=
  JS.join "," [ pair_id p; mentor_id p; mentee_id p; programme_id p;
                started_at p ].

(** No value of the list holds the character [c]. *)
Definition free_of (c : ascii) (values : list string) : bool :=
  forallb (fun v => negb (TipsRAG.has_char c v)) values.

End EngagementPulse.

(** ** tools/ragTips.ts *)

Module MentorTips.

Record Hit := {
  id : string;
  score : Num.number;
  text : string;
  tags : list string
}.

Inductive Result :=
| TipsResult (hits : list Hit)
| ErrorResult (message : string) (hint : string).

(** [/[,_\s]+/] *)
Definition is_tag_separator (c : ascii) : bool :=
  Ascii.eqb c ","%char || Ascii.eqb c "_"%char || JS.is_space c.

Definition to_document (tip : Tip) : TipsRAG.Document :=
  {| TipsRAG.doc_id := tip_id tip;
     TipsRAG.doc_text := situation tip ++ " " ++ tip_text tip;
     TipsRAG.doc_tags :=
       Some (filter JS.nonempty
                    (JS.split_runs is_tag_separator (situation tip))) |}.

(** The callback of [results.map] in [retrieve]: reading [tip.text] of a
    tip that [find] did not find throws a [TypeError]. *)
Definition to_hit (tips : list Tip) (r : TipsRAG.Scored) : Exn Hit :=
  match List.find (fun t => String.eqb (tip_id t) (TipsRAG.id r)) tips with
  | Some tip =>
      Return {| id := TipsRAG.id r;
                score := Num.round2 (TipsRAG.score r);
                text := tip_text tip;
                tags := match TipsRAG.tags r with
                        | Some ts => ts
                        | None => []
                        end |}
  | None => Throw "Cannot read properties of undefined (reading 'text')"
  end.

Definition retrieve_body (data : Dataset) (query : string) : Exn Result :=
  tips <- load (tips_json data) ;;
  let documents := map to_document tips in
  let results := TipsRAG.findSimilar query documents 2 in
  match results with
  | [] => Return (TipsResult [])
  | _ => hits <- map_exn (to_hit tips) results ;; Return (TipsResult hits)
  end.

Definition retrieve (data : Dataset) (query : string) : Result :=
  match retrieve_body data query with
  | Return r => r
  | Throw message =>
      ErrorResult message
        "Check that tips.json exists and is properly formatted"
  end.

End MentorTips.

(** ** tools/composeNudge.ts *)

Module ComposeNudge.

(** The draw [r / 2^53] of [Math.random()], a double in the interval
    [0, 1). *)
Definition draw (r : N) : Num.number :=
  binary_normalize Num.prec Num.emax (Z.of_N (r mod 2 ^ 53)) (-53) false.

(** [Math.floor(Math.random() * n)]: the product is the binary64 product
    of the draw and the length, rounded to nearest, and the index is its
    floor.  An index that is no number selects no element, like an index
    past the end. *)
Definition random_index (r : N) (n : nat) : nat :=
  match Num.floor (Num.mul (draw r) (Num.of_N (N.of_nat n))) with
  | Some i => Z.to_nat i
  | None => n
  end.

(** [s.match(/last_checkin_days=(\d+)/)]: the digits captured at the
    leftmost place where the key is followed by a digit. *)
Fixpoint match_last_checkin_days (s : string) : option string :=
  let here :=
    if String.prefix "last_checkin_days=" s then
      let '(digits, _) := JS.span JS.is_digit (JS.substring_from 18 s) in
      if JS.nonempty digits then Some digits else None
    else None in
  match here with
  | Some d => Some d
  | None => match s with
            | EmptyString => None
            | String _ r => match_last_checkin_days r
            end
  end.

(** [s.match(/\) ([^|]+)/)]: the text captured at the leftmost [") "] that
    is followed by a character other than [|]. *)
Fixpoint match_tip (s : string) : option string :=
  let here :=
    if String.prefix ") " s then
      let '(captured, _) :=
        JS.span (fun c => negb (Ascii.eqb c "|"%char)) (JS.substring_from 2 s) in
      if JS.nonempty captured then Some captured else None
    else None in
  match here with
  | Some t => Some t
  | None => match s with
            | EmptyString => None
            | String _ r => match_tip r
            end
  end.

Definition suggestedQuestions : list string :=
  [ "What's one win from this week you'd like to share?";
    "What challenge could benefit from another perspective?";
    "How are you progressing on your current goals?";
    "What's one thing you'd like feedback on?" ].

Definition quote : string := String (ascii_of_N 34) EmptyString.
Definition newline : string := String (ascii_of_N 10) EmptyString.

Definition overdue_body (mentee mentor : User) (lastCheckinDays : N)
           (tipText question : string) : string :=
  "Hi " ++ first_name mentee ++ ", noticed it has been " ++
  JS.show_N lastCheckinDays ++ " days since your last check-in. " ++
  tipText ++ " Here's a gentle prompt you can use with " ++
  first_name mentor ++ ": " ++ quote ++ question ++ quote.

Definition connected_body (mentee mentor : User) (question : string)
  : string :=
  "Hi " ++ first_name mentee ++
  ", great to see you're staying connected! Here's a conversation starter for your next session with " ++
  first_name mentor ++ ": " ++ quote ++ question ++ quote.

Definition message (mentee : User) (programme : Programme) (body : string)
  : string :=
  "To: " ++ first_name mentee ++ newline ++
  "Subject: Checking in on your " ++ name programme ++ " progress" ++ newline ++
  "Body: " ++ body.

(** [pairId ? pairings.find(...) : pairings[Math.floor(Math.random() * n)]];
    the empty string is falsy, and so is an absent argument. *)
Definition select_pair (pairings : list Pairing) (pairId : option string)
           (random : N) : option Pairing :=
  match pairId with
  | Some pid =>
      if JS.nonempty pid
      then List.find (fun p => String.eqb (pair_id p) pid) pairings
      else nth_error pairings (random_index random (List.length pairings))
  | None => nth_error pairings (random_index random (List.length pairings))
  end.

(** [matches ? parseInt(matches[1]) : 14] *)
Definition last_checkin_days_of (engagementData : string) : N :=
  match match_last_checkin_days engagementData with
  | Some digits => JS.parse_digits 0 digits
  | None => 14%N
  end.

(** [tipMatch ? tipMatch[1].trim() : 'Stay connected with your mentor'] *)
Definition tip_text_of (tips : string) : string :=
  match match_tip tips with
  | Some t => JS.trim t
  | None => "Stay connected with your mentor"
  end.

(** [suggestedQuestions[Math.floor(Math.random() * suggestedQuestions.length)]] *)
Definition question_of (random : N) : string :=
  nth (random_index random (List.length suggestedQuestions))
      suggestedQuestions EmptyString.

(** What [compose] does once [targetPair] is chosen. *)
Definition compose_for (users : list User) (programmes : list Programme)
           (lastCheckinDays : N) (tips : string) (random2 : N)
           (targetPair : Pairing) : string :=
  let mentee :=
    List.find (fun u => String.eqb (user_id u) (mentee_id targetPair)) users in
  let mentor :=
    List.find (fun u => String.eqb (user_id u) (mentor_id targetPair)) users in
  let programme :=
    List.find (fun p => String.eqb (prog_programme_id p)
                                   (programme_id targetPair)) programmes in
  match mentee, mentor, programme with
  | Some mentee, Some mentor, Some programme =>
      let tipText := tip_text_of tips in
      let isOverdue := (cadence_days programme <? Z.of_N lastCheckinDays)%Z in
      let question := question_of random2 in
      let body :=
        if isOverdue
        then overdue_body mentee mentor lastCheckinDays tipText question
        else connected_body mentee mentor question in
      message mentee programme body
  | _, _, _ => "Error: Missing data for nudge composition"
  end.

(** [compose]; [random1] is the draw that picks the pair (made only when
    no pair id is given), [random2] the one that picks the question.  The
    loaders are not inside a [try]: a failing load throws. *)
Definition compose (data : Dataset) (random1 random2 : N)
           (engagementData tips : string) (pairId : option string)
  : Exn string :=
  let lastCheckinDays := last_checkin_days_of engagementData in
  users <- load (users_csv data) ;;
  pairings <- load (pairings_csv data) ;;
  programmes <- load (programmes_json data) ;;
  match select_pair pairings pairId random1 with
  | None => Return "Error: No pairing found"
  | Some targetPair =>
      Return (compose_for users programmes lastCheckinDays tips random2
                          targetPair)
  end.

(** The engagement string has a [last_checkin_days=] field followed by a
    digit, which is what the pattern of [compose] looks for. *)
Definition has_checkin_days_field (s : string) : Prop :=
  exists before c after,
    JS.is_digit c = true /\
    s = before ++ "last_checkin_days=" ++ String c after.

(** The loads of [compose], in the order in which [compose] makes them. *)
Definition loads (data : Dataset) : list (option string) :=
  [ EngagementPulse.thrown (users_csv data);
    EngagementPulse.thrown (pairings_csv data);
    EngagementPulse.thrown (programmes_json data) ].

End ComposeNudge.

(** ** brain/deterministic.ts *)

Module DeterministicBrain.

Record BrainDecision := {
  action : string;
  mode : option string;
  prompt : option string
}.

Definition keywords : list string := [ "which"; "who"; "list"; "show" ].

Definition head (s : string) : option ascii :=
  match s with
  | EmptyString => None
  | String c _ => Some c
  end.

Definition is_word_at (c : option ascii) : bool :=
  match c with
  | Some c => JS.is_word c
  | None => false
  end.

(** [\b] between the characters [before] and [after]; [None] is an end of
    the string. *)
Definition word_boundary (before after : option ascii) : bool :=
  xorb (is_word_at before) (is_word_at after).

(** The character of [s] just before position [n > 0]. *)
Definition char_before (n : nat) (s : string) : option ascii :=
  String.get (n - 1) s.

(** [\b(which|who|list|show)\b] matched at the front of [s], where [before]
    is the character that precedes [s]; with the flag [i] a letter of the
    pattern matches both of its cases. *)
Definition match_here (before : option ascii) (s : string) : bool :=
  word_boundary before (head s) &&
  existsb
    (fun w =>
       String.prefix w (JS.toLowerCase s) &&
       word_boundary (char_before (String.length w) s)
                     (head (JS.substring_from (String.length w) s)))
    keywords.

Fixpoint test_from (before : option ascii) (s : string) : bool :=
  match_here before s ||
  match s with
  | EmptyString => false
  | String c r => test_from (Some c) r
  end.

(** [/\b(which|who|list|show)\b/i.test(s)] *)
Definition listPattern_test (s : string) : bool := test_from None s.

Definition use_engagement_pulse (prompt : string) : BrainDecision :=
  let mode := if listPattern_test prompt then "list" else "summary" in
  {| action := "USE:engagement_pulse:" ++ mode;
     mode := Some mode;
     prompt := Some prompt |}.

Definition only (action : string) : BrainDecision :=
  {| action := action; mode := None; prompt := None |}.

Definition decide (prompt : string) : BrainDecision :=
  let lowerPrompt := JS.toLowerCase prompt in
  if JS.includes lowerPrompt "engagement" || JS.includes lowerPrompt "pulse"
     || JS.includes lowerPrompt "checkin"
  then use_engagement_pulse prompt
  else if JS.includes lowerPrompt "dormant" || JS.includes lowerPrompt "inactive"
  then
    if JS.includes lowerPrompt "tip" || JS.includes lowerPrompt "advice"
    then only "USE:mentor_tips"
    else use_engagement_pulse prompt
  else if JS.includes lowerPrompt "one sided"
          || JS.includes lowerPrompt "one-sided"
          || JS.includes lowerPrompt "imbalance"
  then only "USE:mentor_tips"
  else if JS.includes lowerPrompt "tip" || JS.includes lowerPrompt "advice"
          || JS.includes lowerPrompt "suggestion"
  then only "USE:mentor_tips"
  else if JS.includes lowerPrompt "echo"
  then only "USE:echo"
  else if JS.includes lowerPrompt "debug"
  then only "RESPOND:Debug mode - all systems operational"
  else only ("RESPOND:I understand you're asking about " ++
             ComposeNudge.quote ++ prompt ++ ComposeNudge.quote ++
             ". Let me help with that.").

(** The last character of [s], or [before] when [s] is empty. *)
Fixpoint last_char (before : option ascii) (s : string) : option ascii :=
  match s with
  | EmptyString => before
  | String c r => last_char (Some c) r
  end.

(** What it means to match [\b(which|who|list|show)\b] with the flag [i]:
    the string holds one of the four words, in any mix of cases, with no
    word character right before it and none right after it. *)
Definition matches_listPattern (s : string) : Prop :=
  exists before w after,
    s = before ++ w ++ after /\
    In (JS.toLowerCase w) keywords /\
    is_word_at (last_char None before) = false /\
    is_word_at (head after) = false.

(** Rule 1 and rule 2 of the router, on the lower-cased prompt. *)
Definition rule1 (lowerPrompt : string) : bool :=
  JS.includes lowerPrompt "engagement" || JS.includes lowerPrompt "pulse"
  || JS.includes lowerPrompt "checkin".

Definition rule2 (lowerPrompt : string) : bool :=
  (JS.includes lowerPrompt "dormant" || JS.includes lowerPrompt "inactive")
  && negb (JS.includes lowerPrompt "tip" || JS.includes lowerPrompt "advice").

Fixpoint all_chars (p : ascii -> bool) (s : string) : bool :=
  match s with
  | EmptyString => true
  | String c r => p c && all_chars p r
  end.

(** The text of the default response. *)
Definition default_reply (prompt : string) : string :=
  "I understand you're asking about " ++ ComposeNudge.quote ++ prompt ++
  ComposeNudge.quote ++ ". Let me help with that.".

End DeterministicBrain.

(** ** brain/providers/openai.ts, brain/providers/ollama.ts, brain/index.ts *)

Record ChatMessage := {
  chat_role : string;
  chat_content : string
}.

(** [messages[messages.length - 1]?.content || ''] *)
Definition lastMessage_of (messages : list ChatMessage) : string :=
  List.last (map chat_content messages) EmptyString.

Module OpenAIProvider.

Import DeterministicBrain.

(** How the HTTPS exchange of [generate] ends: the promise is rejected with
    an [Error] of the given message (a request error, a time-out, an error
    field in the response, or a response that cannot be read), or the
    response holds the given message content. *)
Inductive Exchange :=
| Rejected (message : string)
| Replied (content : string).

Definition generate (exchange : Exchange) (messages : list ChatMessage)
  : Exn BrainDecision :=
  let lastMessage := lastMessage_of messages in
  let mode := if listPattern_test lastMessage then "list" else "summary" in
  match exchange with
  | Rejected message => Throw message
  | Replied raw =>
      let content := JS.trim raw in
      if JS.includes content "USE:engagement_pulse" then
        let inferredMode :=
          if JS.includes content ":list" then "list"
          else if JS.includes content ":summary" then "summary"
          else mode in
        Return {| action := content; mode := Some inferredMode;
                  prompt := Some lastMessage |}
      else Return (only content)
  end.

End OpenAIProvider.

Module OllamaProvider.

Import DeterministicBrain.

(** As for the other provider; the content of the response may be absent. *)
Inductive Exchange :=
| Rejected (message : string)
| Replied (content : option string).

(** [response.message?.content?.trim() || 'RESPOND:No response from model'] *)
Definition content_of (content : option string) : string :=
  match content with
  | Some raw =>
      if JS.nonempty (JS.trim raw) then JS.trim raw
      else "RESPOND:No response from model"
  | None => "RESPOND:No response from model"
  end.

Definition generate (exchange : Exchange) (messages : list ChatMessage)
  : Exn BrainDecision :=
  let lastMessage := lastMessage_of messages in
  let mode := if listPattern_test lastMessage then "list" else "summary" in
  match exchange with
  | Rejected message => Throw message
  | Replied raw =>
      let content := content_of raw in
      if JS.includes content "USE:engagement_pulse" then
        let inferredMode :=
          if JS.includes content ":list" then "list"
          else if JS.includes content ":summary" then "summary"
          else mode in
        Return {| action := content; mode := Some inferredMode;
                  prompt := Some lastMessage |}
      else Return (only content)
  end.

End OllamaProvider.

Module Brain.

Import DeterministicBrain.

(** The fields of the configuration that [think] reads to reach a
    decision; the model and the host only go into the request. *)
Record Config := {
  provider : option string;
  apiKey : option string
}.

(** [config.provider || 'deterministic'] *)
Definition provider_of (config : Config) : string :=
  match provider config with
  | Some p => if JS.nonempty p then p else "deterministic"
  | None => "deterministic"
  end.

(** The [try] block of [think]; [openai] and [ollama] are the ends of the
    exchanges that the two providers would have. *)
Definition think_body (config : Config) (openai : OpenAIProvider.Exchange)
           (ollama : OllamaProvider.Exchange) (prompt : string)
  : Exn BrainDecision :=
  let messages := [ {| chat_role := "user"; chat_content := prompt |} ] in
  if String.eqb (provider_of config) "openai" then
    match apiKey config with
    | Some key =>
        if JS.nonempty key then OpenAIProvider.generate openai messages
        else Throw "OpenAI API key is required"
    | None => Throw "OpenAI API key is required"
    end
  else if String.eqb (provider_of config) "ollama" then
    OllamaProvider.generate ollama messages
  else Return (decide prompt).

(** [think]: an error becomes a decision to respond with its message. *)
Definition think (config : Config) (openai : OpenAIProvider.Exchange)
           (ollama : OllamaProvider.Exchange) (prompt : string)
  : BrainDecision :=
  match think_body config openai ollama prompt with
  | Return decision => decision
  | Throw message => only ("RESPOND:Error: " ++ message)
  end.

(** [this.apiKey] is truthy. *)
Definition has_key (config : Config) : bool :=
  match apiKey config with
  | Some key => JS.nonempty key
  | None => false
  end.

(** The decision that a prompt alone suggests for the engagement tool. *)
Definition mode_by_prompt (prompt : string) : string :=
  if listPattern_test prompt then "list" else "summary".

(** The action of a reply that asks for the engagement tool, with or
    without a mode after the tool name. *)
Definition engagement_action (named : option string) : string :=
  "USE:engagement_pulse" ++
  match named with Some m => ":" ++ m | None => "" end.

(** The mode that the loop hands to the tool for such a reply. *)
Definition chosen_mode (named : option string) (prompt : string) : string :=
  match named with
  | Some m => if JS.nonempty m then m else mode_by_prompt prompt
  | None => mode_by_prompt prompt
  end.

End Brain.

(** ** cli.ts: the agent loop *)

Module Cli.

Import DeterministicBrain.

Record NudgeResult := {
  subject : string;
  body : string
}.

(** The values that [result.observation] takes. *)
Inductive Observation :=
| Null
| Engagement (r : EngagementPulse.EngagementResult)
| Tips (r : MentorTips.Result)
| TipsAndNudge (tips : MentorTips.Result) (nudge : NudgeResult)
| Text (s : string).

Record AgentResult := {
  thought : string;
  result_action : string;
  observation : Observation;
  reflection : string
}.

(** The command line, and what the run reads from its surroundings. *)
Record Invocation := {
  cli_prompt : string;
  pairId : option string;
  cli_limit : option Z;      (* [None]: [parseInt] gave [NaN] *)
  compose : bool;
  data : Dataset;
  now : Z;
  random1 : N;
  random2 : N
}.

Definition summary_options : EngagementPulse.EngagementOptions :=
  {| EngagementPulse.mode := Some "summary";
     EngagementPulse.limit := None;
     EngagementPulse.prompt := None |}.

(** The string form of the engagement summary handed to [compose]. *)
Definition engagement_data (r : EngagementPulse.EngagementResult) : string :=
  match r with
  | EngagementPulse.SummaryResult sample dormant balance last_checkin_days =>
      "sample=" ++ JS.show_Z (Z.of_nat sample) ++
      " dormant=" ++ JS.show_Z (Z.of_nat dormant) ++
      " balance=" ++ balance ++
      " last_checkin_days=" ++ JS.show_Z last_checkin_days
  | _ => "sample=0 dormant=0 balance=balanced last_checkin_days=0"
  end.

(** [hits.slice(0, 2).map(h => `(${h.id} ${h.score}) ${h.text}`).join(' | ')] *)
Definition format_tips (hits : list MentorTips.Hit) : string :=
  JS.join " | "
    (map (fun h => "(" ++ MentorTips.id h ++ " " ++
                   Num.show (MentorTips.score h) ++ ") " ++ MentorTips.text h)
         (JS.slice0 hits 2)).

(** The nudge text parsed into its subject and body. *)
Definition parse_nudge (nudgeText : string) : NudgeResult :=
  let lines := JS.split_char (ascii_of_N 10) nudgeText in
  let subjectLine := List.find (fun l => JS.startsWith l "Subject:") lines in
  let bodyLines := filter (fun l => JS.startsWith l "Body:") lines in
  {| subject :=
       match subjectLine with
       | Some l => JS.replace_first "Subject: " "" l
       | None => "Mentorship update"
       end;
     body :=
       match bodyLines with
       | l :: _ => JS.replace_first "Body: " "" l
       | [] => nudgeText
       end |}.

Definition reflect_on_type (is_error : bool) : string :=
  if is_error then "needs improvement" else "looks ok".

Definition engagement_is_error (r : EngagementPulse.EngagementResult) : bool :=
  match r with
  | EngagementPulse.ErrorResult _ _ => true
  | _ => false
  end.

Definition tips_is_error (r : MentorTips.Result) : bool :=
  match r with
  | MentorTips.ErrorResult _ _ => true
  | _ => false
  end.

(** The body of the [try] block of [main], after [brain.think] returned
    [decision]: the observation and the reflection, or the exception that
    leaves the block. *)
Definition act (inv : Invocation) (decision : BrainDecision)
  : Exn (Observation * string) :=
  let prompt := cli_prompt inv in
  if JS.startsWith (action decision) "USE:" then
    let toolParts :=
      JS.split_char ":"%char (JS.substring_from 4 (action decision)) in
    let tool := nth 0 toolParts EmptyString in
    let toolMode :=
      match nth_error toolParts 1 with
      | Some m => if JS.nonempty m then Some m else mode decision
      | None => mode decision
      end in
    if String.eqb tool "engagement_pulse" then
      let pulseResult :=
        EngagementPulse.run (data inv) (now inv)
          (Some {| EngagementPulse.mode := toolMode;
                   EngagementPulse.limit := cli_limit inv;
                   EngagementPulse.prompt :=
                     Some match DeterministicBrain.prompt decision with
                          | Some p => if JS.nonempty p then p else prompt
                          | None => prompt
                          end |}) in
      Return (Engagement pulseResult,
              reflect_on_type (engagement_is_error pulseResult))
    else if String.eqb tool "mentor_tips" then
      let tipsResult := MentorTips.retrieve (data inv) prompt in
      let reflection := reflect_on_type (tips_is_error tipsResult) in
      match tipsResult with
      | MentorTips.TipsResult ((_ :: _) as hits) =>
          if compose inv then
            let engagementDataObj :=
              EngagementPulse.run (data inv) (now inv) (Some summary_options) in
            let engagementData := engagement_data engagementDataObj in
            let topTips := format_tips hits in
            nudgeText <- ComposeNudge.compose (data inv) (random1 inv)
                           (random2 inv) engagementData topTips (pairId inv) ;;
            Return (TipsAndNudge tipsResult (parse_nudge nudgeText), reflection)
          else Return (Tips tipsResult, reflection)
      | _ => Return (Tips tipsResult, reflection)
      end
    else if String.eqb tool "compose_nudge" then
      let engagementDataObj :=
        EngagementPulse.run (data inv) (now inv) (Some summary_options) in
      let engagementData := engagement_data engagementDataObj in
      let tipsDataObj := MentorTips.retrieve (data inv) prompt in
      let tipsDataStr :=
        match tipsDataObj with
        | MentorTips.TipsResult ((_ :: _) as hits) => format_tips hits
        | _ => "No relevant tips found"
        end in
      nudgeText <- ComposeNudge.compose (data inv) (random1 inv) (random2 inv)
                     engagementData tipsDataStr (pairId inv) ;;
      Return (Text nudgeText, "looks ok")
    else if String.eqb tool "echo" then
      Return (Text ("Echo: " ++ prompt), "looks ok")
    else
      Return (Text ("Unknown tool: " ++ tool), "needs improvement")
  else if JS.startsWith (action decision) "RESPOND:" then
    Return (Text (JS.substring_from 8 (action decision)), "looks ok")
  else
    Return (Text (action decision), "looks ok").

(** One pass of the agent loop for the decision that [brain.think]
    returned; an exception is caught once, at the top. *)
Definition agent_loop (inv : Invocation) (decision : BrainDecision)
  : AgentResult :=
  let thought :=
    "Processing: " ++ ComposeNudge.quote ++ cli_prompt inv ++ ComposeNudge.quote in
  match act inv decision with
  | Return (obs, refl) =>
      {| thought := thought; result_action := action decision;
         observation := obs; reflection := refl |}
  | Throw message =>
      {| thought := thought; result_action := action decision;
         observation := Text ("Error: " ++ message);
         reflection := "needs improvement" |}
  end.

(** [main] with the deterministic provider. *)
Definition main (inv : Invocation) : AgentResult :=
  agent_loop inv (decide (cli_prompt inv)).



(** The tool name of a [USE:] action. *)
Definition tool_of (decision : BrainDecision) : string :=
  nth 0 (JS.split_char ":"%char (JS.substring_from 4 (action decision)))
      EmptyString.

Definition known_tools : list string :=
  [ "engagement_pulse"; "mentor_tips"; "compose_nudge"; "echo" ].

(** The action is a [USE:] action that names none of the four tools. *)
Definition unknown_tool (decision : BrainDecision) : bool :=
  JS.startsWith (action decision) "USE:" &&
  negb (mem (tool_of decision) known_tools).

(** [main] with the brain that the configuration selects. *)
Definition main_with (config : Brain.Config)
           (openai : OpenAIProvider.Exchange)
           (ollama : OllamaProvider.Exchange) (inv : Invocation)
  : AgentResult :=
  agent_loop inv (Brain.think config openai ollama (cli_prompt inv)).

(** JavaScript truthiness of an observation: [null] and the empty string
    are falsy, objects are truthy. *)
Definition truthy (o : Observation) : bool :=
  match o with
  | Null => false
  | Text s => JS.nonempty s
  | Engagement _ | Tips _ | TipsAndNudge _ _ => true
  end.

(** What [main] prints at its end. *)
Inductive Printed :=
| PrintObservation (o : Observation)
| PrintResult (r : AgentResult).

Definition output (jsonOnly : bool) (r : AgentResult) : Printed :=
  if jsonOnly && truthy (observation r) then PrintObservation (observation r)
  else PrintResult r.

(** *** The command line *)

(** The environment variables that [main] reads. *)
Record Env := {
  PROVIDER : option string;
  MODEL : option string;
  OPENAI_API_KEY : option string;
  OLLAMA_HOST : option string
}.

(** The local variables of [main] once the arguments are read. *)
Record Settings := {
  s_prompt : string;
  s_provider : option string;
  s_model : option string;
  s_pairId : option string;
  s_menteeId : option string;
  s_debug : bool;
  s_limit : option Z;        (* [None]: [parseInt] gave [NaN] *)
  s_jsonOnly : bool;
  s_compose : bool
}.

(** [parseInt(args[++i] || '5')] *)
Definition limit_argument (value : option string) : option Z :=
  JS.parseInt match value with
              | Some v => if JS.nonempty v then v else "5"
              | None => "5"
              end.

(** The [for] loop over the arguments, from the argument at [i] on: an
    option that takes a value reads the next argument, whatever it is, and
    the loop goes on after it.  [None]: [--help] printed the usage and
    ended the process with code 0. *)
Fixpoint parse_args (args : list string) (prompt : string)
         (provider model pairId menteeId : option string) (debug : bool)
         (limit : option Z) (jsonOnly compose : bool) : option Settings :=
  match args with
  | [] =>
      Some {| s_prompt := prompt; s_provider := provider; s_model := model;
              s_pairId := pairId; s_menteeId := menteeId; s_debug := debug;
              s_limit := limit; s_jsonOnly := jsonOnly;
              s_compose := compose |}
  | arg :: rest =>
      let value := List.hd_error rest in
      let after := match rest with [] => rest | _ :: r => r end in
      if String.eqb arg "--prompt" then
        parse_args after (match value with Some v => v | None => "" end)
                   provider model pairId menteeId debug limit jsonOnly compose
      else if String.eqb arg "--provider" then
        parse_args after prompt value model pairId menteeId debug limit
                   jsonOnly compose
      else if String.eqb arg "--model" then
        parse_args after prompt provider value pairId menteeId debug limit
                   jsonOnly compose
      else if String.eqb arg "--pair-id" then
        parse_args after prompt provider model value menteeId debug limit
                   jsonOnly compose
      else if String.eqb arg "--mentee-id" then
        parse_args after prompt provider model pairId value debug limit
                   jsonOnly compose
      else if String.eqb arg "--debug" then
        parse_args rest prompt provider model pairId menteeId true limit
                   jsonOnly compose
      else if String.eqb arg "--limit" then
        parse_args after prompt provider model pairId menteeId debug
                   (limit_argument value) jsonOnly compose
      else if String.eqb arg "--json-only" then
        parse_args rest prompt provider model pairId menteeId debug limit
                   true compose
      else if String.eqb arg "--compose" then
        parse_args rest prompt provider model pairId menteeId debug limit
                   jsonOnly true
      else if String.eqb arg "--help" then None
      else
        parse_args rest prompt provider model pairId menteeId debug limit
                   jsonOnly compose
  end.

(** The arguments read with the initial values of the variables. *)
Definition settings (env : Env) (args : list string) : option Settings :=
  parse_args args "" (PROVIDER env) (MODEL env) None None false (Some 5%Z)
             false false.

(** What the run takes from outside: the files, the clock, the two random
    draws, and the ends of the exchanges with the two providers. *)
Record World := {
  w_data : Dataset;
  w_now : Z;
  w_random1 : N;
  w_random2 : N;
  w_openai : OpenAIProvider.Exchange;
  w_ollama : OllamaProvider.Exchange
}.

Inductive Outcome :=
| Exit (code : Z)
| Print (p : Printed).

(** [main] from the arguments on. *)
Definition program (env : Env) (args : list string) (w : World) : Outcome :=
  match settings env args with
  | None => Exit 0
  | Some s =>
      if JS.nonempty (s_prompt s) then
        let config :=
          {| Brain.provider := s_provider s;
             Brain.apiKey := OPENAI_API_KEY env |} in
        let inv :=
          {| cli_prompt := s_prompt s; pairId := s_pairId s;
             cli_limit := s_limit s; compose := s_compose s;
             data := w_data w; now := w_now w;
             random1 := w_random1 w; random2 := w_random2 w |} in
        Print (output (s_jsonOnly s)
                      (main_with config (w_openai w) (w_ollama w) inv))
      else Exit 1
  end.

End Cli.

(** ** Sample data, used to run the functions on concrete inputs *)

Module Sample.

Definition day : Z := EngagementPulse.ms_per_day.

Definition user (i r n : string) : User :=
  {| user_id := i; role := r; email := i ++ "@example.com";
     timezone := "Australia/Melbourne"; first_name := n;
     joined_at := "2025-05-01T00:00:00Z" |}.

Definition pairing (p m u : string) : Pairing :=
  {| pair_id := p; mentor_id := m; mentee_id := u;
     programme_id := "prog001"; started_at := "2025-06-01T00:00:00Z" |}.

Definition checkin (p : string) (t : Z) : CheckIn :=
  {| ci_pair_id := p; ci_timestamp := t; ci_mentee_score := 4;
     ci_mentor_score := 4; ci_notes := "ok" |}.

Definition message (p r : string) : Message :=
  {| msg_pair_id := p; msg_timestamp := "2025-07-15T10:00:00Z";
     msg_author_role := r; msg_channel := "email";
     msg_text := "How are your goals progressing?" |}.

Definition tip (i s t : string) : Tip :=
  {| tip_id := i; situation := s; tip_text := t |}.

Definition users : list User :=
  [ user "u001" "mentee" "Priya"; user "m001" "mentor" "Sarah";
    user "u004" "mentee" "Emily" ].

Definition pairings : list Pairing :=
  [ pairing "p001" "m001" "u001"; pairing "p002" "m001" "u004" ].

Definition programmes : list Programme :=
  [ {| prog_programme_id := "prog001"; name := "Leadership Excellence Programme";
       cadence_days := 14; success_markers := [ "goals" ] |} ].

Definition tips : list Tip :=
  [ tip "t1" "dormant_mentee" "Reach out to dormant mentees with a short note";
    tip "t4" "one_sided"
        "Balance one-sided conversations by asking open-ended questions";
    tip "t5" "blocked_goals" "Review blocked goals together" ].

(** "Now" is day 100; the pairs checked in 0, 27 and 15 days ago. *)
Definition now : Z := 100 * day + 5.

Definition checkins : list CheckIn :=
  [ checkin "p001" (86 * day); checkin "p002" (73 * day);
    checkin "p001" (100 * day); checkin "p003" (85 * day) ].

Definition messages : list Message :=
  [ message "p001" "mentor"; message "p001" "mentee";
    message "p002" "mentor" ].

Definition dataset : Dataset :=
  {| checkins_csv := Loaded checkins;
     messages_csv := Loaded messages;
     users_csv := Loaded users;
     pairings_csv := Loaded pairings;
     programmes_json := Loaded programmes;
     tips_json := Loaded tips |}.

(** The same files with a check-in file that holds its header only. *)
Definition no_checkins : Dataset :=
  {| checkins_csv := Loaded [];
     messages_csv := Loaded messages;
     users_csv := Loaded users;
     pairings_csv := Loaded pairings;
     programmes_json := Loaded programmes;
     tips_json := Loaded tips |}.

Definition invocation (prompt : string) (pairId : option string)
           (compose : bool) : Cli.Invocation :=
  {| Cli.cli_prompt := prompt; Cli.pairId := pairId;
     Cli.cli_limit := Some 5%Z; Cli.compose := compose;
     Cli.data := dataset; Cli.now := now;
     Cli.random1 := 2 ^ 52; Cli.random2 := 0 |}.

End Sample.

(** * Properties *)

(** ** Engagement analytics over an empty check-in collection *)

Lemma analyse_balance_empty :
  forall pairMessages, EngagementPulse.analyse_balance pairMessages [] = [].
Proof.
  induction pairMessages as [|[pairId msgs] rest IH]; simpl; auto.
Qed.

(** C10: in summary mode, a data set whose check-in collection is empty
    gives the summary record with sample 0, dormant 0, balance "balanced"
    and last_checkin_days 0, whatever the messages, users and pairings
    are. *)
Theorem run_summary_without_checkins :
  forall data now options messages users pairings,
    checkins_csv data = Loaded [] ->
    messages_csv data = Loaded messages ->
    users_csv data = Loaded users ->
    pairings_csv data = Loaded pairings ->
    EngagementPulse.mode_of options <> "list" ->
    EngagementPulse.run data now options =
    EngagementPulse.SummaryResult 0 0 "balanced" 0.
Proof.
  intros data now options messages users pairings Hc Hm Hu Hp Hmode.
  unfold EngagementPulse.run, EngagementPulse.run_body.
  rewrite Hc, Hm, Hu, Hp; simpl.
  destruct (String.eqb_spec (EngagementPulse.mode_of options) "list") as [E|_].
  - contradiction.
  - unfold EngagementPulse.pair_stats; simpl.
    rewrite analyse_balance_empty. reflexivity.
Qed.

Lemma run_summary_without_checkins_witness :
  EngagementPulse.run Sample.no_checkins Sample.now
    (Some Cli.summary_options) =
  EngagementPulse.SummaryResult 0 0 "balanced" 0.
Proof.
  apply (run_summary_without_checkins Sample.no_checkins Sample.now
           (Some Cli.summary_options) Sample.messages Sample.users
           Sample.pairings); try reflexivity.
  vm_compute. discriminate.
Defined.

(** ** Strings *)

Lemma prefix_app : forall p s, String.prefix p s = true <-> exists r, s = p ++ r.
Proof.
  induction p as [|c p IH]; intros s; simpl.
  - split; [intros _; exists s; reflexivity | destruct s; reflexivity].
  - destruct s as [|d s]; simpl.
    + split; [discriminate | intros [r H]; discriminate].
    + destruct (Ascii.ascii_dec c d) as [->|Hcd].
      * rewrite IH. split; intros [r H]; exists r; [now subst | now injection H].
      * split; [discriminate | intros [r H]; injection H; intros; congruence].
Qed.

Lemma substring_from_app :
  forall p r, JS.substring_from (String.length p) (p ++ r) = r.
Proof.
  induction p as [|c p IH]; intros r; simpl; [destruct r|]; auto.
Qed.

Lemma append_inv_head : forall p a b : string, p ++ a = p ++ b -> a = b.
Proof.
  induction p as [|c p IH]; simpl; intros a b H; [assumption|].
  injection H; auto.
Qed.

Lemma append_assoc : forall a b c : string, (a ++ b) ++ c = a ++ (b ++ c).
Proof.
  induction a as [|x a IH]; simpl; intros; [reflexivity|]. now rewrite IH.
Qed.

Lemma span_nonempty :
  forall p s a b,
    JS.span p s = (a, b) -> JS.nonempty a = true ->
    exists c r, s = String c r /\ p c = true.
Proof.
  intros p [|c r] a b; simpl.
  - intros [= <- <-]; discriminate.
  - destruct (p c) eqn:Hc.
    + intros _ _. eauto.
    + intros [= <- <-]; discriminate.
Qed.

(** ** The nudge composer *)

Lemma match_last_checkin_days_none :
  forall s,
    ~ ComposeNudge.has_checkin_days_field s ->
    ComposeNudge.match_last_checkin_days s = None.
Proof.
  induction s as [|c s IH]; intros Hno.
  - reflexivity.
  - assert (Hhere :
      (if String.prefix "last_checkin_days=" (String c s) then
         let '(digits, _) :=
           JS.span JS.is_digit (JS.substring_from 18 (String c s)) in
         if JS.nonempty digits then Some digits else None
       else None) = None).
    { destruct (String.prefix "last_checkin_days=" (String c s)) eqn:Hp; auto.
      apply prefix_app in Hp. destruct Hp as [r Hr].
      rewrite Hr.
      change 18%nat with (String.length "last_checkin_days=").
      rewrite substring_from_app.
      destruct (JS.span JS.is_digit r) as [digits rest] eqn:Hspan.
      destruct (JS.nonempty digits) eqn:Hne; auto.
      destruct (span_nonempty _ _ _ _ Hspan Hne) as (d & r' & -> & Hd).
      exfalso. apply Hno. exists "", d, r'. split; [assumption|].
      exact Hr. }
    change (ComposeNudge.match_last_checkin_days (String c s)) with
      (match (if String.prefix "last_checkin_days=" (String c s) then
                let '(digits, _) :=
                  JS.span JS.is_digit (JS.substring_from 18 (String c s)) in
                if JS.nonempty digits then Some digits else None
              else None) with
       | Some d => Some d
       | None => ComposeNudge.match_last_checkin_days s
       end).
    rewrite Hhere. apply IH.
    intros (before & d & after & Hd & ->). apply Hno.
    exists (String c before), d, after. split; [assumption | reflexivity].
Qed.

Lemma match_last_checkin_days_some :
  forall s digits,
    ComposeNudge.match_last_checkin_days s = Some digits ->
    ComposeNudge.has_checkin_days_field s.
Proof.
  induction s as [|c s IH]; intros digits.
  - simpl. discriminate.
  - change (ComposeNudge.match_last_checkin_days (String c s)) with
      (match (if String.prefix "last_checkin_days=" (String c s) then
                let '(digits, _) :=
                  JS.span JS.is_digit (JS.substring_from 18 (String c s)) in
                if JS.nonempty digits then Some digits else None
              else None) with
       | Some d => Some d
       | None => ComposeNudge.match_last_checkin_days s
       end).
    destruct (String.prefix "last_checkin_days=" (String c s)) eqn:Hp.
    + apply prefix_app in Hp. destruct Hp as [r Hr].
      rewrite Hr at 1.
      change 18%nat with (String.length "last_checkin_days=").
      rewrite substring_from_app.
      destruct (JS.span JS.is_digit r) as [ds rest] eqn:Hspan.
      destruct (JS.nonempty ds) eqn:Hne.
      * intros _.
        destruct (span_nonempty _ _ _ _ Hspan Hne) as (d & r' & -> & Hd).
        exists "", d, r'. split; [assumption | exact Hr].
      * intros H. destruct (IH _ H) as (before & d & after & Hd & ->).
        exists (String c before), d, after. split; [assumption | reflexivity].
    + intros H. destruct (IH _ H) as (before & d & after & Hd & ->).
      exists (String c before), d, after. split; [assumption | reflexivity].
Qed.

Lemma bodies_differ :
  forall mentee mentor n tipText question,
    ComposeNudge.overdue_body mentee mentor n tipText question <>
    ComposeNudge.connected_body mentee mentor question.
Proof.
  intros mentee mentor n tipText question H.
  unfold ComposeNudge.overdue_body, ComposeNudge.connected_body in H.
  apply (append_inv_head "Hi ") in H.
  apply append_inv_head in H. simpl in H. discriminate.
Qed.

(** C9: when the engagement string has no [last_checkin_days=<digits>]
    field, the composer works with 14 days: for a pairing whose mentee,
    mentor and programme resolve, the message is the overdue one (which
    says "14 days") exactly when 14 > cadence_days, and the other one
    otherwise. *)
Theorem compose_without_days_uses_14 :
  forall data random1 random2 engagementData tips pairId
         users pairings programmes targetPair mentee mentor programme,
    ~ ComposeNudge.has_checkin_days_field engagementData ->
    users_csv data = Loaded users ->
    pairings_csv data = Loaded pairings ->
    programmes_json data = Loaded programmes ->
    ComposeNudge.select_pair pairings pairId random1 = Some targetPair ->
    List.find (fun u => String.eqb (user_id u) (mentee_id targetPair)) users
      = Some mentee ->
    List.find (fun u => String.eqb (user_id u) (mentor_id targetPair)) users
      = Some mentor ->
    List.find (fun p => String.eqb (prog_programme_id p)
                                   (programme_id targetPair)) programmes
      = Some programme ->
    ComposeNudge.last_checkin_days_of engagementData = 14%N /\
    let overdue :=
      ComposeNudge.overdue_body mentee mentor 14 (ComposeNudge.tip_text_of tips)
                                (ComposeNudge.question_of random2) in
    let connected :=
      ComposeNudge.connected_body mentee mentor
                                  (ComposeNudge.question_of random2) in
    overdue <> connected /\
    ((14 > cadence_days programme)%Z ->
     ComposeNudge.compose data random1 random2 engagementData tips pairId =
     Return (ComposeNudge.message mentee programme overdue)) /\
    (~ (14 > cadence_days programme)%Z ->
     ComposeNudge.compose data random1 random2 engagementData tips pairId =
     Return (ComposeNudge.message mentee programme connected)).
Proof.
  intros data random1 random2 engagementData tips pairId users pairings
         programmes targetPair mentee mentor programme
         Hno Hu Hp Hg Hsel Hmentee Hmentor Hprog.
  assert (Hdays : ComposeNudge.last_checkin_days_of engagementData = 14%N).
  { unfold ComposeNudge.last_checkin_days_of.
    now rewrite (match_last_checkin_days_none _ Hno). }
  split; [exact Hdays|].
  cbv zeta. split; [apply bodies_differ|].
  assert (Hcompose :
    ComposeNudge.compose data random1 random2 engagementData tips pairId =
    Return (ComposeNudge.message mentee programme
      (if (cadence_days programme <? 14)%Z
       then ComposeNudge.overdue_body mentee mentor 14
              (ComposeNudge.tip_text_of tips) (ComposeNudge.question_of random2)
       else ComposeNudge.connected_body mentee mentor
              (ComposeNudge.question_of random2)))).
  { unfold ComposeNudge.compose. rewrite Hu, Hp, Hg, Hdays. simpl.
    rewrite Hsel. unfold ComposeNudge.compose_for.
    rewrite Hmentee, Hmentor, Hprog. reflexivity. }
  split; intros Hcad; rewrite Hcompose.
  - replace (cadence_days programme <? 14)%Z with true
      by (symmetry; apply Z.ltb_lt; lia). reflexivity.
  - replace (cadence_days programme <? 14)%Z with false
      by (symmetry; apply Z.ltb_ge; lia). reflexivity.
Qed.

Lemma has_checkin_days_field_match :
  forall s,
    ComposeNudge.has_checkin_days_field s ->
    ComposeNudge.match_last_checkin_days s <> None.
Proof.
  intros s (before & d & after & Hd & ->).
  induction before as [|c before IH].
  - simpl. rewrite Hd. destruct (JS.span JS.is_digit after). simpl. discriminate.
  - change (ComposeNudge.match_last_checkin_days
              (String c before ++ "last_checkin_days=" ++ String d after))
      with
      (match (if String.prefix "last_checkin_days="
                   (String c (before ++ "last_checkin_days=" ++ String d after))
              then
                let '(digits, _) :=
                  JS.span JS.is_digit
                    (JS.substring_from 18
                       (String c (before ++ "last_checkin_days=" ++ String d after)))
                in if JS.nonempty digits then Some digits else None
              else None) with
       | Some d => Some d
       | None => ComposeNudge.match_last_checkin_days
                   (before ++ "last_checkin_days=" ++ String d after)
       end).
    match goal with |- match ?x with _ => _ end <> _ => destruct x end;
      [discriminate | exact IH].
Qed.

Lemma compose_without_days_uses_14_witness :
  ComposeNudge.last_checkin_days_of "sample=3 dormant=2 balance=balanced" = 14%N /\
  ComposeNudge.compose Sample.dataset 0 0 "sample=3 dormant=2 balance=balanced"
                       "" (Some "p001") =
  Return (ComposeNudge.message (Sample.user "u001" "mentee" "Priya")
            (nth 0 Sample.programmes
                 {| prog_programme_id := ""; name := ""; cadence_days := 0;
                    success_markers := [] |})
            (ComposeNudge.connected_body (Sample.user "u001" "mentee" "Priya")
               (Sample.user "m001" "mentor" "Sarah")
               (ComposeNudge.question_of 0))).
Proof.
  assert (Hno : ~ ComposeNudge.has_checkin_days_field
                  "sample=3 dormant=2 balance=balanced").
  { intros H. apply has_checkin_days_field_match in H. apply H.
    vm_compute. reflexivity. }
  destruct (compose_without_days_uses_14 Sample.dataset 0 0
              "sample=3 dormant=2 balance=balanced" "" (Some "p001")
              Sample.users Sample.pairings Sample.programmes
              (Sample.pairing "p001" "m001" "u001")
              (Sample.user "u001" "mentee" "Priya")
              (Sample.user "m001" "mentor" "Sarah")
              (nth 0 Sample.programmes
                 {| prog_programme_id := ""; name := ""; cadence_days := 0;
                    success_markers := [] |})
              Hno eq_refl eq_refl eq_refl eq_refl eq_refl eq_refl eq_refl)
    as (Hdays & _ & _ & Hconnected).
  split; [exact Hdays|].
  apply Hconnected. vm_compute. intros H; discriminate H.
Defined.

(** ** Choosing the pairing *)

Section Rounding.
Local Open Scope Z_scope.

Lemma iter_pos_nat :
  forall {A} (f : A -> A) p x, iter_pos f p x = Nat.iter (Pos.to_nat p) f x.
Proof.
  intros A f. induction p as [p IH|p IH|]; intros x; cbn [iter_pos].
  - rewrite !IH. rewrite Pos2Nat.inj_xI.
    replace (S (2 * Pos.to_nat p)) with (Pos.to_nat p + (Pos.to_nat p + 1))%nat by lia.
    rewrite !Nat.iter_add. reflexivity.
  - rewrite !IH. rewrite Pos2Nat.inj_xO.
    replace (2 * Pos.to_nat p)%nat with (Pos.to_nat p + Pos.to_nat p)%nat by lia.
    now rewrite Nat.iter_add.
  - reflexivity.
Qed.

Lemma shifted_shr_1 :
  forall M k mrs, 0 <= k -> Num.shifted M k mrs -> Num.shifted M (k + 1) (shr_1 mrs).
Proof.
  intros M k [m r s] Hk (rem & Hm & Hrem & HM & Hr).
  cbn [shr_m shr_r] in *.
  assert (Hp : 2 ^ (k + 1) = 2 * 2 ^ k) by (rewrite Z.pow_add_r by lia; lia).
  assert (H0 : 0 < 2 ^ k) by (apply Z.pow_pos_nonneg; lia).
  unfold Num.shifted. rewrite Hp.
  destruct m as [|[p|p|]|p]; cbn [shr_1 shr_m shr_r]; try lia.
  - exists rem. repeat split; try lia; try discriminate.
  - exists (2 ^ k + rem).
    rewrite (Pos2Z.inj_xI p) in HM. repeat split; try lia.
  - exists rem.
    rewrite (Pos2Z.inj_xO p) in HM. repeat split; try lia; try discriminate.
  - exists (2 ^ k + rem). repeat split; try lia.
Qed.

Lemma shifted_iter :
  forall M n k mrs,
    0 <= k -> Num.shifted M k mrs ->
    Num.shifted M (k + Z.of_nat n) (Nat.iter n shr_1 mrs).
Proof.
  intros M. induction n as [|n IH]; intros k mrs Hk H.
  - cbn [Nat.iter nat_rect]. now rewrite Z.add_0_r.
  - replace (k + Z.of_nat (S n)) with (k + Z.of_nat n + 1) by lia.
    change (Nat.iter (S n) shr_1 mrs) with (shr_1 (Nat.iter n shr_1 mrs)).
    apply shifted_shr_1; [lia|]. now apply IH.
Qed.

Lemma shifted_shr :
  forall M e n,
    0 <= M ->
    exists k,
      0 <= k /\ (0 < n -> k = n) /\
      (n <= 0 ->
       k = 0 /\
       fst (shr (Build_shr_record M false false) e n) =
       Build_shr_record M false false) /\
      snd (shr (Build_shr_record M false false) e n) = e + k /\
      Num.shifted M k (fst (shr (Build_shr_record M false false) e n)).
Proof.
  intros M e n HM.
  assert (H0 : Num.shifted M 0 (Build_shr_record M false false)).
  { exists 0. cbn [shr_m shr_r]. rewrite Z.pow_0_r.
    repeat split; try lia; try discriminate. }
  destruct n as [|p|p]; cbn [shr fst snd].
  - exists 0. repeat split; try lia. assumption.
  - exists (Z.pos p). repeat split; try lia.
    rewrite iter_pos_nat.
    pose proof (shifted_iter M (Pos.to_nat p) 0 _ (Z.le_refl 0) H0) as H.
    rewrite positive_nat_Z in H. exact H.
  - exists 0. repeat split; try lia. assumption.
Qed.

Lemma round_nearest_even_bound :
  forall M k mrs,
    0 <= k ->
    Num.shifted M k mrs ->
    let m1 := round_nearest_even (shr_m mrs) (loc_of_shr_record mrs) in
    shr_m mrs <= m1 /\ (0 < k -> 2 * (2 ^ k * m1) <= 2 * M + 2 ^ k) /\
    (k = 0 -> shr_r mrs = false -> shr_s mrs = false -> m1 = M).
Proof.
  intros M k [m r s] Hk (rem & Hm & Hrem & HM & Hr) m1. subst m1.
  cbn [shr_m shr_r shr_s loc_of_shr_record] in *.
  assert (H0 : 0 < 2 ^ k) by (apply Z.pow_pos_nonneg; lia).
  assert (Hk0 : k = 0 -> rem = 0).
  { intros ->. rewrite Z.pow_0_r in Hrem. lia. }
  destruct r, s; cbn [round_nearest_even].
  - assert (2 ^ k <= 2 * rem) by auto.
    repeat split; try lia; try nia; intros; discriminate.
  - assert (2 ^ k <= 2 * rem) by auto.
    destruct (Z.even m); repeat split; try lia; try nia; intros; discriminate.
  - repeat split; try lia; try nia; intros; discriminate.
  - repeat split; try lia; try nia. intros -> _ _.
    rewrite Z.pow_0_r in *. lia.
Qed.

Lemma digits2_bounds :
  forall m,
    2 ^ (Z.pos (digits2_pos m) - 1) <= Z.pos m < 2 ^ Z.pos (digits2_pos m).
Proof.
  induction m as [m IH|m IH|]; cbn [digits2_pos].
  - rewrite Pos2Z.inj_succ, (Pos2Z.inj_xI m).
    replace (Z.succ (Z.pos (digits2_pos m)) - 1)
      with (Z.pos (digits2_pos m) - 1 + 1) by lia.
    unfold Z.succ. rewrite !Z.pow_add_r by lia. rewrite Z.pow_1_r.
    revert IH. generalize (2 ^ (Z.pos (digits2_pos m) - 1)).
    generalize (2 ^ Z.pos (digits2_pos m)). intros; lia.
  - rewrite Pos2Z.inj_succ, (Pos2Z.inj_xO m).
    replace (Z.succ (Z.pos (digits2_pos m)) - 1)
      with (Z.pos (digits2_pos m) - 1 + 1) by lia.
    unfold Z.succ. rewrite !Z.pow_add_r by lia. rewrite Z.pow_1_r.
    revert IH. generalize (2 ^ (Z.pos (digits2_pos m) - 1)).
    generalize (2 ^ Z.pos (digits2_pos m)). intros; lia.
  - cbn. lia.
Qed.

Lemma round_aux_floor_lt :
  forall M E n,
    -1074 <= E < 0 -> 0 < n <= 2 ^ 32 ->
    Z.pos M < n * 2 ^ (- E) ->
    (53 < Z.pos (digits2_pos M) ->
     2 * Z.pos M + 2 ^ (Z.pos (digits2_pos M) - 53) < 2 * (n * 2 ^ (- E))) ->
    exists i,
      Num.floor (binary_round_aux Num.prec Num.emax false (Z.pos M) E loc_Exact) = Some i /\
      0 <= i < n.
Proof.
  intros M E n HE Hn Hlt Hround.
  unfold binary_round_aux, shr_fexp.
  cbn [shr_record_of_loc Zdigits2].
  set (n1 := fexp Num.prec Num.emax (Z.pos (digits2_pos M) + E) - E).
  destruct (shifted_shr (Z.pos M) E n1) as (k1 & Hk1 & Hpos1 & Hnon1 & He1 & Hs1);
    [lia|].
  destruct (shr {| shr_m := Z.pos M; shr_r := false; shr_s := false |} E n1)
    as [mrs1 e1].
  cbn [fst snd] in *.
  set (m1 := round_nearest_even (shr_m mrs1) (loc_of_shr_record mrs1)).
  assert (Hm1 : 0 <= m1 /\ 2 ^ k1 * m1 < n * 2 ^ (- E)).
  { destruct (Z.leb_spec n1 0) as [Hn1|Hn1].
    - destruct (Hnon1 Hn1) as [-> ->]. subst m1.
      cbn [shr_m loc_of_shr_record round_nearest_even].
      rewrite Z.pow_0_r. lia.
    - pose proof (Hpos1 Hn1) as Ek.
      destruct (round_nearest_even_bound _ _ _ Hk1 Hs1) as (Hle & Hup & _).
      fold m1 in Hle, Hup.
      destruct Hs1 as (rem & Hm & _).
      split; [lia|].
      assert (Ed : k1 = Z.pos (digits2_pos M) - 53).
      { subst n1. unfold fexp, emin, Num.prec, Num.emax in *. lia. }
      assert (Hd : 53 < Z.pos (digits2_pos M)) by lia.
      specialize (Hround Hd). rewrite <- Ed in Hround.
      specialize (Hup ltac:(lia)). lia. }
  destruct Hm1 as [Hm1 Hb1].
  set (n2 := fexp Num.prec Num.emax (Zdigits2 m1 + e1) - e1).
  destruct (shifted_shr m1 e1 n2) as (k2 & Hk2 & _ & _ & He2 & Hs2); [lia|].
  destruct (shr {| shr_m := m1; shr_r := false; shr_s := false |} e1 n2)
    as [mrs2 e2].
  cbn [fst snd] in *.
  destruct Hs2 as (rem2 & Hm2 & Hrem2 & HM2 & _).
  assert (P1 : 0 < 2 ^ k1) by (apply Z.pow_pos_nonneg; lia).
  assert (P2 : 0 < 2 ^ k2) by (apply Z.pow_pos_nonneg; lia).
  assert (PE : 0 < 2 ^ (- E)) by (apply Z.pow_pos_nonneg; lia).
  destruct (shr_m mrs2) as [|m2|m2] eqn:Em2.
  - exists 0. split; [reflexivity | lia].
  - assert (Hkey : Z.pos m2 * 2 ^ (k1 + k2) < n * 2 ^ (- E)).
    { rewrite Z.pow_add_r by lia. nia. }
    assert (HK : k1 + k2 < 32 - E).
    { apply (Z.pow_lt_mono_r_iff 2); [lia | lia|].
      assert (2 ^ (32 - E) = 2 ^ 32 * 2 ^ (- E)).
      { replace (32 - E) with (32 + - E) by lia.
        rewrite Z.pow_add_r by lia. reflexivity. }
      assert (0 < 2 ^ (k1 + k2)) by (apply Z.pow_pos_nonneg; lia).
      nia. }
    assert (Hov : (e2 <=? Num.emax - Num.prec) = true)
      by (apply Z.leb_le; unfold Num.emax, Num.prec; lia).
    rewrite Hov. cbn [Num.floor].
    destruct (Z.leb_spec 0 e2) as [He|He].
    + exists (Z.pos m2 * 2 ^ e2). split; [reflexivity|].
      assert (0 < 2 ^ e2) by (apply Z.pow_pos_nonneg; lia).
      split; [lia|].
      assert (Hs : 2 ^ (k1 + k2) = 2 ^ e2 * 2 ^ (- E)).
      { rewrite <- Z.pow_add_r by lia. f_equal. lia. }
      rewrite Hs in Hkey. nia.
    + exists (Z.pos m2 / 2 ^ (- e2)). split; [reflexivity|].
      assert (0 < 2 ^ (- e2)) by (apply Z.pow_pos_nonneg; lia).
      split; [apply Z.div_pos; lia|].
      apply Z.div_lt_upper_bound; [lia|].
      assert (Hs : 2 ^ (- E) = 2 ^ (- e2) * 2 ^ (k1 + k2)).
      { rewrite <- Z.pow_add_r by lia. f_equal. lia. }
      rewrite Hs in Hkey.
      assert (0 < 2 ^ (k1 + k2)) by (apply Z.pow_pos_nonneg; lia).
      nia.
  - lia.
Qed.

Lemma round_aux_exact :
  forall s m e,
    Z.pos (digits2_pos m) <= 53 -> -1074 <= e <= 971 ->
    binary_round_aux Num.prec Num.emax s (Z.pos m) e loc_Exact = S754_finite s m e.
Proof.
  intros s m e Hd He. unfold binary_round_aux, shr_fexp.
  cbn [shr_record_of_loc Zdigits2].
  assert (Hn : fexp Num.prec Num.emax (Z.pos (digits2_pos m) + e) - e <= 0)
    by (unfold fexp, emin, Num.prec, Num.emax; lia).
  destruct (fexp Num.prec Num.emax (Z.pos (digits2_pos m) + e) - e) as [|p|p] eqn:E;
    [| lia |];
    cbn [shr shr_m loc_of_shr_record round_nearest_even shr_record_of_loc
         Zdigits2];
    rewrite E; cbn [shr shr_m];
    replace (e <=? Num.emax - Num.prec) with true
      by (symmetry; apply Z.leb_le; unfold Num.emax, Num.prec; lia);
    reflexivity.
Qed.

Lemma iter_xO :
  forall z p,
    Z.pos (Pos.iter xO z p) = Z.pos z * 2 ^ Z.pos p /\
    Z.pos (digits2_pos (Pos.iter xO z p)) = Z.pos (digits2_pos z) + Z.pos p.
Proof.
  intros z p. induction p as [|p [IH1 IH2]] using Pos.peano_ind.
  - cbn [Pos.iter digits2_pos]. rewrite Pos2Z.inj_succ, (Pos2Z.inj_xO z).
    rewrite Z.pow_1_r. lia.
  - rewrite Pos.iter_succ. cbn [digits2_pos].
    rewrite (Pos2Z.inj_xO (Pos.iter xO z p)), !Pos2Z.inj_succ, IH1, IH2.
    unfold Z.succ. rewrite Z.pow_add_r by lia. rewrite Z.pow_1_r. lia.
Qed.

(** The double that holds [z * 2^e], for [z] of at most 53 bits. *)
Lemma normalize_form :
  forall z e,
    let j := 53 - Z.pos (digits2_pos z) in
    0 <= j -> -1074 <= e - j <= 971 ->
    exists mx,
      binary_normalize Num.prec Num.emax (Z.pos z) e false =
      S754_finite false mx (e - j) /\
      Z.pos mx = Z.pos z * 2 ^ j /\
      Z.pos (digits2_pos mx) = 53.
Proof.
  intros z e j Hj He. unfold binary_normalize, binary_round.
  assert (Hf : fexp Num.prec Num.emax (Z.pos (digits2_pos z) + e) = e - j)
    by (unfold fexp, emin, Num.prec, Num.emax; lia).
  rewrite Hf. unfold shl_align.
  replace (e - j - e) with (- j) by lia.
  destruct j as [|jp|jp] eqn:Ej; [| |lia].
  - cbn [Z.opp]. exists z. rewrite round_aux_exact by lia.
    replace (e - 0) with e by lia. rewrite Z.pow_0_r. repeat split; lia.
  - cbn [Z.opp]. destruct (iter_xO z jp) as [Hv Hd].
    exists (Pos.iter xO z jp). rewrite round_aux_exact by lia.
    repeat split; [exact Hv | lia].
Qed.

Lemma digits2_le :
  forall z k, 0 <= k -> Z.pos z < 2 ^ k -> Z.pos (digits2_pos z) <= k.
Proof.
  intros z k Hk Hz. destruct (digits2_bounds z) as [Hlo _].
  destruct (Z.le_gt_cases (Z.pos (digits2_pos z)) k) as [H|H]; [exact H|].
  assert (2 ^ k <= 2 ^ (Z.pos (digits2_pos z) - 1))
    by (apply Z.pow_le_mono_r; lia).
  lia.
Qed.

Lemma mul_floor_lt :
  forall z w,
    Z.pos z < 2 ^ 53 -> Z.pos w <= 2 ^ 32 ->
    exists i,
      Num.floor (Num.mul (binary_normalize Num.prec Num.emax (Z.pos z) (-53) false)
                 (binary_normalize Num.prec Num.emax (Z.pos w) 0 false)) = Some i /\
      0 <= i < Z.pos w.
Proof.
  intros z w Hz Hw.
  pose proof (digits2_le z 53 ltac:(lia) Hz) as Hdz.
  assert (Hdw : Z.pos (digits2_pos w) <= 33)
    by (apply digits2_le; [lia|]; change (2 ^ 33) with (2 * 2 ^ 32); lia).
  destruct (normalize_form z (-53)) as (mx & -> & Hmx & Hdx); [lia | lia|].
  destruct (normalize_form w 0) as (my & -> & Hmy & Hdy); [lia | lia|].
  set (j := 53 - Z.pos (digits2_pos z)) in *.
  set (i := 53 - Z.pos (digits2_pos w)) in *.
  assert (Hj : 0 <= j <= 52) by (subst j; lia).
  assert (Hi : 20 <= i <= 52) by (subst i; lia).
  unfold Num.mul. cbn [SFmul xorb].
  assert (Pj : 0 < 2 ^ j) by (apply Z.pow_pos_nonneg; lia).
  assert (Pi : 0 < 2 ^ i) by (apply Z.pow_pos_nonneg; lia).
  assert (HE : - (-53 - j + (0 - i)) = 53 + (j + i)) by lia.
  assert (Hpow : 2 ^ (53 + (j + i)) = 2 ^ 53 * (2 ^ j * 2 ^ i))
    by (rewrite !Z.pow_add_r by lia; reflexivity).
  destruct (digits2_bounds mx) as [_ Hmx53]. rewrite Hdx in Hmx53.
  apply round_aux_floor_lt.
  - lia.
  - lia.
  - rewrite HE, Hpow, Pos2Z.inj_mul, Hmx, Hmy. nia.
  - intros Hd. rewrite HE, Hpow, Pos2Z.inj_mul.
    destruct (digits2_bounds (mx * my)) as [Hlo _].
    set (d := Z.pos (digits2_pos (mx * my))) in *.
    assert (Hsplit : 2 ^ (d - 1) = 2 ^ (d - 53) * 2 ^ 52).
    { rewrite <- Z.pow_add_r by lia. f_equal. lia. }
    rewrite Hsplit, Pos2Z.inj_mul in Hlo.
    assert (Pd : 0 < 2 ^ (d - 53)) by (apply Z.pow_pos_nonneg; lia).
    assert (H1 : 2 ^ (d - 53) < 2 * Z.pos my).
    { change (2 ^ 53) with (2 * 2 ^ 52) in Hmx53.
      assert (0 < 2 ^ 52) by reflexivity.
      generalize dependent (2 ^ 52). generalize dependent (2 ^ (d - 53)).
      intros; nia. }
    assert (H2 : Z.pos mx * Z.pos my + Z.pos my <=
                 Z.pos w * (2 ^ 53 * (2 ^ j * 2 ^ i))).
    { rewrite Hmx, Hmy. nia. }
    lia.
Qed.

(** The index drawn for a non-empty array is an index of the array (an
    array holds fewer than 2^32 elements). *)
Lemma random_index_lt :
  forall r n,
    (0 < n)%nat -> Z.of_nat n <= 2 ^ 32 ->
    (ComposeNudge.random_index r n < n)%nat.
Proof.
  intros r n Hn Hmax.
  unfold ComposeNudge.random_index, ComposeNudge.draw, Num.of_N, Num.of_Z.
  assert (Hr : (r mod 2 ^ 53 < 2 ^ 53)%N) by (apply N.mod_upper_bound; discriminate).
  destruct (N.of_nat n) as [|w] eqn:Ew; [lia|].
  assert (Hw : Z.pos w = Z.of_nat n) by lia.
  destruct (r mod 2 ^ 53)%N as [|z] eqn:Ez.
  - cbn [Z.of_N]. 
    destruct (normalize_form w 0) as (my & -> & _); [| |].
    + pose proof (digits2_le w 33 ltac:(lia)
                    ltac:(change (2 ^ 33) with (2 * 2 ^ 32); lia)). lia.
    + pose proof (digits2_le w 33 ltac:(lia)
                    ltac:(change (2 ^ 33) with (2 * 2 ^ 32); lia)).
      pose proof (Pos2Z.is_pos (digits2_pos w)). lia.
    + cbn. lia.
  - cbn [Z.of_N].
    destruct (mul_floor_lt z w) as (i & -> & Hi); [lia | lia | lia].
Qed.

End Rounding.

(** The two draws for which the exact product and the rounded product have
    different floors: the index follows the rounded product. *)
Example random_index_rounds :
  ComposeNudge.random_index 5146971002709138 7 = 4%nat /\
  ComposeNudge.random_index 6004799503160661 3 = 2%nat /\
  (5146971002709138 * 7 / 2 ^ 53 = 3)%N /\
  (6004799503160661 * 3 / 2 ^ 53 = 1)%N.
Proof. vm_compute. repeat split. Qed.

(** A supplied pair id that matches no pairing makes [compose] return its
    sentinel although pairings are loaded: no pairing is drawn. *)
Lemma compose_unresolved_pair_id :
  List.find (fun p => String.eqb (pair_id p) "p999") Sample.pairings = None /\
  nth_error Sample.pairings
            (ComposeNudge.random_index (2 ^ 52) (List.length Sample.pairings))
    = Some (Sample.pairing "p002" "m001" "u004") /\
  ComposeNudge.select_pair Sample.pairings (Some "p999") (2 ^ 52) = None /\
  ComposeNudge.compose Sample.dataset (2 ^ 52) 0 "last_checkin_days=27" ""
                       (Some "p999") = Return "Error: No pairing found".
Proof. vm_compute. repeat split. Qed.

(** C3, amended: a supplied (non-empty) pair id that resolves is used; a
    supplied pair id that does not resolve makes the call return
    "Error: No pairing found"; when no pair id is supplied, the pairing at
    index floor(random * n) of the n loaded pairings is used, where the
    product is the binary64 product; that pairing exists as soon as a
    pairing is loaded (an array holds fewer than 2^32 elements). *)
Theorem compose_selection :
  forall data random1 random2 engagementData tips users pairings programmes,
    users_csv data = Loaded users ->
    pairings_csv data = Loaded pairings ->
    programmes_json data = Loaded programmes ->
    let nudge_for :=
      ComposeNudge.compose_for users programmes
        (ComposeNudge.last_checkin_days_of engagementData) tips random2 in
    (forall pid p,
        pid <> "" ->
        List.find (fun p => String.eqb (pair_id p) pid) pairings = Some p ->
        pair_id p = pid /\ In p pairings /\
        ComposeNudge.compose data random1 random2 engagementData tips (Some pid)
        = Return (nudge_for p)) /\
    (forall pid,
        pid <> "" ->
        List.find (fun p => String.eqb (pair_id p) pid) pairings = None ->
        ComposeNudge.compose data random1 random2 engagementData tips (Some pid)
        = Return "Error: No pairing found") /\
    (forall pairId,
        pairId = None \/ pairId = Some "" ->
        pairings <> [] ->
        (Z.of_nat (List.length pairings) < 2 ^ 32)%Z ->
        exists p,
          nth_error pairings
            (ComposeNudge.random_index random1 (List.length pairings)) = Some p /\
          ComposeNudge.compose data random1 random2 engagementData tips pairId
          = Return (nudge_for p)).
Proof.
  intros data random1 random2 engagementData tips users pairings programmes
         Hu Hp Hg nudge_for.
  assert (Hne : forall pid, pid <> "" -> JS.nonempty pid = true)
    by (intros [|c s] H; [congruence | reflexivity]).
  split; [|split].
  - intros pid p Hpid Hfind.
    pose proof (find_some _ _ Hfind) as [Hin Heq].
    apply String.eqb_eq in Heq.
    repeat split; [assumption | assumption |].
    unfold ComposeNudge.compose. rewrite Hu, Hp, Hg. simpl.
    rewrite (Hne _ Hpid), Hfind. reflexivity.
  - intros pid Hpid Hfind.
    unfold ComposeNudge.compose. rewrite Hu, Hp, Hg. simpl.
    rewrite (Hne _ Hpid), Hfind. reflexivity.
  - intros pairId HpairId Hpairings Hlength.
    assert (Hlt : (ComposeNudge.random_index random1 (List.length pairings)
                   < List.length pairings)%nat).
    { apply random_index_lt; [|lia].
      destruct pairings; [congruence | simpl; lia]. }
    destruct (nth_error pairings
                (ComposeNudge.random_index random1 (List.length pairings)))
      as [p|] eqn:Hnth.
    + exists p. split; [reflexivity|].
      unfold ComposeNudge.compose. rewrite Hu, Hp, Hg.
      cbn [load bind].
      destruct HpairId as [-> | ->];
        cbn [ComposeNudge.select_pair JS.nonempty]; rewrite Hnth;
        reflexivity.
    + apply nth_error_None in Hnth. lia.
Qed.

Lemma compose_selection_witness :
  ComposeNudge.compose Sample.dataset 0 0 "last_checkin_days=27" "" (Some "p002")
  = Return (ComposeNudge.compose_for Sample.users Sample.programmes 27 "" 0
              (Sample.pairing "p002" "m001" "u004")) /\
  ComposeNudge.compose Sample.dataset 0 0 "last_checkin_days=27" "" (Some "p999")
  = Return "Error: No pairing found" /\
  exists p,
    nth_error Sample.pairings
      (ComposeNudge.random_index 0 (List.length Sample.pairings)) = Some p /\
    ComposeNudge.compose Sample.dataset 0 0 "last_checkin_days=27" "" None
    = Return (ComposeNudge.compose_for Sample.users Sample.programmes 27 "" 0 p).
Proof.
  destruct (compose_selection Sample.dataset 0 0 "last_checkin_days=27" ""
              Sample.users Sample.pairings Sample.programmes
              eq_refl eq_refl eq_refl) as (Hused & Hfail & Hdrawn).
  split; [|split].
  - apply (Hused "p002" (Sample.pairing "p002" "m001" "u004")).
    + discriminate.
    + reflexivity.
  - apply Hfail; [discriminate | reflexivity].
  - apply (Hdrawn None); [left; reflexivity | discriminate | reflexivity].
Defined.

(** ** Maps in insertion order *)

Section MapFacts.
Context {V : Type}.
Implicit Types (m : JSMap.t V) (k : string) (v : V).

Lemma get_set :
  forall m k v k',
    JSMap.get k' (JSMap.set k v m) =
    if String.eqb k' k then Some v else JSMap.get k' m.
Proof.
  induction m as [|[k0 v0] m IH]; intros k v k'; simpl.
  - reflexivity.
  - destruct (String.eqb_spec k k0) as [->|Hk]; simpl.
    + destruct (String.eqb_spec k' k0); reflexivity.
    + rewrite IH. destruct (String.eqb_spec k' k0) as [->|Hk'].
      * destruct (String.eqb_spec k0 k); [congruence | reflexivity].
      * reflexivity.
Qed.

Lemma get_set_same : forall m k v, JSMap.get k (JSMap.set k v m) = Some v.
Proof. intros. rewrite get_set, String.eqb_refl. reflexivity. Qed.

Lemma get_set_other :
  forall m k v k', k' <> k -> JSMap.get k' (JSMap.set k v m) = JSMap.get k' m.
Proof.
  intros m k v k' H. rewrite get_set.
  destruct (String.eqb_spec k' k); [contradiction | reflexivity].
Qed.

Lemma get_none_keys :
  forall m k, JSMap.get k m = None <-> ~ In k (JSMap.keys m).
Proof.
  induction m as [|[k0 v0] m IH]; intros k; simpl.
  - tauto.
  - destruct (String.eqb_spec k k0) as [->|Hk].
    + split; [discriminate | intros H; exfalso; apply H; now left].
    + rewrite IH. split; [intros H [E|I]; [congruence | tauto] | tauto].
Qed.

Lemma keys_set :
  forall m k v,
    JSMap.keys (JSMap.set k v m) =
    if JSMap.has k m then JSMap.keys m else (JSMap.keys m ++ [k])%list.
Proof.
  induction m as [|[k0 v0] m IH]; intros k v; simpl.
  - reflexivity.
  - unfold JSMap.has; simpl.
    destruct (String.eqb_spec k k0) as [->|Hk]; simpl; [reflexivity|].
    rewrite IH. unfold JSMap.has. destruct (JSMap.get k m); reflexivity.
Qed.

Lemma NoDup_keys_set :
  forall m k v, NoDup (JSMap.keys m) -> NoDup (JSMap.keys (JSMap.set k v m)).
Proof.
  intros m k v H. rewrite keys_set. unfold JSMap.has.
  destruct (JSMap.get k m) eqn:Hg; [assumption|].
  apply get_none_keys in Hg.
  apply NoDup_app; [assumption | repeat constructor; intros [] | ].
  intros x Hx [<-|[]]. contradiction.
Qed.

Lemma In_get :
  forall m k v,
    NoDup (JSMap.keys m) -> (In (k, v) m <-> JSMap.get k m = Some v).
Proof.
  induction m as [|[k0 v0] m IH]; intros k v Hnd; simpl.
  - split; [tauto | discriminate].
  - simpl in Hnd. inversion Hnd as [|? ? Hnotin Hnd']; subst.
    destruct (String.eqb_spec k k0) as [->|Hk].
    + split.
      * intros [E|I]; [congruence|].
        exfalso. apply Hnotin. change k0 with (fst (k0, v)).
        now apply in_map.
      * intros [= ->]. now left.
    + rewrite <- (IH k v Hnd'). split; [intros [E|I]; [congruence | assumption] | tauto].
Qed.

End MapFacts.

(** ** Dormant pairs *)

Section Dormancy.
Import EngagementPulse.
Variable now : Z.

Let step (pairStats : JSMap.t Stats) (checkin : CheckIn) : JSMap.t Stats :=
  let pairId := ci_pair_id checkin in
  let checkinDate := ci_timestamp checkin in
  if negb (JSMap.has pairId pairStats) ||
     match JSMap.get pairId pairStats with
     | Some s => (lastCheckin s <? checkinDate)%Z
     | None => false
     end
  then
    let daysSince := ((now - checkinDate) / ms_per_day)%Z in
    JSMap.set pairId
      {| lastCheckin := checkinDate; balance := "balanced";
         daysSince := daysSince |} pairStats
  else pairStats.

Let latest_step (pid : string) (latest : option Z) (c : CheckIn) : option Z :=
  if String.eqb (ci_pair_id c) pid then
    match latest with
    | None => Some (ci_timestamp c)
    | Some t => Some (Z.max t (ci_timestamp c))
    end
  else latest.

Lemma analyse_checkins_fold :
  forall checkins (pairStats : JSMap.t Stats) (latest : string -> option Z),
    NoDup (JSMap.keys pairStats) ->
    (forall pid, JSMap.get pid pairStats = option_map (stats_of now) (latest pid)) ->
    NoDup (JSMap.keys (fold_left step checkins pairStats)) /\
    forall pid,
      JSMap.get pid (fold_left step checkins pairStats) =
      option_map (stats_of now) (fold_left (latest_step pid) checkins (latest pid)).
Proof.
  induction checkins as [|c checkins IH]; intros pairStats latest Hnd Hget.
  - simpl. auto.
  - simpl.
    specialize (IH (step pairStats c) (fun pid => latest_step pid (latest pid) c)).
    apply IH; clear IH.
    + unfold step. destruct (_ || _); [apply NoDup_keys_set|]; assumption.
    + intros pid. unfold step, latest_step, JSMap.has.
      rewrite (Hget (ci_pair_id c)).
      destruct (String.eqb_spec (ci_pair_id c) pid) as [<-|Hne].
      * destruct (latest (ci_pair_id c)) as [t|] eqn:Hl; simpl.
        -- destruct (Z.ltb_spec t (ci_timestamp c)).
           ++ rewrite get_set_same. unfold stats_of, days_since.
              rewrite Z.max_r by lia. reflexivity.
           ++ rewrite Hget, Hl. simpl. rewrite Z.max_l by lia. reflexivity.
        -- rewrite get_set_same. reflexivity.
      * destruct (negb _ || _).
        -- rewrite get_set_other by congruence. apply Hget.
        -- apply Hget.
Qed.

Lemma analyse_checkins_get :
  forall checkins pid,
    JSMap.get pid (analyse_checkins now checkins) =
    option_map (stats_of now) (most_recent_checkin pid checkins).
Proof.
  intros checkins pid.
  apply (analyse_checkins_fold checkins JSMap.empty (fun _ => None)).
  - constructor.
  - reflexivity.
Qed.

Lemma analyse_checkins_NoDup :
  forall checkins, NoDup (JSMap.keys (analyse_checkins now checkins)).
Proof.
  intros checkins.
  apply (analyse_checkins_fold checkins JSMap.empty (fun _ => None)).
  - constructor.
  - reflexivity.
Qed.

Lemma analyse_balance_keeps :
  forall pairMessages (pairStats : JSMap.t Stats),
    NoDup (JSMap.keys pairStats) ->
    NoDup (JSMap.keys (analyse_balance pairMessages pairStats)) /\
    forall pid,
      option_map daysSince (JSMap.get pid (analyse_balance pairMessages pairStats))
      = option_map daysSince (JSMap.get pid pairStats).
Proof.
  induction pairMessages as [|[p msgs] rest IH]; intros pairStats Hnd.
  - simpl. auto.
  - simpl. destruct (JSMap.get p pairStats) as [s|] eqn:Hs.
    + match goal with
      | |- context [analyse_balance rest ?m] => destruct (IH m) as [IH1 IH2]
      end.
      { now apply NoDup_keys_set. }
      split; [exact IH1|].
      intros pid. rewrite IH2, get_set.
      destruct (String.eqb_spec pid p) as [->|Hne]; [|reflexivity].
      rewrite Hs. reflexivity.
    + now apply IH.
Qed.

Lemma find_dormant_fold :
  forall (pairStats : JSMap.t Stats) acc pid,
    In pid (map pairId
              (fold_left
                 (fun dormantPairs '(pairId, stats) =>
                    if (14 <? daysSince stats)%Z
                    then (dormantPairs ++ [{| pairId := pairId;
                                              dp_daysSince := daysSince stats |}])%list
                    else dormantPairs)
                 pairStats acc)) <->
    In pid (map pairId acc) \/
    exists s, In (pid, s) pairStats /\ (14 < daysSince s)%Z.
Proof.
  induction pairStats as [|[p s] rest IH]; intros acc pid; simpl.
  - split; [auto | intros [H | (s & [] & _)]; exact H].
  - rewrite IH. destruct (Z.ltb_spec 14 (daysSince s)) as [Hd|Hd].
    + rewrite map_app, in_app_iff. simpl. split.
      * intros [[H | [<- | []]] | (s' & Hin & Hs')]; eauto.
      * intros [H | (s' & [[= <- <-] | Hin] & Hs')]; eauto.
    + split.
      * intros [H | (s' & Hin & Hs')]; eauto.
      * intros [H | (s' & [[= <- <-] | Hin] & Hs')]; eauto. lia.
Qed.

Lemma dormant_pairs_iff :
  forall checkins messages pid,
    In pid (dormant_pairs now checkins messages) <->
    exists t,
      most_recent_checkin pid checkins = Some t /\ (days_since now t > 14)%Z.
Proof.
  intros checkins messages pid.
  unfold dormant_pairs, find_dormant. rewrite find_dormant_fold. simpl.
  unfold pair_stats.
  destruct (analyse_balance_keeps (group_messages messages)
              (analyse_checkins now checkins) (analyse_checkins_NoDup checkins))
    as [Hnd Hdays].
  specialize (Hdays pid). rewrite analyse_checkins_get in Hdays.
  split.
  - intros [[] | (s & Hin & Hs)].
    apply (In_get _ _ _ Hnd) in Hin. rewrite Hin in Hdays. simpl in Hdays.
    destruct (most_recent_checkin pid checkins) as [t|]; [|discriminate].
    exists t. simpl in Hdays. injection Hdays as Hdays.
    split; [reflexivity | lia].
  - intros (t & Ht & Hgt). right. rewrite Ht in Hdays. simpl in Hdays.
    destruct (JSMap.get pid
                (analyse_balance (group_messages messages)
                                 (analyse_checkins now checkins)))
      as [s|] eqn:Hs; [|discriminate].
    exists s. split; [now apply (In_get _ _ _ Hnd)|].
    simpl in Hdays. injection Hdays as Hdays. lia.
Qed.

End Dormancy.

(** C8: a pair is among the dormant pairs exactly when the whole days since
    its most recent check-in exceed 14; with the last check-in exactly 15
    days ago the pair is dormant, with exactly 14 days it is not. *)
Theorem dormant_iff_more_than_14_days :
  forall now checkins messages pid,
    (In pid (EngagementPulse.dormant_pairs now checkins messages) <->
     exists t,
       EngagementPulse.most_recent_checkin pid checkins = Some t /\
       (EngagementPulse.days_since now t > 14)%Z) /\
    (EngagementPulse.most_recent_checkin pid checkins
       = Some (now - 15 * EngagementPulse.ms_per_day)%Z ->
     In pid (EngagementPulse.dormant_pairs now checkins messages)) /\
    (EngagementPulse.most_recent_checkin pid checkins
       = Some (now - 14 * EngagementPulse.ms_per_day)%Z ->
     ~ In pid (EngagementPulse.dormant_pairs now checkins messages)).
Proof.
  intros now checkins messages pid.
  assert (Hdays : forall n,
    EngagementPulse.days_since now (now - n * EngagementPulse.ms_per_day) = n).
  { intros n. unfold EngagementPulse.days_since.
    replace (now - (now - n * EngagementPulse.ms_per_day))%Z
      with (n * EngagementPulse.ms_per_day)%Z by lia.
    apply Z.div_mul. discriminate. }
  split; [apply dormant_pairs_iff | split].
  - intros H. apply dormant_pairs_iff. eexists. split; [exact H|].
    rewrite Hdays. lia.
  - intros H Hin. apply dormant_pairs_iff in Hin.
    destruct Hin as (t & Ht & Hgt). rewrite H in Ht.
    assert (Et : t = (now - 14 * EngagementPulse.ms_per_day)%Z) by congruence.
    rewrite Et, Hdays in Hgt. lia.
Qed.

Lemma dormant_iff_more_than_14_days_witness :
  In "p003" (EngagementPulse.dormant_pairs Sample.now
               [ Sample.checkin "p003" (Sample.now - 15 * Sample.day);
                 Sample.checkin "p001" (Sample.now - 14 * Sample.day) ]
               Sample.messages) /\
  ~ In "p001" (EngagementPulse.dormant_pairs Sample.now
                 [ Sample.checkin "p003" (Sample.now - 15 * Sample.day);
                   Sample.checkin "p001" (Sample.now - 14 * Sample.day) ]
                 Sample.messages).
Proof.
  split.
  - apply (dormant_iff_more_than_14_days Sample.now
             [ Sample.checkin "p003" (Sample.now - 15 * Sample.day);
               Sample.checkin "p001" (Sample.now - 14 * Sample.day) ]
             Sample.messages "p003").
    reflexivity.
  - apply (dormant_iff_more_than_14_days Sample.now
             [ Sample.checkin "p003" (Sample.now - 15 * Sample.day);
               Sample.checkin "p001" (Sample.now - 14 * Sample.day) ]
             Sample.messages "p001").
    reflexivity.
Defined.

(** ** Features of a text *)

Lemma mem_In : forall k l, mem k l = true <-> In k l.
Proof.
  induction l as [|k' l IH]; simpl.
  - split; [discriminate | tauto].
  - rewrite orb_true_iff, IH, String.eqb_eq. split; intros [H|H]; auto.
Qed.

Section Features.
Import TipsRAG.

Lemma add_unigrams_bump_all :
  forall words v, add_unigrams words v = bump_all (unigram_features words) v.
Proof.
  induction words as [|w words IH]; intros v; simpl.
  - reflexivity.
  - unfold add_unigrams in *. simpl. fold (is_unigram w).
    destruct (is_unigram w); simpl; apply IH.
Qed.

Lemma add_bigrams_bump_all :
  forall words v, add_bigrams words v = bump_all (bigram_features words) v.
Proof.
  induction words as [|w1 words IH]; intros v.
  - reflexivity.
  - destruct words as [|w2 rest]; [reflexivity|].
    change (add_bigrams (w1 :: w2 :: rest) v) with
      (add_bigrams (w2 :: rest)
         (if negb (is_stop w1) && negb (is_stop w2)
          then bump (w1 ++ "_" ++ w2) v else v)).
    change (bigram_features (w1 :: w2 :: rest)) with
      (if negb (is_stop w1) && negb (is_stop w2)
       then (w1 ++ "_" ++ w2) :: bigram_features (w2 :: rest)
       else bigram_features (w2 :: rest)).
    rewrite IH. destruct (negb (is_stop w1) && negb (is_stop w2)); reflexivity.
Qed.

Lemma bump_all_app :
  forall f1 f2 v, bump_all (f1 ++ f2) v = bump_all f2 (bump_all f1 v).
Proof. intros. unfold bump_all. apply fold_left_app. Qed.

Lemma vectorise_bump_all :
  forall text,
    vectorise text =
    bump_all (unigram_features (tokens text) ++ bigram_features (tokens text))
             JSMap.empty.
Proof.
  intros text. unfold vectorise.
  now rewrite add_bigrams_bump_all, add_unigrams_bump_all, bump_all_app.
Qed.

Lemma count_bump :
  forall k k' v,
    count k (bump k' v) = (count k v + if String.eqb k k' then 1 else 0)%N.
Proof.
  intros k k' v. unfold count, bump. rewrite get_set.
  destruct (String.eqb_spec k k') as [->|Hne]; [reflexivity | lia].
Qed.

Lemma count_bump_all :
  forall features k v,
    count k (bump_all features v) =
    (count k v + N.of_nat (count_occ string_dec features k))%N.
Proof.
  induction features as [|f features IH]; intros k v; simpl.
  - lia.
  - unfold bump_all in *. simpl. rewrite IH, count_bump.
    destruct (string_dec f k) as [->|Hne].
    + rewrite String.eqb_refl. lia.
    + destruct (String.eqb_spec k f); [congruence | lia].
Qed.

Lemma has_bump :
  forall k k' v,
    JSMap.has k (bump k' v) = String.eqb k k' || JSMap.has k v.
Proof.
  intros k k' v. unfold JSMap.has, bump. rewrite get_set.
  destruct (String.eqb k k'); reflexivity.
Qed.

Lemma has_bump_all :
  forall features k v,
    JSMap.has k (bump_all features v) = true <->
    In k features \/ JSMap.has k v = true.
Proof.
  induction features as [|f features IH]; intros k v; simpl.
  - tauto.
  - unfold bump_all in *. simpl. rewrite IH, has_bump, orb_true_iff, String.eqb_eq.
    split; intros [H | H]; auto; destruct H; auto.
Qed.

Lemma bigram_features_In :
  forall words k,
    In k (bigram_features words) <->
    exists before w1 w2 after,
      words = (before ++ w1 :: w2 :: after)%list /\
      is_stop w1 = false /\ is_stop w2 = false /\ k = w1 ++ "_" ++ w2.
Proof.
  induction words as [|w1 words IH]; intros k.
  - simpl. split; [tauto|].
    intros (before & a & b & after & H & _). now destruct before.
  - destruct words as [|w2 rest].
    + simpl. split; [tauto|].
      intros (before & a & b & after & H & _).
      destruct before as [|x [|y before]]; discriminate.
    + change (bigram_features (w1 :: w2 :: rest)) with
        (if negb (is_stop w1) && negb (is_stop w2)
         then (w1 ++ "_" ++ w2) :: bigram_features (w2 :: rest)
         else bigram_features (w2 :: rest)).
      assert (Htail :
        In k (bigram_features (w2 :: rest)) ->
        exists before a b after,
          w1 :: w2 :: rest = (before ++ a :: b :: after)%list /\
          is_stop a = false /\ is_stop b = false /\ k = a ++ "_" ++ b).
      { intros H. apply IH in H.
        destruct H as (before & a & b & after & E & Ha & Hb & Hk).
        exists (w1 :: before), a, b, after. simpl. rewrite E. auto. }
      split.
      * destruct (is_stop w1) eqn:H1, (is_stop w2) eqn:H2; simpl; auto.
        intros [<- | H]; [|auto]. exists [], w1, w2, rest. auto.
      * intros (before & a & b & after & E & Ha & Hb & Hk).
        destruct before as [|x before].
        -- simpl in E. injection E as <- <- <-. rewrite Ha, Hb. simpl. now left.
        -- simpl in E. injection E as <- E.
           assert (In k (bigram_features (w2 :: rest))).
           { apply IH. exists before, a, b, after. auto. }
           destruct (negb (is_stop w1) && negb (is_stop w2)); simpl; auto.
Qed.

Lemma has_char_append :
  forall c a b, has_char c (a ++ b) = has_char c a || has_char c b.
Proof.
  induction a as [|d a IH]; intros b; simpl; [reflexivity|].
  now rewrite IH, orb_assoc.
Qed.

Lemma stop_word_no_underscore :
  forall w, is_stop w = true -> has_char "_" w = false.
Proof.
  intros w H. apply mem_In in H.
  assert (Hall : forallb (fun s => negb (has_char "_" s)) stopWords = true)
    by reflexivity.
  rewrite forallb_forall in Hall. specialize (Hall w H).
  now apply negb_true_iff in Hall.
Qed.

Lemma tokens_nonempty :
  forall text w, In w (tokens text) -> (0 < String.length w)%nat.
Proof.
  intros text w H. unfold tokens in H. apply filter_In in H.
  destruct H as [_ H]. destruct w; [discriminate | simpl; lia].
Qed.

Lemma length_append :
  forall a b, String.length (a ++ b) = (String.length a + String.length b)%nat.
Proof. induction a as [|c a IH]; intros b; simpl; auto. Qed.

End Features.

(** C6: the feature vector of a text counts, for every key, the unigrams
    and the bigrams equal to it.  A unigram is a token of length > 2 that is
    no stop word; a bigram joins two neighbours of the unfiltered token
    list when neither is a stop word, whatever their lengths.  Hence no key
    of the vector is a stop word or shorter than three characters, while a
    word of two letters can be part of a bigram. *)
Theorem vectorise_features :
  forall text,
    let words := TipsRAG.tokens text in
    (forall k,
        TipsRAG.count k (TipsRAG.vectorise text) =
        N.of_nat (count_occ string_dec (TipsRAG.unigram_features words) k +
                  count_occ string_dec (TipsRAG.bigram_features words) k)) /\
    (forall w,
        In w (TipsRAG.unigram_features words) <->
        In w words /\ (String.length w > 2)%nat /\ TipsRAG.is_stop w = false) /\
    (forall k,
        In k (TipsRAG.bigram_features words) <->
        exists before w1 w2 after,
          words = (before ++ w1 :: w2 :: after)%list /\
          TipsRAG.is_stop w1 = false /\ TipsRAG.is_stop w2 = false /\
          k = w1 ++ "_" ++ w2) /\
    (forall k,
        JSMap.has k (TipsRAG.vectorise text) = true <->
        In k (TipsRAG.unigram_features words) \/
        In k (TipsRAG.bigram_features words)) /\
    (forall k,
        JSMap.has k (TipsRAG.vectorise text) = true ->
        (String.length k > 2)%nat /\ TipsRAG.is_stop k = false) /\
    TipsRAG.vectorise "Go up, the hill!" = [("hill", 1%N); ("go_up", 1%N)].
Proof.
  intros text words.
  assert (Huni : forall w,
    In w (TipsRAG.unigram_features words) <->
    In w words /\ (String.length w > 2)%nat /\ TipsRAG.is_stop w = false).
  { intros w. unfold TipsRAG.unigram_features, TipsRAG.is_unigram.
    rewrite filter_In, andb_true_iff, Nat.ltb_lt, negb_true_iff. tauto. }
  assert (Hhas : forall k,
    JSMap.has k (TipsRAG.vectorise text) = true <->
    In k (TipsRAG.unigram_features words) \/
    In k (TipsRAG.bigram_features words)).
  { intros k. rewrite vectorise_bump_all, has_bump_all, in_app_iff.
    fold words. unfold JSMap.has. simpl. split; [intros [H|H] | auto].
    - exact H.
    - discriminate. }
  split; [|split; [exact Huni | split; [apply bigram_features_In | split;
          [exact Hhas | split; [|reflexivity]]]]].
  - intros k. rewrite vectorise_bump_all, count_bump_all, count_occ_app.
    fold words. unfold TipsRAG.count. simpl. lia.
  - intros k Hk. apply Hhas in Hk. destruct Hk as [Hk|Hk].
    + apply Huni in Hk. tauto.
    + apply bigram_features_In in Hk.
      destruct Hk as (before & w1 & w2 & after & E & H1 & H2 & ->).
      assert (In w1 words) by (rewrite E; apply in_or_app; right; now left).
      assert (In w2 words)
        by (rewrite E; apply in_or_app; right; right; now left).
      split.
      * rewrite !length_append. simpl.
        pose proof (tokens_nonempty text w1 H).
        pose proof (tokens_nonempty text w2 H0). lia.
      * destruct (TipsRAG.is_stop (w1 ++ "_" ++ w2)) eqn:Hs; [|reflexivity].
        apply stop_word_no_underscore in Hs.
        rewrite !has_char_append in Hs. simpl in Hs.
        rewrite orb_true_r in Hs. discriminate.
Qed.

Lemma vectorise_features_witness :
  (String.length "go_up" > 2)%nat /\ TipsRAG.is_stop "go_up" = false.
Proof.
  destruct (vectorise_features "Go up, the hill!") as (_ & _ & _ & _ & H & _).
  apply (H "go_up"). reflexivity.
Defined.

(** ** The list pattern of the router *)

Lemma includes_spec :
  forall s p, JS.includes s p = true <-> exists a b, s = a ++ p ++ b.
Proof.
  induction s as [|c s IH]; intros p.
  - change (JS.includes "" p) with (String.prefix p "" || false).
    rewrite orb_false_r, prefix_app. split.
    + intros [r H]. exists "", r. exact H.
    + intros (a & b & H). destruct a; [|discriminate]. now exists b.
  - change (JS.includes (String c s) p)
      with (String.prefix p (String c s) || JS.includes s p).
    rewrite orb_true_iff, prefix_app, IH. split.
    + intros [[r H] | (a & b & H)].
      * exists "", r. exact H.
      * exists (String c a), b. simpl. now rewrite H.
    + intros (a & b & H). destruct a as [|d a].
      * left. now exists b.
      * right. simpl in H. injection H as _ H. now exists a, b.
Qed.

Section ListPattern.
Import DeterministicBrain.

Lemma toLowerCase_append :
  forall a b, JS.toLowerCase (a ++ b) = JS.toLowerCase a ++ JS.toLowerCase b.
Proof. induction a as [|c a IH]; intros b; simpl; [|rewrite IH]; reflexivity. Qed.

Lemma toLowerCase_split :
  forall k s r,
    JS.toLowerCase s = k ++ r ->
    exists w post,
      s = w ++ post /\ JS.toLowerCase w = k /\ JS.toLowerCase post = r.
Proof.
  induction k as [|c k IH]; intros s r H.
  - exists "", s. auto.
  - destruct s as [|d s]; [discriminate|].
    simpl in H. injection H as Hc H.
    destruct (IH _ _ H) as (w & post & -> & Hw & Hpost).
    exists (String d w), post. simpl. rewrite Hc, Hw. auto.
Qed.

Lemma lower_char_word :
  forall c, JS.is_lower (JS.lower_char c) = true -> JS.is_word c = true.
Proof.
  intros [b0 b1 b2 b3 b4 b5 b6 b7].
  destruct b0, b1, b2, b3, b4, b5, b6, b7; intros H;
    try discriminate H; reflexivity.
Qed.

Lemma toLowerCase_word :
  forall w,
    all_chars JS.is_lower (JS.toLowerCase w) = true ->
    all_chars JS.is_word w = true.
Proof.
  induction w as [|c w IH]; simpl; [reflexivity|].
  rewrite !andb_true_iff. intros [Hc Hw]. split; [now apply lower_char_word | auto].
Qed.

Lemma keywords_lower :
  forall k, In k keywords -> all_chars JS.is_lower k = true /\ k <> "".
Proof.
  intros k H. simpl in H.
  destruct H as [<- | [<- | [<- | [<- | []]]]]; split;
    (reflexivity || discriminate).
Qed.

Lemma head_word :
  forall w post,
    all_chars JS.is_word w = true -> w <> "" ->
    is_word_at (head (w ++ post)) = true.
Proof.
  intros [|c w] post H Hne; [congruence|].
  simpl in *. now apply andb_true_iff in H.
Qed.

Lemma char_before_word :
  forall w post,
    all_chars JS.is_word w = true -> w <> "" ->
    is_word_at (char_before (String.length w) (w ++ post)) = true.
Proof.
  unfold char_before.
  induction w as [|c w IH]; intros post H Hne; [congruence|].
  simpl in H. apply andb_true_iff in H. destruct H as [Hc Hw].
  destruct w as [|d w].
  - simpl. exact Hc.
  - specialize (IH post Hw). simpl in *. rewrite Nat.sub_0_r in IH.
    apply IH. discriminate.
Qed.

Lemma length_toLowerCase :
  forall s, String.length (JS.toLowerCase s) = String.length s.
Proof. induction s; simpl; auto. Qed.

Lemma match_here_spec :
  forall before s,
    match_here before s = true <->
    exists w after,
      s = w ++ after /\ In (JS.toLowerCase w) keywords /\
      is_word_at before = false /\ is_word_at (head after) = false.
Proof.
  intros before s. unfold match_here.
  rewrite andb_true_iff, existsb_exists. split.
  - intros [Hb (k & Hk & Hm)].
    apply andb_true_iff in Hm. destruct Hm as [Hp Ha].
    apply prefix_app in Hp. destruct Hp as [r Hr].
    destruct (toLowerCase_split _ _ _ Hr) as (w & after & -> & Hw & _).
    destruct (keywords_lower k Hk) as [Hlow Hne].
    assert (Hword : all_chars JS.is_word w = true)
      by (apply toLowerCase_word; now rewrite Hw).
    assert (Hwne : w <> "") by (intros ->; simpl in Hw; congruence).
    assert (Hlen : String.length k = String.length w)
      by (now rewrite <- Hw, length_toLowerCase).
    rewrite Hlen, substring_from_app in Ha.
    unfold word_boundary in *.
    rewrite (head_word w after Hword Hwne) in Hb.
    rewrite (char_before_word w after Hword Hwne) in Ha.
    exists w, after. rewrite Hw.
    repeat split; [assumption | |].
    + now destruct (is_word_at before).
    + now destruct (is_word_at (head after)).
  - intros (w & after & -> & Hk & Hb & Ha).
    destruct (keywords_lower _ Hk) as [Hlow Hne].
    assert (Hword : all_chars JS.is_word w = true)
      by now apply toLowerCase_word.
    assert (Hwne : w <> "") by (intros ->; simpl in Hne; congruence).
    unfold word_boundary.
    rewrite (head_word w after Hword Hwne), Hb. split; [reflexivity|].
    exists (JS.toLowerCase w). split; [assumption|].
    rewrite length_toLowerCase, substring_from_app.
    rewrite (char_before_word w after Hword Hwne), Ha.
    rewrite andb_true_r. apply prefix_app.
    exists (JS.toLowerCase after). apply toLowerCase_append.
Qed.

Lemma test_from_spec :
  forall s before,
    test_from before s = true <->
    exists pre w after,
      s = pre ++ w ++ after /\ In (JS.toLowerCase w) keywords /\
      is_word_at (last_char before pre) = false /\
      is_word_at (head after) = false.
Proof.
  induction s as [|c s IH]; intros before.
  - simpl. rewrite orb_false_r, match_here_spec. split.
    + intros (w & after & H). exists "", w, after. exact H.
    + intros (pre & w & after & H & Hrest).
      destruct pre; [|discriminate]. exists w, after. auto.
  - change (test_from before (String c s))
      with (match_here before (String c s) || test_from (Some c) s).
    rewrite orb_true_iff, match_here_spec, IH. split.
    + intros [(w & after & H) | (pre & w & after & -> & H)].
      * exists "", w, after. exact H.
      * exists (String c pre), w, after. auto.
    + intros (pre & w & after & H & Hrest). destruct pre as [|d pre].
      * left. exists w, after. auto.
      * right. simpl in H. injection H as <- ->. exists pre, w, after. auto.
Qed.

Lemma listPattern_test_spec :
  forall s, listPattern_test s = true <-> matches_listPattern s.
Proof. intros s. apply test_from_spec. Qed.

End ListPattern.

(** C7: for a prompt that rule 1 or rule 2 routes to engagement_pulse, the
    decision is [USE:engagement_pulse:<mode>], and the mode is "list" if
    and only if the prompt matches [\b(which|who|list|show)\b] without
    regard to case, "summary" otherwise. *)
Theorem decide_mode :
  forall prompt,
    DeterministicBrain.rule1 (JS.toLowerCase prompt) = true \/
    DeterministicBrain.rule2 (JS.toLowerCase prompt) = true ->
    exists mode,
      DeterministicBrain.decide prompt =
      {| DeterministicBrain.action := "USE:engagement_pulse:" ++ mode;
         DeterministicBrain.mode := Some mode;
         DeterministicBrain.prompt := Some prompt |} /\
      (mode = "list" <-> DeterministicBrain.matches_listPattern prompt) /\
      (mode = "summary" <-> ~ DeterministicBrain.matches_listPattern prompt).
Proof.
  intros prompt Hrule.
  exists (if DeterministicBrain.listPattern_test prompt then "list" else "summary").
  split.
  - unfold DeterministicBrain.decide, DeterministicBrain.rule1,
      DeterministicBrain.rule2 in *.
    destruct (JS.includes (JS.toLowerCase prompt) "engagement"
              || JS.includes (JS.toLowerCase prompt) "pulse"
              || JS.includes (JS.toLowerCase prompt) "checkin"); [reflexivity|].
    destruct Hrule as [Hrule | Hrule]; [discriminate|].
    apply andb_true_iff in Hrule. destruct Hrule as [H2 Htip].
    rewrite H2. apply negb_true_iff in Htip. rewrite Htip. reflexivity.
  - rewrite <- listPattern_test_spec.
    destruct (DeterministicBrain.listPattern_test prompt); split; split;
      intros H; try reflexivity; try discriminate; congruence.
Qed.

Lemma decide_mode_witness :
  exists mode,
    DeterministicBrain.decide "Which mentees look dormant?" =
    {| DeterministicBrain.action := "USE:engagement_pulse:" ++ mode;
       DeterministicBrain.mode := Some mode;
       DeterministicBrain.prompt := Some "Which mentees look dormant?" |} /\
    (mode = "list" <->
     DeterministicBrain.matches_listPattern "Which mentees look dormant?") /\
    (mode = "summary" <->
     ~ DeterministicBrain.matches_listPattern "Which mentees look dormant?").
Proof.
  apply (decide_mode "Which mentees look dormant?").
  right. vm_compute. reflexivity.
Defined.

(** ** Signs of binary64 results *)

Section Signs.

Lemma binary_round_aux_sign :
  forall p e sx mx ex lx, Num.has_sign sx (binary_round_aux p e sx mx ex lx).
Proof.
  intros p e sx mx ex lx. unfold binary_round_aux.
  destruct (shr_fexp p e mx ex lx) as [mrs' e'].
  destruct (shr_fexp p e _ e' loc_Exact) as [mrs'' e''].
  destruct (shr_m mrs''); simpl; auto.
  destruct (e'' <=? e - p)%Z; simpl; auto.
Qed.

Lemma binary_round_sign :
  forall p e sx mx ex, Num.has_sign sx (binary_round p e sx mx ex).
Proof.
  intros p e sx mx ex. unfold binary_round.
  destruct (shl_align _ _ _) as [mz ez]. apply binary_round_aux_sign.
Qed.

Lemma negative_not_positive :
  forall r, Num.has_sign true r -> Num.positive r = false.
Proof. intros [s| s| |s m e]; simpl; intros H; subst; reflexivity. Qed.


(** [b - a > 0] excludes [a - b > 0]. *)
Lemma sub_positive_asym :
  forall a b,
    Num.positive (Num.sub b a) = true -> Num.positive (Num.sub a b) = false.
Proof.
  intros a b. unfold Num.sub.
  destruct a as [sa|sa| |sa ma ea], b as [sb|sb| |sb mb eb];
    try (destruct sa, sb; cbv; congruence);
    try (destruct sa; cbv; congruence);
    try (destruct sb; cbv; congruence);
    try (cbv; congruence).
  unfold SFsub. rewrite (Z.min_comm ea eb).
  set (ez := Z.min eb ea).
  set (xa := cond_Zopp sa (Z.pos (fst (shl_align ma ea ez)))).
  set (xb := cond_Zopp sb (Z.pos (fst (shl_align mb eb ez)))).
  destruct (xb - xa)%Z as [|d|d] eqn:Hd.
  - simpl. discriminate.
  - intros _. replace (xa - xb)%Z with (Z.neg d) by lia. simpl.
    apply negative_not_positive, binary_round_sign.
  - simpl. intros H.
    rewrite (negative_not_positive _ (binary_round_sign _ _ true d ez)) in H.
    discriminate.
Qed.

Lemma sub_self_not_positive :
  forall a, Num.positive (Num.sub a a) = false.
Proof.
  intros a. destruct (Num.positive (Num.sub a a)) eqn:H; [|reflexivity].
  now rewrite (sub_positive_asym a a H) in H.
Qed.

End Signs.

(** ** Sorting *)

Section SortFacts.
Context {A : Type} (after : A -> A -> bool).
Hypothesis after_asym : forall x y, after x y = true -> after y x = false.

(** [x] may stand before [y]: the comparator does not ask for [y] first. *)
Let in_order (x y : A) : Prop := after x y = false.

Lemma sort_insert_perm :
  forall x l, Permutation (sort_insert after x l) (x :: l).
Proof.
  induction l as [|y l IH]; simpl.
  - apply Permutation_refl.
  - destruct (after x y).
    + eapply Permutation_trans; [apply perm_skip, IH | apply perm_swap].
    + apply Permutation_refl.
Qed.

Lemma Array_sort_perm : forall l, Permutation (Array_sort after l) l.
Proof.
  induction l as [|x l IH]; simpl.
  - apply Permutation_refl.
  - eapply Permutation_trans; [apply sort_insert_perm | now apply perm_skip].
Qed.

Lemma sort_insert_sorted :
  forall x l, Sorted in_order l -> Sorted in_order (sort_insert after x l).
Proof.
  induction l as [|y l IH]; intros Hs; simpl.
  - repeat constructor.
  - destruct (after x y) eqn:Hxy.
    + inversion Hs as [|? ? Hl Hhd]; subst.
      constructor; [now apply IH|].
      destruct l as [|z l]; simpl.
      * constructor. now apply after_asym.
      * destruct (after x z).
        -- inversion Hhd; subst. now constructor.
        -- constructor. now apply after_asym.
    + constructor; [assumption | now constructor].
Qed.

Lemma Array_sort_sorted : forall l, Sorted in_order (Array_sort after l).
Proof.
  induction l as [|x l IH]; simpl.
  - constructor.
  - now apply sort_insert_sorted.
Qed.

(** Stability: the elements of a class that the comparator does not
    separate keep their order. *)
Variable same : A -> bool.
Hypothesis same_unordered :
  forall x y, same x = true -> same y = true -> after x y = false.

Lemma sort_insert_filter :
  forall x l, filter same (sort_insert after x l) = filter same (x :: l).
Proof.
  induction l as [|y l IH]; simpl.
  - reflexivity.
  - destruct (after x y) eqn:Hxy; [|reflexivity].
    simpl. rewrite IH. simpl.
    destruct (same x) eqn:Hx, (same y) eqn:Hy; try reflexivity.
    rewrite (same_unordered x y Hx Hy) in Hxy. discriminate.
Qed.

Lemma Array_sort_filter :
  forall l, filter same (Array_sort after l) = filter same l.
Proof.
  induction l as [|x l IH]; simpl.
  - reflexivity.
  - rewrite sort_insert_filter. simpl. now rewrite IH.
Qed.

End SortFacts.

(** ** Ranking *)

Lemma slice0_firstn :
  forall {A} (l : list A) k, (0 <= k)%Z -> JS.slice0 l k = firstn (Z.to_nat k) l.
Proof.
  intros A l k Hk. unfold JS.slice0.
  destruct (Z.ltb_spec k 0); [lia | reflexivity].
Qed.

Lemma Sorted_firstn :
  forall {A} (R : A -> A -> Prop) n l, Sorted R l -> Sorted R (firstn n l).
Proof.
  intros A R. induction n as [|n IH]; intros l Hs.
  - simpl. constructor.
  - destruct l as [|x l]; simpl; [constructor|].
    inversion Hs as [|? ? Hl Hhd]; subst.
    constructor; [now apply IH|].
    destruct n; simpl; [constructor|].
    destruct l; [constructor|]. inversion Hhd; subst. now constructor.
Qed.

Lemma findSimilar_sorted_scores :
  forall query documents,
    let ranked :=
      Array_sort (fun a b => Num.positive (TipsRAG.compareFn a b))
                 (TipsRAG.score_all query documents) in
    Permutation ranked (TipsRAG.score_all query documents) /\
    Sorted TipsRAG.not_increasing ranked /\
    forall s,
      filter (TipsRAG.has_score s) ranked =
      filter (TipsRAG.has_score s) (TipsRAG.score_all query documents).
Proof.
  intros query documents ranked. split; [|split].
  - apply Array_sort_perm.
  - apply (Array_sort_sorted (fun a b => Num.positive (TipsRAG.compareFn a b))).
    intros x y. apply sub_positive_asym.
  - intros s. apply Array_sort_filter.
    intros x y Hx Hy. unfold TipsRAG.has_score, Num.eqb in Hx, Hy.
    destruct (Num.eq_dec (TipsRAG.score x) s) as [Ex|]; [|discriminate].
    destruct (Num.eq_dec (TipsRAG.score y) s) as [Ey|]; [|discriminate].
    unfold TipsRAG.compareFn. rewrite Ex, Ey. apply sub_self_not_positive.
Qed.

(** C5: for every query, document list and count [k], [findSimilar]
    returns at most [k] items, all of them scored documents of the corpus;
    along the output no score is followed by a greater one; and the items
    of one score come in corpus order, as a front part of the corpus items
    with that score. *)
Theorem findSimilar_ranking :
  forall query documents (k : nat),
    let out := TipsRAG.findSimilar query documents (Z.of_nat k) in
    (List.length out <= k)%nat /\
    (exists rest,
        Permutation (out ++ rest) (TipsRAG.score_all query documents)) /\
    Sorted TipsRAG.not_increasing out /\
    (forall s, exists rest,
        filter (TipsRAG.has_score s) (TipsRAG.score_all query documents) =
        (filter (TipsRAG.has_score s) out ++ rest)%list).
Proof.
  intros query documents k out.
  destruct (findSimilar_sorted_scores query documents) as (Hperm & Hsorted & Hstable).
  unfold out, TipsRAG.findSimilar. rewrite slice0_firstn by lia.
  rewrite Nat2Z.id.
  set (ranked := Array_sort _ _) in *.
  split; [|split; [|split]].
  - rewrite length_firstn. lia.
  - exists (skipn k ranked). now rewrite firstn_skipn.
  - now apply Sorted_firstn.
  - intros s. exists (filter (TipsRAG.has_score s) (skipn k ranked)).
    rewrite <- Hstable, <- filter_app, firstn_skipn. reflexivity.
Qed.

(** The ranking of the sample tips for a query: the two best of three. *)
Example findSimilar_sample :
  map (fun r => (TipsRAG.id r, Num.show (Num.round2 (TipsRAG.score r))))
      (TipsRAG.findSimilar "tips for dormant mentees"
         (map MentorTips.to_document Sample.tips) 2)
  = [ ("t1", "0.45"); ("t4", "0") ].
Proof. vm_compute. reflexivity. Qed.

(** [topK] is a count; for a negative number [slice] would count from the
    end of the ranking. *)
Remark findSimilar_negative_topK :
  List.length (TipsRAG.findSimilar "tips for dormant mentees"
                 (map MentorTips.to_document Sample.tips) (-1)) = 2%nat.
Proof. vm_compute. reflexivity. Qed.

(** ** Tip retrieval *)

Lemma In_firstn :
  forall {A} n (l : list A) x, In x (firstn n l) -> In x l.
Proof.
  intros A. induction n as [|n IH]; intros [|y l] x; simpl; try tauto.
  intros [H|H]; auto.
Qed.

Lemma findSimilar_from_corpus :
  forall query documents topK r,
    (0 <= topK)%Z ->
    In r (TipsRAG.findSimilar query documents topK) ->
    exists doc, In doc documents /\ TipsRAG.id r = TipsRAG.doc_id doc.
Proof.
  intros query documents topK r Hk Hin.
  unfold TipsRAG.findSimilar in Hin. rewrite slice0_firstn in Hin by assumption.
  apply In_firstn in Hin.
  destruct (findSimilar_sorted_scores query documents) as (Hperm & _).
  apply (Permutation_in _ Hperm) in Hin.
  unfold TipsRAG.score_all in Hin. apply in_map_iff in Hin.
  destruct Hin as (doc & <- & Hdoc). exists doc. auto.
Qed.

Lemma findSimilar_length :
  forall query documents topK,
    (0 <= topK)%Z ->
    List.length (TipsRAG.findSimilar query documents topK) =
    Nat.min (Z.to_nat topK) (List.length documents).
Proof.
  intros query documents topK Hk.
  unfold TipsRAG.findSimilar. rewrite slice0_firstn by assumption.
  rewrite length_firstn.
  destruct (findSimilar_sorted_scores query documents) as (Hperm & _).
  rewrite (Permutation_length Hperm).
  unfold TipsRAG.score_all. now rewrite length_map.
Qed.

Lemma map_exn_to_hit :
  forall tips results,
    (forall r, In r results -> exists t, In t tips /\ TipsRAG.id r = tip_id t) ->
    exists hits,
      map_exn (MentorTips.to_hit tips) results = Return hits /\
      map MentorTips.id hits = map TipsRAG.id results /\
      map MentorTips.score hits =
      map (fun r => Num.round2 (TipsRAG.score r)) results.
Proof.
  intros tips. induction results as [|r results IH]; intros Hids.
  - exists []. auto.
  - destruct IH as (hits & Hmap & Hid & Hscore).
    { intros r' Hr'. apply Hids. now right. }
    destruct (Hids r (or_introl eq_refl)) as (t & Ht & Hrt).
    simpl. unfold MentorTips.to_hit at 1.
    destruct (List.find (fun t0 => String.eqb (tip_id t0) (TipsRAG.id r)) tips)
      as [tip|] eqn:Hfind.
    + simpl. rewrite Hmap. simpl. eexists. split; [reflexivity|].
      simpl. rewrite Hid, Hscore. auto.
    + exfalso. apply (find_none _ _ Hfind) in Ht.
      rewrite Hrt, String.eqb_refl in Ht. discriminate.
Qed.

(** With tips loaded and a query that shares no feature with any of them,
    [retrieve] still returns two hits, both of score zero. *)
Lemma retrieve_zero_score_hits :
  MentorTips.retrieve Sample.dataset "xyzzy" =
  MentorTips.TipsResult
    [ {| MentorTips.id := "t1"; MentorTips.score := Num.zero;
         MentorTips.text := "Reach out to dormant mentees with a short note";
         MentorTips.tags := ["dormant"; "mentee"] |};
      {| MentorTips.id := "t4"; MentorTips.score := Num.zero;
         MentorTips.text :=
           "Balance one-sided conversations by asking open-ended questions";
         MentorTips.tags := ["one"; "sided"] |} ] /\
  forallb (fun r => negb (Num.positive (TipsRAG.score r)))
          (TipsRAG.score_all "xyzzy" (map MentorTips.to_document Sample.tips))
  = true.
Proof. vm_compute. split; reflexivity. Qed.

(** C2, amended: [retrieve] returns an error result exactly when loading
    the tips fails; an empty corpus gives "tips" with no hits; a corpus of
    n tips gives "tips" with min(2, n) hits, the front of the ranking,
    whatever the scores are (hits of score zero included). *)
Theorem retrieve_results :
  forall data query,
    (forall message,
        tips_json data = Thrown message ->
        MentorTips.retrieve data query =
        MentorTips.ErrorResult message
          "Check that tips.json exists and is properly formatted") /\
    (tips_json data = Loaded [] ->
     MentorTips.retrieve data query = MentorTips.TipsResult []) /\
    (forall tips,
        tips_json data = Loaded tips ->
        exists hits,
          MentorTips.retrieve data query = MentorTips.TipsResult hits /\
          List.length hits = Nat.min 2 (List.length tips) /\
          let ranking :=
            TipsRAG.findSimilar query (map MentorTips.to_document tips) 2 in
          map MentorTips.id hits = map TipsRAG.id ranking /\
          map MentorTips.score hits =
          map (fun r => Num.round2 (TipsRAG.score r)) ranking).
Proof.
  intros data query. split; [|split].
  - intros message H. unfold MentorTips.retrieve, MentorTips.retrieve_body.
    rewrite H. reflexivity.
  - intros H. unfold MentorTips.retrieve, MentorTips.retrieve_body.
    rewrite H. reflexivity.
  - intros tips H. unfold MentorTips.retrieve, MentorTips.retrieve_body.
    rewrite H. simpl.
    set (ranking := TipsRAG.findSimilar query (map MentorTips.to_document tips) 2).
    assert (Hlen : List.length ranking = Nat.min 2 (List.length tips)).
    { unfold ranking. rewrite findSimilar_length by lia.
      now rewrite length_map. }
    destruct (map_exn_to_hit tips ranking) as (hits & Hmap & Hid & Hscore).
    { intros r Hr. apply findSimilar_from_corpus in Hr; [|lia].
      destruct Hr as (doc & Hdoc & Hid). apply in_map_iff in Hdoc.
      destruct Hdoc as (t & <- & Ht). exists t. auto. }
    assert (Hhits : List.length hits = List.length ranking).
    { rewrite <- (length_map MentorTips.id hits), Hid. apply length_map. }
    exists hits. split; [|split; [now rewrite Hhits | split; assumption]].
    destruct ranking as [|r ranking'].
    + simpl in Hmap. injection Hmap as <-. reflexivity.
    + rewrite Hmap. reflexivity.
Qed.

Lemma retrieve_results_witness :
  exists hits,
    MentorTips.retrieve Sample.dataset "tips for dormant mentees" =
    MentorTips.TipsResult hits /\
    List.length hits = 2%nat.
Proof.
  destruct (retrieve_results Sample.dataset "tips for dormant mentees")
    as (_ & _ & H).
  destruct (H Sample.tips eq_refl) as (hits & Hr & Hlen & _).
  exists hits. split; [exact Hr | exact Hlen].
Defined.

(** ** Cosine similarity *)

Section SetOf.





End SetOf.

Section Cosine.
Import TipsRAG.









Lemma dot_product_self : forall v, dot_product v v = magnitude_sq v.
Proof. reflexivity. Qed.



End Cosine.

Section Binary64.







End Binary64.





(** ** The reflection of the agent loop *)


Lemma reflect_on_type_cases :
  forall b,
    Cli.reflect_on_type b = (if b then "needs improvement" else "looks ok").
Proof. reflexivity. Qed.



(** [run] reports the number of dormant pairs in both modes. *)
Lemma run_counts_dormant_pairs :
  forall data now options checkins messages users pairings,
    checkins_csv data = Loaded checkins ->
    messages_csv data = Loaded messages ->
    users_csv data = Loaded users ->
    pairings_csv data = Loaded pairings ->
    let n := List.length (EngagementPulse.dormant_pairs now checkins messages) in
    match EngagementPulse.run data now options with
    | EngagementPulse.SummaryResult _ dormant _ _ => dormant = n
    | EngagementPulse.ListResult dormant_count _ => dormant_count = n
    | EngagementPulse.ErrorResult _ _ => False
    end.
Proof.
  intros data now options checkins messages users pairings Hc Hm Hu Hp n.
  unfold EngagementPulse.run, EngagementPulse.run_body.
  rewrite Hc, Hm, Hu, Hp. simpl.
  unfold n, EngagementPulse.dormant_pairs. rewrite length_map.
  destruct (String.eqb _ "list"); reflexivity.
Qed.

(** ** The loop on the sample data *)

Example main_echo :
  Cli.main (Sample.invocation "echo hello mentorloop" None false) =
  {| Cli.thought :=
       "Processing: " ++ ComposeNudge.quote ++ "echo hello mentorloop" ++
       ComposeNudge.quote;
     Cli.result_action := "USE:echo";
     Cli.observation := Cli.Text "Echo: echo hello mentorloop";
     Cli.reflection := "looks ok" |}.
Proof. reflexivity. Qed.

Example main_engagement_summary :
  Cli.observation
    (Cli.main (Sample.invocation "check engagement pulse" None false)) =
  Cli.Engagement (EngagementPulse.SummaryResult 3 2 "balanced" 27).
Proof. vm_compute. reflexivity. Qed.

Example main_dormant_list :
  Cli.observation
    (Cli.main (Sample.invocation "which mentees look dormant" None false)) =
  Cli.Engagement
    (EngagementPulse.ListResult 2
       [ {| EngagementPulse.m_mentee_id := "u004";
            EngagementPulse.m_first_name := "Emily";
            EngagementPulse.m_pair_id := "p002";
            EngagementPulse.m_last_checkin_days := 27 |};
         {| EngagementPulse.m_mentee_id := "unknown";
            EngagementPulse.m_first_name := "Unknown";
            EngagementPulse.m_pair_id := "p003";
            EngagementPulse.m_last_checkin_days := 15 |} ]).
Proof. vm_compute. reflexivity. Qed.

Example main_tips_scores :
  match Cli.observation
          (Cli.main (Sample.invocation "tips for one sided conversations"
                                       None false)) with
  | Cli.Tips (MentorTips.TipsResult hits) =>
      map (fun h => (MentorTips.id h, Num.show (MentorTips.score h))) hits
  | _ => []
  end = [ ("t4", "0.58"); ("t1", "0") ].
Proof. vm_compute. reflexivity. Qed.

(** Neighbours are taken in the unfiltered token list: the stop word
    between "cat" and "dog" prevents the bigram "cat_dog". *)
Example vectorise_stop_word_between :
  TipsRAG.vectorise "cat the dog" = [("cat", 1%N); ("dog", 1%N)].
Proof. vm_compute. reflexivity. Qed.

(** * Further properties of the tools *)

(** ** Engagement analytics: failing loads *)

(** [run] returns an error result exactly when one of its four loads
    throws; the message is the one of the first load that throws, in the
    order check-ins, messages, users, pairings, and the hint is fixed. *)
Theorem run_error_first_failing_load :
  forall data now options,
    (forall message,
        EngagementPulse.first_thrown (EngagementPulse.loads data) = Some message ->
        EngagementPulse.run data now options =
        EngagementPulse.ErrorResult message
          "Check that data files exist and are properly formatted") /\
    (EngagementPulse.first_thrown (EngagementPulse.loads data) = None ->
     forall message hint,
       EngagementPulse.run data now options <>
       EngagementPulse.ErrorResult message hint).
Proof.
  intros data now options.
  unfold EngagementPulse.loads, EngagementPulse.run, EngagementPulse.run_body.
  destruct (checkins_csv data) as [m1|checkins]; simpl.
  { split; [intros message [= <-]; reflexivity | discriminate]. }
  destruct (messages_csv data) as [m2|messages]; simpl.
  { split; [intros message [= <-]; reflexivity | discriminate]. }
  destruct (users_csv data) as [m3|users]; simpl.
  { split; [intros message [= <-]; reflexivity | discriminate]. }
  destruct (pairings_csv data) as [m4|pairings]; simpl.
  { split; [intros message [= <-]; reflexivity | discriminate]. }
  split; [discriminate|].
  intros _ message hint.
  destruct (String.eqb _ "list"); discriminate.
Qed.

Lemma run_error_first_failing_load_witness :
  EngagementPulse.run
    {| checkins_csv := Loaded Sample.checkins;
       messages_csv := Thrown "ENOENT: no such file or directory, open 'messages.csv'";
       users_csv := Thrown "ENOENT: no such file or directory, open 'users.csv'";
       pairings_csv := Loaded Sample.pairings;
       programmes_json := Loaded Sample.programmes;
       tips_json := Loaded Sample.tips |}
    Sample.now None
  = EngagementPulse.ErrorResult
      "ENOENT: no such file or directory, open 'messages.csv'"
      "Check that data files exist and are properly formatted".
Proof.
  apply run_error_first_failing_load. reflexivity.
Defined.

(** ** Engagement analytics: the statistics of a pair *)

Section PairStats.
Import EngagementPulse.

Lemma has_mem_keys :
  forall {V} (m : JSMap.t V) k, JSMap.has k m = mem k (JSMap.keys m).
Proof.
  intros V m k. unfold JSMap.has.
  induction m as [|[k0 v0] m IH]; simpl; [reflexivity|].
  destruct (String.eqb k k0); [reflexivity | exact IH].
Qed.

Lemma messages_of_app :
  forall pid l1 l2,
    messages_of pid (l1 ++ l2) = (messages_of pid l1 ++ messages_of pid l2)%list.
Proof. intros. unfold messages_of. apply filter_app. Qed.

Let group_step (pairMessages : JSMap.t (list Message)) (msg : Message) :=
  let pm := if JSMap.has (msg_pair_id msg) pairMessages then pairMessages
            else JSMap.set (msg_pair_id msg) [] pairMessages in
  match JSMap.get (msg_pair_id msg) pm with
  | Some msgs => JSMap.set (msg_pair_id msg) (msgs ++ [msg])%list pm
  | None => pm
  end.

Let grouped (seen : list Message) (pid : string) : option (list Message) :=
  match messages_of pid seen with
  | [] => None
  | msgs => Some msgs
  end.

Lemma group_messages_fold :
  forall messages seen (pairMessages : JSMap.t (list Message)),
    NoDup (JSMap.keys pairMessages) ->
    (forall pid, JSMap.get pid pairMessages = grouped seen pid) ->
    NoDup (JSMap.keys (fold_left group_step messages pairMessages)) /\
    forall pid,
      JSMap.get pid (fold_left group_step messages pairMessages) =
      grouped (seen ++ messages) pid.
Proof.
  induction messages as [|msg messages IH]; intros seen pairMessages Hnd Hget.
  - simpl. rewrite app_nil_r. auto.
  - simpl.
    replace (seen ++ msg :: messages)%list with ((seen ++ [msg]) ++ messages)%list
      by (rewrite <- app_assoc; reflexivity).
    apply IH; clear IH.
    + unfold group_step.
      destruct (JSMap.has (msg_pair_id msg) pairMessages).
      * destruct (JSMap.get (msg_pair_id msg) pairMessages);
          [apply NoDup_keys_set|]; assumption.
      * rewrite get_set_same. now repeat apply NoDup_keys_set.
    + intros pid. unfold group_step, grouped, JSMap.has.
      rewrite messages_of_app. specialize (Hget (msg_pair_id msg)) as Hk.
      unfold grouped in Hk.
      destruct (String.eqb_spec (msg_pair_id msg) pid) as [<-|Hne].
      * unfold messages_of at 2. simpl. rewrite String.eqb_refl.
        rewrite Hk.
        destruct (messages_of (msg_pair_id msg) seen) as [|m0 ms].
        -- rewrite get_set_same, get_set_same. reflexivity.
        -- rewrite Hk. rewrite get_set_same. reflexivity.
      * assert (Hother : messages_of pid [msg] = []).
        { unfold messages_of. simpl.
          destruct (String.eqb_spec (msg_pair_id msg) pid); [contradiction | reflexivity]. }
        rewrite Hother, app_nil_r.
        pose proof (Hget pid) as Hpid. unfold grouped in Hpid. rewrite <- Hpid.
        destruct (JSMap.get (msg_pair_id msg) pairMessages) as [l|] eqn:Hg.
        -- rewrite Hg. apply get_set_other. congruence.
        -- rewrite get_set_same. rewrite !get_set_other by congruence. reflexivity.
Qed.

Lemma group_messages_get :
  forall messages pid,
    JSMap.get pid (group_messages messages) =
    match messages_of pid messages with
    | [] => None
    | msgs => Some msgs
    end.
Proof.
  intros messages pid.
  apply (group_messages_fold messages [] JSMap.empty).
  - constructor.
  - reflexivity.
Qed.

Lemma group_messages_NoDup :
  forall messages, NoDup (JSMap.keys (group_messages messages)).
Proof.
  intros messages.
  apply (group_messages_fold messages [] JSMap.empty).
  - constructor.
  - reflexivity.
Qed.

Definition with_balance (b : string) (s : Stats) : Stats :=
  {| lastCheckin := lastCheckin s; balance := b; daysSince := daysSince s |}.

Lemma analyse_balance_get :
  forall pairMessages (pairStats : JSMap.t Stats) pid,
    NoDup (JSMap.keys pairMessages) ->
    JSMap.get pid (analyse_balance pairMessages pairStats) =
    option_map
      (fun s => match JSMap.get pid pairMessages with
                | Some msgs => with_balance (classify msgs) s
                | None => s
                end)
      (JSMap.get pid pairStats).
Proof.
  induction pairMessages as [|[p msgs] rest IH]; intros pairStats pid Hnd.
  - simpl. now destruct (JSMap.get pid pairStats).
  - simpl in Hnd. inversion Hnd as [|? ? Hnotin Hnd']; subst.
    simpl.
    assert (Hp : JSMap.get p rest = None) by now apply get_none_keys.
    destruct (JSMap.get p pairStats) as [s|] eqn:Hs.
    + rewrite IH by assumption. rewrite get_set.
      destruct (String.eqb_spec pid p) as [->|Hne].
      * rewrite Hp, Hs. reflexivity.
      * reflexivity.
    + rewrite IH by assumption.
      destruct (String.eqb_spec pid p) as [->|Hne]; [|reflexivity].
      now rewrite Hs.
Qed.

Lemma analyse_balance_keys :
  forall pairMessages (pairStats : JSMap.t Stats),
    JSMap.keys (analyse_balance pairMessages pairStats) = JSMap.keys pairStats.
Proof.
  induction pairMessages as [|[p msgs] rest IH]; intros pairStats; simpl.
  - reflexivity.
  - destruct (JSMap.get p pairStats) as [s|] eqn:Hs; [|apply IH].
    rewrite IH, keys_set. unfold JSMap.has. now rewrite Hs.
Qed.

Lemma analyse_checkins_keys :
  forall now checkins,
    JSMap.keys (analyse_checkins now checkins) =
    Set_of (map ci_pair_id checkins).
Proof.
  intros now checkins. unfold analyse_checkins, Set_of.
  assert (H : forall (pairStats : JSMap.t Stats),
    JSMap.keys
      (fold_left
         (fun pairStats checkin =>
            let pairId := ci_pair_id checkin in
            let checkinDate := ci_timestamp checkin in
            if negb (JSMap.has pairId pairStats) ||
               match JSMap.get pairId pairStats with
               | Some s => (lastCheckin s <? checkinDate)%Z
               | None => false
               end
            then
              let daysSince := ((now - checkinDate) / ms_per_day)%Z in
              JSMap.set pairId
                {| lastCheckin := checkinDate; balance := "balanced";
                   daysSince := daysSince |} pairStats
            else pairStats)
         checkins pairStats) =
    fold_left (fun seen k => if mem k seen then seen else (seen ++ [k])%list)
              (map ci_pair_id checkins) (JSMap.keys pairStats)).
  { induction checkins as [|c checkins IH]; intros pairStats; simpl.
    - reflexivity.
    - rewrite IH. f_equal.
      rewrite <- has_mem_keys. unfold JSMap.has.
      destruct (JSMap.get (ci_pair_id c) pairStats) as [s|] eqn:Hs; simpl.
      + destruct (lastCheckin s <? ci_timestamp c)%Z; [|reflexivity].
        rewrite keys_set. unfold JSMap.has. now rewrite Hs.
      + rewrite keys_set. unfold JSMap.has. now rewrite Hs. }
  apply (H JSMap.empty).
Qed.

End PairStats.

Lemma pair_stats_lookup :
  forall now checkins messages,
    JSMap.keys (EngagementPulse.pair_stats now checkins messages) =
    Set_of (map ci_pair_id checkins) /\
    forall pid,
      JSMap.get pid (EngagementPulse.pair_stats now checkins messages) =
      option_map
        (fun t =>
           {| EngagementPulse.lastCheckin := t;
              EngagementPulse.balance := EngagementPulse.balance_of pid messages;
              EngagementPulse.daysSince := EngagementPulse.days_since now t |})
        (EngagementPulse.most_recent_checkin pid checkins).
Proof.
  intros now checkins messages. unfold EngagementPulse.pair_stats. split.
  - rewrite analyse_balance_keys. apply analyse_checkins_keys.
  - intros pid.
    rewrite analyse_balance_get by apply group_messages_NoDup.
    rewrite analyse_checkins_get, group_messages_get.
    unfold EngagementPulse.balance_of.
    destruct (EngagementPulse.most_recent_checkin pid checkins) as [t|];
      [|reflexivity].
    simpl. destruct (EngagementPulse.messages_of pid messages); reflexivity.
Qed.

(** The statistics that [run] works with: the pairs are those with a
    check-in, in the order of their first check-in; a pair carries the time
    stamp of its latest check-in, the whole days since then, and the
    balance of its messages ("balanced" when it has none).  A pair that has
    messages but no check-in gets no entry. *)
Theorem pair_stats_entries :
  forall now checkins messages,
    JSMap.keys (EngagementPulse.pair_stats now checkins messages) =
    Set_of (map ci_pair_id checkins) /\
    forall pid,
      JSMap.get pid (EngagementPulse.pair_stats now checkins messages) =
      option_map
        (fun t =>
           {| EngagementPulse.lastCheckin := t;
              EngagementPulse.balance := EngagementPulse.balance_of pid messages;
              EngagementPulse.daysSince := EngagementPulse.days_since now t |})
        (EngagementPulse.most_recent_checkin pid checkins).
Proof.
  intros now checkins messages. unfold EngagementPulse.pair_stats. split.
  - rewrite analyse_balance_keys. apply analyse_checkins_keys.
  - intros pid.
    rewrite analyse_balance_get by apply group_messages_NoDup.
    rewrite analyse_checkins_get, group_messages_get.
    unfold EngagementPulse.balance_of.
    destruct (EngagementPulse.most_recent_checkin pid checkins) as [t|];
      [|reflexivity].
    simpl. destruct (EngagementPulse.messages_of pid messages); reflexivity.
Qed.

(** ** Engagement analytics: the summary and the list *)

Section Reports.
Import EngagementPulse.

Lemma find_dormant_filter :
  forall (pairStats : JSMap.t Stats),
    find_dormant pairStats =
    map (fun '(pairId, stats) =>
           {| pairId := pairId; dp_daysSince := daysSince stats |})
        (filter (fun '(_, stats) => (14 <? daysSince stats)%Z) pairStats).
Proof.
  intros pairStats. unfold find_dormant.
  assert (H : forall acc,
    fold_left
      (fun dormantPairs '(pairId, stats) =>
         if (14 <? daysSince stats)%Z
         then (dormantPairs ++ [{| pairId := pairId;
                                   dp_daysSince := daysSince stats |}])%list
         else dormantPairs)
      pairStats acc =
    (acc ++ map (fun '(pairId, stats) =>
                   {| pairId := pairId; dp_daysSince := daysSince stats |})
                (filter (fun '(_, stats) => (14 <? daysSince stats)%Z) pairStats))%list).
  { induction pairStats as [|[p s] rest IH]; intros acc; simpl.
    - now rewrite app_nil_r.
    - rewrite IH. destruct (14 <? daysSince s)%Z; simpl; [|reflexivity].
      now rewrite <- app_assoc. }
  apply (H []).
Qed.

Lemma find_dormant_days :
  forall (pairStats : JSMap.t Stats) d,
    In d (find_dormant pairStats) -> (dp_daysSince d > 14)%Z.
Proof.
  intros pairStats d H. rewrite find_dormant_filter in H.
  apply in_map_iff in H. destruct H as ([p s] & <- & H).
  apply filter_In in H. destruct H as [_ H]. simpl. apply Z.ltb_lt in H. lia.
Qed.

Lemma max_days_fold :
  forall (pairStats : JSMap.t Stats) acc,
    let r :=
      fold_left
        (fun maxDays '(_, stats) =>
           if (maxDays <? daysSince stats)%Z then daysSince stats else maxDays)
        pairStats acc in
    (acc <= r)%Z /\
    (forall k s, In (k, s) pairStats -> (daysSince s <= r)%Z) /\
    (r = acc \/ exists k s, In (k, s) pairStats /\ r = daysSince s).
Proof.
  induction pairStats as [|[p s] rest IH]; intros acc; simpl.
  - repeat split; [lia | tauto | now left].
  - specialize (IH (if (acc <? daysSince s)%Z then daysSince s else acc)).
    simpl in IH. destruct IH as (Hacc & Hall & Hsome).
    destruct (Z.ltb_spec acc (daysSince s)).
    + split; [lia | split].
      * intros k s' [[= <- <-]|Hin]; [lia | eauto].
      * right. destruct Hsome as [Hr | (k & s' & Hin & Hr)].
        -- exists p, s. split; [now left | exact Hr].
        -- exists k, s'. split; [now right | exact Hr].
    + split; [lia | split].
      * intros k s' [[= <- <-]|Hin]; [lia | eauto].
      * destruct Hsome as [Hr | (k & s' & Hin & Hr)].
        -- now left.
        -- right. exists k, s'. split; [now right | exact Hr].
Qed.

Lemma values_by_key :
  forall {V W} (f : V -> W) (d : W) (m : JSMap.t V),
    NoDup (JSMap.keys m) ->
    map f (JSMap.values m) =
    map (fun k => match JSMap.get k m with Some v => f v | None => d end)
        (JSMap.keys m).
Proof.
  intros V W f d m Hnd. unfold JSMap.values, JSMap.keys. rewrite !map_map.
  apply map_ext_in. intros [k v] Hin.
  apply (In_get m k v Hnd) in Hin. simpl. now rewrite Hin.
Qed.

Lemma Set_of_keys_NoDup :
  forall now checkins messages,
    NoDup (JSMap.keys (pair_stats now checkins messages)).
Proof.
  intros. unfold pair_stats. rewrite analyse_balance_keys.
  apply analyse_checkins_NoDup.
Qed.

Lemma to_mentee_keeps :
  forall users pairings d,
    m_pair_id (to_mentee users pairings d) = pairId d /\
    m_last_checkin_days (to_mentee users pairings d) = dp_daysSince d.
Proof.
  intros users pairings d. unfold to_mentee.
  destruct (find _ pairings); auto.
Qed.

Lemma Sorted_weaken :
  forall {A} (R R' : A -> A -> Prop) l,
    (forall a b, R a b -> R' a b) -> Sorted R l -> Sorted R' l.
Proof.
  intros A R R' l HR Hs. induction Hs as [|a l Hs IH Hhd]; constructor.
  - exact IH.
  - destruct Hhd; constructor. now apply HR.
Qed.

Lemma ranked_dormant_sorted :
  forall now checkins messages,
    Permutation (ranked_dormant now checkins messages)
                (find_dormant (pair_stats now checkins messages)) /\
    StronglySorted (fun a b => (dp_daysSince a >= dp_daysSince b)%Z)
                   (ranked_dormant now checkins messages).
Proof.
  intros now checkins messages. unfold ranked_dormant. split.
  - apply Array_sort_perm.
  - apply Sorted_StronglySorted.
    + intros a b c Hab Hbc. cbv beta in *. lia.
    + eapply Sorted_weaken;
        [|apply (Array_sort_sorted
                   (fun a b => (0 <? dp_daysSince b - dp_daysSince a)%Z));
          intros x y Hxy; apply Z.ltb_lt in Hxy; apply Z.ltb_ge; lia].
      intros a b Hab. cbv beta in Hab. apply Z.ltb_ge in Hab. lia.
Qed.

End Reports.

(** In summary mode, with the four files loaded: [sample] is the number of
    distinct pairs that have a check-in (messages do not count), [dormant]
    never exceeds it, [balance] is the majority over the balances of these
    pairs, and [last_checkin_days] is the largest number of whole days
    since a latest check-in, but never below 0. *)
Theorem run_summary_report :
  forall data now options checkins messages users pairings,
    checkins_csv data = Loaded checkins ->
    messages_csv data = Loaded messages ->
    users_csv data = Loaded users ->
    pairings_csv data = Loaded pairings ->
    EngagementPulse.mode_of options <> "list" ->
    let pairs := Set_of (map ci_pair_id checkins) in
    let last :=
      EngagementPulse.max_days
        (EngagementPulse.pair_stats now checkins messages) in
      EngagementPulse.run data now options =
      EngagementPulse.SummaryResult
        (List.length pairs)
        (List.length (EngagementPulse.dormant_pairs now checkins messages))
        (EngagementPulse.overall_balance
           (map (fun pid => EngagementPulse.balance_of pid messages) pairs))
        last /\
      (List.length (EngagementPulse.dormant_pairs now checkins messages)
       <= List.length pairs)%nat /\
      (0 <= last)%Z /\
      (forall pid t,
          EngagementPulse.most_recent_checkin pid checkins = Some t ->
          (EngagementPulse.days_since now t <= last)%Z) /\
      (last = 0%Z \/
       exists pid t,
         EngagementPulse.most_recent_checkin pid checkins = Some t /\
         last = EngagementPulse.days_since now t).
Proof.
  intros data now options checkins messages users pairings Hc Hm Hu Hp Hmode
         pairs last.
  set (stats := EngagementPulse.pair_stats now checkins messages) in *.
  destruct (pair_stats_lookup now checkins messages) as [Hkeys Hget].
  fold stats in Hkeys, Hget.
  pose proof (Set_of_keys_NoDup now checkins messages) as Hnd. fold stats in Hnd.
  destruct (max_days_fold stats 0%Z) as (Hzero & Hall & Hsome).
  split; [|split; [|split; [|split]]].
  - unfold EngagementPulse.run, EngagementPulse.run_body.
    rewrite Hc, Hm, Hu, Hp. simpl.
    destruct (String.eqb_spec (EngagementPulse.mode_of options) "list");
      [contradiction|].
    fold stats. f_equal.
    + unfold JSMap.size, pairs. rewrite <- Hkeys. unfold JSMap.keys.
      now rewrite length_map.
    + unfold EngagementPulse.dormant_pairs. fold stats. now rewrite length_map.
    + f_equal.
      rewrite (values_by_key EngagementPulse.balance "balanced" stats Hnd).
      rewrite Hkeys. apply map_ext_in. intros pid Hpid.
      pose proof (Hget pid) as Hg. rewrite Hg.
      destruct (EngagementPulse.most_recent_checkin pid checkins) eqn:Hmr;
        simpl; [reflexivity|].
      exfalso. simpl in Hg. apply get_none_keys in Hg. apply Hg.
      rewrite Hkeys. exact Hpid.
  - unfold EngagementPulse.dormant_pairs. fold stats.
    rewrite length_map, find_dormant_filter, length_map.
    unfold pairs. rewrite <- Hkeys. unfold JSMap.keys. rewrite length_map.
    apply filter_length_le.
  - exact Hzero.
  - intros pid t Ht. specialize (Hget pid). rewrite Ht in Hget. simpl in Hget.
    apply (In_get stats pid _ Hnd) in Hget.
    apply (Hall _ _ Hget).
  - destruct Hsome as [H0 | (k & s & Hin & Hs)]; [now left | right].
    apply (In_get stats k s Hnd) in Hin. rewrite Hget in Hin.
    destruct (EngagementPulse.most_recent_checkin k checkins) as [t|] eqn:Ht;
      [|discriminate].
    exists k, t. split; [exact Ht|].
    simpl in Hin. injection Hin as <-. exact Hs.
Qed.

Lemma run_summary_report_witness :
  EngagementPulse.run Sample.dataset Sample.now None =
  EngagementPulse.SummaryResult 3 2 "balanced" 27.
Proof.
  assert (Hmode : EngagementPulse.mode_of None <> "list") by discriminate.
  destruct (run_summary_report Sample.dataset Sample.now None
              Sample.checkins Sample.messages Sample.users Sample.pairings
              eq_refl eq_refl eq_refl eq_refl Hmode)
    as (Hrun & _ & _ & _ & _).
  rewrite Hrun. vm_compute. reflexivity.
Defined.

Lemma StronglySorted_app_inv :
  forall {A} (R : A -> A -> Prop) l1 l2,
    StronglySorted R (l1 ++ l2) ->
    StronglySorted R l1 /\ StronglySorted R l2 /\
    forall a b, In a l1 -> In b l2 -> R a b.
Proof.
  intros A R. induction l1 as [|x l1 IH]; intros l2 H; simpl in *.
  - repeat split; [constructor | assumption | tauto].
  - apply StronglySorted_inv in H. destruct H as [Hs Hall].
    destruct (IH _ Hs) as (H1 & H2 & H12).
    rewrite Forall_forall in Hall.
    repeat split.
    + constructor; [assumption|]. apply Forall_forall.
      intros y Hy. apply Hall. apply in_or_app. now left.
    + assumption.
    + intros a b [<-|Ha] Hb; [|auto]. apply Hall. apply in_or_app. now right.
Qed.

Lemma StronglySorted_map :
  forall {A B} (R : A -> A -> Prop) (R' : B -> B -> Prop) (f : A -> B) l,
    (forall a b, R a b -> R' (f a) (f b)) ->
    StronglySorted R l -> StronglySorted R' (map f l).
Proof.
  intros A B R R' f l HR Hs. induction Hs as [|a l Hs IH Hall]; simpl.
  - constructor.
  - constructor; [exact IH|]. rewrite Forall_forall in *.
    intros y Hy. apply in_map_iff in Hy. destruct Hy as (b & <- & Hb). auto.
Qed.

(** In list mode, with the four files loaded and a limit that is not
    negative: [dormant_count] counts all dormant pairs, whatever the limit;
    the mentees are the first [limit] pairs of the dormant pairs ordered by
    days since the last check-in, largest first; each of them has more than
    14 days; and no dormant pair that is left out has more days than a
    listed one. *)
Theorem run_list_report :
  forall data now options checkins messages users pairings,
    checkins_csv data = Loaded checkins ->
    messages_csv data = Loaded messages ->
    users_csv data = Loaded users ->
    pairings_csv data = Loaded pairings ->
    EngagementPulse.mode_of options = "list" ->
    (0 <= EngagementPulse.limit_of options)%Z ->
    let ranked := EngagementPulse.ranked_dormant now checkins messages in
    let k := Z.to_nat (EngagementPulse.limit_of options) in
    exists mentees,
      EngagementPulse.run data now options =
      EngagementPulse.ListResult
        (List.length (EngagementPulse.dormant_pairs now checkins messages))
        mentees /\
      map EngagementPulse.m_pair_id mentees =
      map EngagementPulse.pairId (firstn k ranked) /\
      map EngagementPulse.m_last_checkin_days mentees =
      map EngagementPulse.dp_daysSince (firstn k ranked) /\
      List.length mentees =
      Nat.min k (List.length (EngagementPulse.dormant_pairs now checkins messages)) /\
      StronglySorted
        (fun a b => (EngagementPulse.m_last_checkin_days a >=
                     EngagementPulse.m_last_checkin_days b)%Z) mentees /\
      (forall m,
          In m mentees ->
          (EngagementPulse.m_last_checkin_days m > 14)%Z /\
          In (EngagementPulse.m_pair_id m)
             (EngagementPulse.dormant_pairs now checkins messages)) /\
      (forall m d,
          In m mentees -> In d (skipn k ranked) ->
          (EngagementPulse.dp_daysSince d <=
           EngagementPulse.m_last_checkin_days m)%Z).
Proof.
  intros data now options checkins messages users pairings Hc Hm Hu Hp Hmode
         Hlimit ranked k.
  destruct (ranked_dormant_sorted now checkins messages) as [Hperm Hsorted].
  fold ranked in Hperm, Hsorted.
  rewrite <- (firstn_skipn k ranked) in Hsorted.
  apply StronglySorted_app_inv in Hsorted.
  destruct Hsorted as (Hfirst & _ & Hsplit).
  exists (map (EngagementPulse.to_mentee users pairings) (firstn k ranked)).
  split; [|split; [|split; [|split; [|split; [|split]]]]].
  - unfold EngagementPulse.run, EngagementPulse.run_body.
    rewrite Hc, Hm, Hu, Hp. simpl. rewrite Hmode. simpl.
    rewrite slice0_firstn by assumption.
    unfold EngagementPulse.dormant_pairs. rewrite length_map. reflexivity.
  - rewrite map_map. apply map_ext. intros d. apply to_mentee_keeps.
  - rewrite map_map. apply map_ext. intros d. apply to_mentee_keeps.
  - rewrite length_map, length_firstn.
    unfold EngagementPulse.dormant_pairs. rewrite length_map.
    now rewrite (Permutation_length Hperm).
  - eapply StronglySorted_map; [|exact Hfirst].
    intros a b Hab. cbv beta.
    destruct (to_mentee_keeps users pairings a) as [_ ->].
    destruct (to_mentee_keeps users pairings b) as [_ ->]. exact Hab.
  - intros m Hin. apply in_map_iff in Hin. destruct Hin as (d & <- & Hd).
    apply In_firstn in Hd. apply (Permutation_in _ Hperm) in Hd.
    destruct (to_mentee_keeps users pairings d) as [-> ->]. split.
    + now apply find_dormant_days in Hd.
    + unfold EngagementPulse.dormant_pairs. now apply in_map.
  - intros m d Hin Hd. apply in_map_iff in Hin. destruct Hin as (d' & <- & Hd').
    destruct (to_mentee_keeps users pairings d') as [_ ->].
    specialize (Hsplit d' d Hd' Hd). cbv beta in Hsplit. lia.
Qed.

Lemma run_list_report_witness :
  exists mentees,
    EngagementPulse.run Sample.dataset Sample.now
      (Some {| EngagementPulse.mode := Some "list";
               EngagementPulse.limit := Some 1%Z;
               EngagementPulse.prompt := None |}) =
    EngagementPulse.ListResult 2 mentees /\
    map EngagementPulse.m_pair_id mentees = ["p002"].
Proof.
  assert (Hlimit : (0 <= 1)%Z) by lia.
  destruct (run_list_report Sample.dataset Sample.now
              (Some {| EngagementPulse.mode := Some "list";
                       EngagementPulse.limit := Some 1%Z;
                       EngagementPulse.prompt := None |})
              Sample.checkins Sample.messages Sample.users Sample.pairings
              eq_refl eq_refl eq_refl eq_refl eq_refl Hlimit)
    as (mentees & Hrun & Hids & _).
  exists mentees. split; [exact Hrun | exact Hids].
Defined.

(** ** The nudge composer: what a call can end with *)

Lemma prefix_append3 :
  forall a b c r, String.prefix (a ++ b ++ c) (a ++ b ++ c ++ r) = true.
Proof.
  intros a b c r. apply prefix_app. exists r.
  now rewrite !append_assoc.
Qed.

(** [compose] throws exactly when one of its three loads throws, with the
    message of the first one in the order users, pairings, programmes.
    Otherwise it returns a string: "Error: No pairing found" exactly when
    no pairing is selected, "Error: Missing data for nudge composition"
    exactly when a pairing is selected and its mentee, its mentor or its
    programme is not found, and else a message that begins with "To: "
    followed by the first name of the mentee. *)
Theorem compose_outcomes :
  forall data random1 random2 engagementData tips pairId,
    (forall message,
        EngagementPulse.first_thrown (ComposeNudge.loads data) = Some message ->
        ComposeNudge.compose data random1 random2 engagementData tips pairId =
        Throw message) /\
    (forall users pairings programmes,
        users_csv data = Loaded users ->
        pairings_csv data = Loaded pairings ->
        programmes_json data = Loaded programmes ->
        exists text,
          ComposeNudge.compose data random1 random2 engagementData tips pairId =
          Return text /\
          (text = "Error: No pairing found" <->
           ComposeNudge.select_pair pairings pairId random1 = None) /\
          (forall p,
              ComposeNudge.select_pair pairings pairId random1 = Some p ->
              let mentee :=
                List.find (fun u => String.eqb (user_id u) (mentee_id p)) users in
              let mentor :=
                List.find (fun u => String.eqb (user_id u) (mentor_id p)) users in
              let programme :=
                List.find (fun g => String.eqb (prog_programme_id g)
                                               (programme_id p)) programmes in
              (text = "Error: Missing data for nudge composition" <->
               mentee = None \/ mentor = None \/ programme = None) /\
              (forall u, mentee = Some u -> mentor <> None -> programme <> None ->
                         JS.startsWith text
                           ("To: " ++ first_name u ++ ComposeNudge.newline)
                         = true))).
Proof.
  intros data random1 random2 engagementData tips pairId.
  unfold ComposeNudge.compose, ComposeNudge.loads. split.
  - intros message.
    destruct (users_csv data) as [m1|users]; simpl.
    { now intros [= <-]. }
    destruct (pairings_csv data) as [m2|pairings]; simpl.
    { now intros [= <-]. }
    destruct (programmes_json data) as [m3|programmes]; simpl.
    { now intros [= <-]. }
    discriminate.
  - intros users pairings programmes -> -> ->. simpl.
    destruct (ComposeNudge.select_pair pairings pairId random1) as [p|] eqn:Hsel.
    + eexists. split; [reflexivity|]. split.
      * split; [|discriminate].
        unfold ComposeNudge.compose_for.
        destruct (List.find _ users); [|discriminate].
        destruct (List.find _ users); [|discriminate].
        destruct (List.find _ programmes); discriminate.
      * intros p' [= <-]. cbv zeta. unfold ComposeNudge.compose_for.
        destruct (List.find (fun u => String.eqb (user_id u) (mentee_id p)) users)
          as [mentee|];
          [|split; [split; [intros _; now left | reflexivity]
                   | intros u H; discriminate]].
        destruct (List.find (fun u => String.eqb (user_id u) (mentor_id p)) users)
          as [mentor|];
          [|split; [split; [intros _; right; now left | reflexivity]
                   | intros u _ H; congruence]].
        destruct (List.find _ programmes) as [programme|];
          [|split; [split; [intros _; right; now right | reflexivity]
                   | intros u _ _ H; congruence]].
        split.
        -- split; [discriminate | intros [H|[H|H]]; discriminate].
        -- intros u [= <-] _ _. unfold ComposeNudge.message, JS.startsWith.
           apply (prefix_append3 "To: " (first_name mentee) ComposeNudge.newline).
    + eexists. split; [reflexivity|]. split; [tauto|]. discriminate.
Qed.

Lemma compose_outcomes_witness :
  ComposeNudge.compose
    {| checkins_csv := Loaded Sample.checkins;
       messages_csv := Loaded Sample.messages;
       users_csv := Loaded Sample.users;
       pairings_csv := Thrown "ENOENT: no such file or directory, open 'pairings.csv'";
       programmes_json := Thrown "Unexpected end of JSON input";
       tips_json := Loaded Sample.tips |}
    0 0 "last_checkin_days=3" "" None
  = Throw "ENOENT: no such file or directory, open 'pairings.csv'".
Proof.
  apply compose_outcomes. reflexivity.
Defined.

(** ** From the summary to the composer: the days are read back *)

Section Decimal.

Lemma parse_digits_acc :
  forall d acc,
    JS.parse_digits (N.pos acc) (NilEmpty.string_of_uint d) =
    N.pos (Pos.of_uint_acc d acc).
Proof.
  induction d; intros acc; [reflexivity|..];
    cbn [NilEmpty.string_of_uint JS.parse_digits Pos.of_uint_acc];
    rewrite <- IHd; f_equal;
    match goal with
    | |- context [(JS.code ?c - 48)%N] =>
        let v := eval vm_compute in (JS.code c - 48)%N in
        change (JS.code c - 48)%N with v
    end; lia.
Qed.

Lemma parse_digits_uint :
  forall d, JS.parse_digits 0 (NilEmpty.string_of_uint d) = Pos.of_uint d.
Proof.
  induction d; [reflexivity | exact IHd | ..];
    cbn [NilEmpty.string_of_uint JS.parse_digits Pos.of_uint];
    match goal with
    | |- context [(0 * 10 + (JS.code ?c - 48))%N] =>
        let v := eval vm_compute in (0 * 10 + (JS.code c - 48))%N in
        change (0 * 10 + (JS.code c - 48))%N with v
    end; apply parse_digits_acc.
Qed.

Lemma parse_digits_show_N : forall n, JS.parse_digits 0 (JS.show_N n) = n.
Proof.
  intros [|p]; [reflexivity|].
  unfold JS.show_N, JS.show_Z. simpl.
  rewrite <- (DecimalPos.Unsigned.of_to p).
  unfold NilZero.string_of_uint.
  destruct (Pos.to_uint p) eqn:E; try (rewrite <- E; apply parse_digits_uint).
  reflexivity.
Qed.

Lemma string_of_uint_digits :
  forall d, DeterministicBrain.all_chars JS.is_digit (NilEmpty.string_of_uint d) = true.
Proof. induction d; simpl; auto. Qed.

Lemma show_N_digits :
  forall n,
    DeterministicBrain.all_chars JS.is_digit (JS.show_N n) = true /\
    JS.nonempty (JS.show_N n) = true.
Proof.
  intros [|p]; [split; reflexivity|].
  unfold JS.show_N, JS.show_Z. simpl. unfold NilZero.string_of_uint.
  pose proof (string_of_uint_digits (Pos.to_uint p)) as Hd.
  destruct (Pos.to_uint p) eqn:E; split;
    try reflexivity; try exact Hd.
Qed.

Lemma span_all :
  forall p s,
    DeterministicBrain.all_chars p s = true -> JS.span p s = (s, EmptyString).
Proof.
  induction s as [|c s IH]; simpl; [reflexivity|].
  intros H. apply andb_true_iff in H. destruct H as [Hc Hs].
  now rewrite Hc, (IH Hs).
Qed.

Lemma digits_without :
  forall c s,
    JS.is_digit c = false ->
    DeterministicBrain.all_chars JS.is_digit s = true ->
    TipsRAG.has_char c s = false.
Proof.
  intros c. induction s as [|d s IH]; simpl; [reflexivity|].
  intros Hc H. apply andb_true_iff in H. destruct H as [Hd Hs].
  rewrite (IH Hc Hs), orb_false_r.
  destruct (Ascii.eqb_spec c d); [congruence | reflexivity].
Qed.

End Decimal.

Section ReadBack.
Import ComposeNudge.

Lemma append_cases :
  forall a t p r : string,
    a ++ t = p ++ r -> (exists x, a = p ++ x) \/ (exists y, p = a ++ y).
Proof.
  induction a as [|c a IH]; intros t p r H.
  - right. now exists p.
  - destruct p as [|d p].
    + left. now exists (String c a).
    + simpl in H. injection H as -> H.
      destruct (IH _ _ _ H) as [[x ->] | [y ->]];
        [left; now exists x | right; now exists y].
Qed.

Lemma match_last_checkin_days_unfold :
  forall s,
    match_last_checkin_days s =
    match (if String.prefix "last_checkin_days=" s then
             let '(digits, _) := JS.span JS.is_digit (JS.substring_from 18 s) in
             if JS.nonempty digits then Some digits else None
           else None) with
    | Some d => Some d
    | None => match s with
              | EmptyString => None
              | String _ r => match_last_checkin_days r
              end
    end.
Proof. destruct s; reflexivity. Qed.

Lemma no_match_inside :
  forall b t,
    TipsRAG.has_char "k" b = false ->
    String.prefix "last_checkin_days=" ((b ++ " ") ++ t) = false.
Proof.
  intros b t Hk.
  destruct (String.prefix "last_checkin_days=" ((b ++ " ") ++ t)) eqn:Hp;
    [exfalso | reflexivity].
  apply prefix_app in Hp. destruct Hp as [r Hr].
  destruct (append_cases _ _ _ _ Hr) as [[x Hx] | [y Hy]].
  - apply (f_equal (TipsRAG.has_char "k")) in Hx.
    rewrite !has_char_append, Hk in Hx. simpl in Hx. discriminate.
  - apply (f_equal (TipsRAG.has_char " ")) in Hy.
    rewrite !has_char_append in Hy. simpl in Hy.
    rewrite orb_true_r in Hy. discriminate.
Qed.

Lemma match_skips_prefix :
  forall pre tail,
    TipsRAG.has_char "k" pre = false ->
    match_last_checkin_days (pre ++ " last_checkin_days=" ++ tail) =
    match_last_checkin_days ("last_checkin_days=" ++ tail).
Proof.
  induction pre as [|c pre IH]; intros tail Hk.
  - rewrite match_last_checkin_days_unfold. reflexivity.
  - rewrite match_last_checkin_days_unfold.
    replace (String c pre ++ " last_checkin_days=" ++ tail)
      with ((String c pre ++ " ") ++ "last_checkin_days=" ++ tail)
      by (rewrite append_assoc; reflexivity).
    rewrite (no_match_inside _ _ Hk).
    simpl in Hk. apply orb_false_iff in Hk. destruct Hk as [_ Hk].
    rewrite <- (IH tail Hk). simpl. now rewrite append_assoc.
Qed.

Lemma match_reads_digits :
  forall digits,
    DeterministicBrain.all_chars JS.is_digit digits = true ->
    JS.nonempty digits = true ->
    match_last_checkin_days ("last_checkin_days=" ++ digits) = Some digits.
Proof.
  intros digits Hd Hne. rewrite match_last_checkin_days_unfold.
  replace (String.prefix "last_checkin_days=" ("last_checkin_days=" ++ digits))
    with true by (symmetry; apply prefix_app; now exists digits).
  change 18%nat with (String.length "last_checkin_days=").
  rewrite substring_from_app, (span_all _ _ Hd), Hne. reflexivity.
Qed.

Lemma overall_balance_values :
  forall balances,
    EngagementPulse.overall_balance balances = "mentor_heavy" \/
    EngagementPulse.overall_balance balances = "mentee_heavy" \/
    EngagementPulse.overall_balance balances = "balanced".
Proof.
  intros balances. unfold EngagementPulse.overall_balance.
  destruct (_ <? _)%nat; [auto|]. destruct (_ <? _)%nat; auto.
Qed.

Lemma max_days_nonneg :
  forall pairStats, (0 <= EngagementPulse.max_days pairStats)%Z.
Proof. intros pairStats. apply (max_days_fold pairStats 0%Z). Qed.

Lemma summary_days_read_back :
  forall sample dormant balance days,
    TipsRAG.has_char "k" balance = false ->
    last_checkin_days_of
      (Cli.engagement_data
         (EngagementPulse.SummaryResult sample dormant balance (Z.of_N days)))
    = days.
Proof.
  intros sample dormant balance days Hk.
  unfold last_checkin_days_of, Cli.engagement_data.
  destruct (show_N_digits days) as [Hdays Hne].
  destruct (show_N_digits (N.of_nat sample)) as [Hs _].
  destruct (show_N_digits (N.of_nat dormant)) as [Hd _].
  fold (JS.show_N days).
  replace (JS.show_Z (Z.of_nat sample)) with (JS.show_N (N.of_nat sample))
    by (unfold JS.show_N; now rewrite nat_N_Z).
  replace (JS.show_Z (Z.of_nat dormant)) with (JS.show_N (N.of_nat dormant))
    by (unfold JS.show_N; now rewrite nat_N_Z).
  replace ("sample=" ++ JS.show_N (N.of_nat sample) ++ " dormant=" ++
           JS.show_N (N.of_nat dormant) ++ " balance=" ++ balance ++
           " last_checkin_days=" ++ JS.show_N days)
    with (("sample=" ++ JS.show_N (N.of_nat sample) ++ " dormant=" ++
           JS.show_N (N.of_nat dormant) ++ " balance=" ++ balance) ++
          " last_checkin_days=" ++ JS.show_N days)
    by (rewrite !append_assoc; reflexivity).
  rewrite match_skips_prefix.
  - rewrite (match_reads_digits _ Hdays Hne). apply parse_digits_show_N.
  - rewrite !has_char_append, Hk.
    rewrite (digits_without "k" _ eq_refl Hs), (digits_without "k" _ eq_refl Hd).
    reflexivity.
Qed.

End ReadBack.

(** The orchestrator hands the summary to the composer as a string, and
    the composer reads the days back from it: for the summary that [run]
    returns, the composer works with exactly its [last_checkin_days], which
    is never negative; when [run] returns an error the composer works with
    0 days.  So behind the orchestrator the composer never falls back to
    its default of 14 days. *)
Theorem composer_reads_summary_days :
  forall data now,
    match EngagementPulse.run data now (Some Cli.summary_options) with
    | EngagementPulse.SummaryResult sample dormant balance last =>
        (0 <= last)%Z /\
        Z.of_N (ComposeNudge.last_checkin_days_of
                  (Cli.engagement_data
                     (EngagementPulse.SummaryResult sample dormant balance last)))
        = last
    | other =>
        ComposeNudge.last_checkin_days_of (Cli.engagement_data other) = 0%N
    end.
Proof.
  intros data now.
  remember (EngagementPulse.run data now (Some Cli.summary_options)) as r eqn:Hr.
  unfold EngagementPulse.run, EngagementPulse.run_body in Hr.
  destruct (checkins_csv data) as [m1|checkins]; [subst r; reflexivity|].
  destruct (messages_csv data) as [m2|messages]; [subst r; reflexivity|].
  destruct (users_csv data) as [m3|users]; [subst r; reflexivity|].
  destruct (pairings_csv data) as [m4|pairings]; [subst r; reflexivity|].
  simpl in Hr.
  set (stats := EngagementPulse.pair_stats now checkins messages) in Hr.
  pose proof (max_days_nonneg stats) as Hmax.
  subst r. lazy iota beta.
  split; [exact Hmax|].
  rewrite <- (Z2N.id _ Hmax) at 2.
  rewrite <- (Z2N.id _ Hmax) at 1.
  rewrite summary_days_read_back; [reflexivity|].
  destruct (overall_balance_values
              (map EngagementPulse.balance (JSMap.values stats)))
    as [-> | [-> | ->]]; reflexivity.
Qed.

(** ** From the composer back to the orchestrator: the nudge is parsed *)

Section Lines.

Lemma split_char_cons :
  forall c s, exists h t, JS.split_char c s = h :: t.
Proof.
  intros c s. destruct s as [|d s]; simpl; [eauto|].
  destruct (Ascii.eqb d c); [eauto|].
  destruct (JS.split_char c s); eauto.
Qed.

Lemma split_char_prefix :
  forall c a s,
    TipsRAG.has_char c a = false ->
    JS.split_char c (a ++ s) =
    match JS.split_char c s with
    | h :: t => (a ++ h) :: t
    | [] => [a]
    end.
Proof.
  intros c. induction a as [|d a IH]; intros s H.
  - destruct (split_char_cons c s) as (h & t & E).
    simpl. now rewrite E.
  - simpl in H. apply orb_false_iff in H. destruct H as [Hd Ha].
    simpl. rewrite Ascii.eqb_sym, Hd, (IH s Ha).
    destruct (split_char_cons c s) as (h & t & ->). reflexivity.
Qed.

Lemma append_empty_r : forall s : string, s ++ "" = s.
Proof. induction s as [|c s IH]; simpl; [|rewrite IH]; reflexivity. Qed.

Lemma split_char_line :
  forall c a s,
    TipsRAG.has_char c a = false ->
    JS.split_char c (a ++ String c s) = a :: JS.split_char c s.
Proof.
  intros c a s H. rewrite (split_char_prefix c a _ H). simpl.
  rewrite Ascii.eqb_refl. now rewrite append_empty_r.
Qed.

Lemma split_char_none :
  forall c s, TipsRAG.has_char c s = false -> JS.split_char c s = [s].
Proof.
  intros c s H. rewrite <- (append_empty_r s) at 1.
  rewrite (split_char_prefix c s "" H). simpl. now rewrite append_empty_r.
Qed.

End Lines.

(** What the composer writes, the orchestrator reads back: when the first
    name of the mentee and the name of the programme hold no line break,
    parsing the composed message gives the subject
    "Checking in on your <programme> progress" and, as the body, the first
    line of the composed body (the whole body when it has no line break). *)
Theorem parse_nudge_message :
  forall mentee programme body,
    TipsRAG.has_char (ascii_of_N 10) (first_name mentee) = false ->
    TipsRAG.has_char (ascii_of_N 10) (name programme) = false ->
    Cli.parse_nudge (ComposeNudge.message mentee programme body) =
    {| Cli.subject := "Checking in on your " ++ name programme ++ " progress";
       Cli.body := nth 0 (JS.split_char (ascii_of_N 10) body) EmptyString |} /\
    (TipsRAG.has_char (ascii_of_N 10) body = false ->
     Cli.parse_nudge (ComposeNudge.message mentee programme body) =
     {| Cli.subject := "Checking in on your " ++ name programme ++ " progress";
        Cli.body := body |}).
Proof.
  intros mentee programme body Hfn Hname.
  assert (Hparse :
    Cli.parse_nudge (ComposeNudge.message mentee programme body) =
    {| Cli.subject := "Checking in on your " ++ name programme ++ " progress";
       Cli.body := nth 0 (JS.split_char (ascii_of_N 10) body) EmptyString |}).
  { unfold Cli.parse_nudge, ComposeNudge.message, ComposeNudge.newline.
    set (nl := ascii_of_N 10) in *.
    assert (Hto : TipsRAG.has_char nl ("To: " ++ first_name mentee) = false).
    { rewrite has_char_append, Hfn. reflexivity. }
    assert (Hsub : TipsRAG.has_char nl
                     ("Subject: Checking in on your " ++ name programme ++ " progress")
                   = false).
    { rewrite !has_char_append, Hname. reflexivity. }
    replace ("To: " ++ first_name mentee ++ String nl "" ++
             "Subject: Checking in on your " ++ name programme ++ " progress" ++
             String nl "" ++ "Body: " ++ body)
      with (("To: " ++ first_name mentee) ++
            String nl (("Subject: Checking in on your " ++ name programme ++
                        " progress") ++ String nl ("Body: " ++ body)))
      by (rewrite !append_assoc; reflexivity).
    rewrite (split_char_line nl _ _ Hto), (split_char_line nl _ _ Hsub).
    rewrite (split_char_prefix nl "Body: " body eq_refl).
    destruct (split_char_cons nl body) as (h & t & ->).
    unfold JS.startsWith. simpl. destruct h; reflexivity. }
  split; [exact Hparse|].
  intros Hbody. rewrite Hparse. f_equal.
  now rewrite (split_char_none _ _ Hbody).
Qed.

Lemma parse_nudge_message_witness :
  Cli.parse_nudge
    (ComposeNudge.message (Sample.user "u004" "mentee" "Emily")
       (nth 0 Sample.programmes
            {| prog_programme_id := ""; name := ""; cadence_days := 0;
               success_markers := [] |})
       "Hi Emily, great to see you're staying connected!") =
  {| Cli.subject := "Checking in on your Leadership Excellence Programme progress";
     Cli.body := "Hi Emily, great to see you're staying connected!" |}.
Proof.
  apply (parse_nudge_message (Sample.user "u004" "mentee" "Emily")
           (nth 0 Sample.programmes
                {| prog_programme_id := ""; name := ""; cadence_days := 0;
                   success_markers := [] |})
           "Hi Emily, great to see you're staying connected!");
    reflexivity.
Defined.

(** A text of one line that starts neither with "Subject:" nor with
    "Body:" (a sentinel of the composer, for one) is parsed into the
    subject "Mentorship update" with the text itself as the body. *)
Theorem parse_nudge_other_text :
  forall text,
    TipsRAG.has_char (ascii_of_N 10) text = false ->
    JS.startsWith text "Subject:" = false ->
    JS.startsWith text "Body:" = false ->
    Cli.parse_nudge text =
    {| Cli.subject := "Mentorship update"; Cli.body := text |}.
Proof.
  intros text Hnl Hs Hb. unfold Cli.parse_nudge.
  rewrite (split_char_none _ _ Hnl). simpl. now rewrite Hs, Hb.
Qed.

Lemma parse_nudge_other_text_witness :
  Cli.parse_nudge "Error: No pairing found" =
  {| Cli.subject := "Mentorship update";
     Cli.body := "Error: No pairing found" |}.
Proof. apply parse_nudge_other_text; reflexivity. Defined.

(** ** From the hits to the composer: the tip sentence *)

Section TipSentence.
Import ComposeNudge.

Lemma trimEnd_space : forall s, JS.trimEnd (s ++ " ") = JS.trimEnd s.
Proof.
  induction s as [|c s IH]; [reflexivity|].
  simpl. now rewrite IH.
Qed.

Lemma trim_space : forall s, JS.trim (s ++ " ") = JS.trim s.
Proof.
  unfold JS.trim. induction s as [|c s IH]; [reflexivity|].
  simpl. destruct (JS.is_space c); [exact IH|].
  apply (trimEnd_space (String c s)).
Qed.

Lemma match_tip_unfold :
  forall s,
    match_tip s =
    match (if String.prefix ") " s then
             let '(captured, _) :=
               JS.span (fun c => negb (Ascii.eqb c "|"%char))
                       (JS.substring_from 2 s) in
             if JS.nonempty captured then Some captured else None
           else None) with
    | Some t => Some t
    | None => match s with
              | EmptyString => None
              | String _ r => match_tip r
              end
    end.
Proof. destruct s; reflexivity. Qed.

Lemma match_tip_skip :
  forall pre s,
    TipsRAG.has_char ")" pre = false -> match_tip (pre ++ s) = match_tip s.
Proof.
  induction pre as [|c pre IH]; intros s H; [reflexivity|].
  simpl in H. apply orb_false_iff in H. destruct H as [Hc Hpre].
  assert (Hp : String.prefix ") " (String c pre ++ s) = false).
  { destruct (String.prefix ") " (String c pre ++ s)) eqn:E; [|reflexivity].
    apply prefix_app in E. destruct E as [r Hr].
    simpl in Hr. injection Hr as -> _.
    vm_compute in Hc. discriminate. }
  rewrite match_tip_unfold, Hp.
  change (String c pre ++ s) with (String c (pre ++ s)).
  now apply IH.
Qed.

Lemma span_append :
  forall p a s,
    DeterministicBrain.all_chars p a = true ->
    JS.span p (a ++ s) = let '(x, y) := JS.span p s in (a ++ x, y).
Proof.
  intros p. induction a as [|c a IH]; intros s H; simpl.
  - now destruct (JS.span p s).
  - simpl in H. apply andb_true_iff in H. destruct H as [Hc Ha].
    rewrite Hc, (IH s Ha). now destruct (JS.span p s).
Qed.

Lemma no_bar_all :
  forall s,
    TipsRAG.has_char "|" s = false ->
    DeterministicBrain.all_chars (fun c => negb (Ascii.eqb c "|"%char)) s = true.
Proof.
  induction s as [|c s IH];
    cbn [TipsRAG.has_char DeterministicBrain.all_chars]; [reflexivity|].
  intros H. apply orb_false_iff in H. destruct H as [Hc Hs].
  rewrite Ascii.eqb_sym, Hc. simpl. auto.
Qed.

Definition digit_or_sign (c : ascii) : bool :=
  JS.is_digit c || Ascii.eqb c "-"%char || Ascii.eqb c "."%char.

Lemma all_chars_append :
  forall p a b,
    DeterministicBrain.all_chars p (a ++ b) =
    DeterministicBrain.all_chars p a && DeterministicBrain.all_chars p b.
Proof.
  intros p. induction a as [|c a IH]; intros b; simpl; [reflexivity|].
  now rewrite IH, andb_assoc.
Qed.

Lemma all_chars_weaken :
  forall (p q : ascii -> bool) s,
    (forall c, p c = true -> q c = true) ->
    DeterministicBrain.all_chars p s = true ->
    DeterministicBrain.all_chars q s = true.
Proof.
  intros p q s Hpq. induction s as [|c s IH]; simpl; [reflexivity|].
  intros H. apply andb_true_iff in H. destruct H as [Hc Hs].
  now rewrite (Hpq c Hc), IH.
Qed.

Lemma show_Z_chars :
  forall z, DeterministicBrain.all_chars digit_or_sign (JS.show_Z z) = true.
Proof.
  assert (Hd : forall d,
    DeterministicBrain.all_chars digit_or_sign (NilZero.string_of_uint d) = true).
  { intros d. unfold NilZero.string_of_uint.
    assert (H : DeterministicBrain.all_chars digit_or_sign
                  (NilEmpty.string_of_uint d) = true).
    { apply (all_chars_weaken JS.is_digit); [|apply string_of_uint_digits].
      intros c Hc. unfold digit_or_sign. now rewrite Hc. }
    destruct d; exact H. }
  intros [|p|p]; unfold JS.show_Z; simpl; [reflexivity | apply Hd |].
  apply Hd.
Qed.

Lemma show_chars :
  forall x, TipsRAG.has_char ")" (Num.show x) = false.
Proof.
  assert (Hno : forall s,
    DeterministicBrain.all_chars digit_or_sign s = true ->
    TipsRAG.has_char ")" s = false).
  { induction s as [|c s IH];
      cbn [TipsRAG.has_char DeterministicBrain.all_chars]; [reflexivity|].
    intros H. apply andb_true_iff in H. destruct H as [Hc Hs].
    rewrite (IH Hs), orb_false_r.
    destruct (Ascii.eqb_spec ")" c) as [<-|]; [discriminate | reflexivity]. }
  intros [s|s| |s m e]; simpl; try reflexivity.
  - destruct s; reflexivity.
  - apply Hno. rewrite !all_chars_append, show_Z_chars.
    assert (Hsign : DeterministicBrain.all_chars digit_or_sign
                      (if s then "-" else "") = true)
      by (destruct s; reflexivity).
    rewrite Hsign. simpl.
    destruct (_ =? 0)%Z; [reflexivity|].
    unfold Num.two_digits.
    destruct (_ =? 0)%Z; [apply show_Z_chars|].
    destruct (_ <? 10)%Z; [|apply show_Z_chars].
    change ("." ++ "0" ++ ?s) with (String "." (String "0" s)).
    simpl. apply show_Z_chars.
Qed.

Lemma tip_here :
  forall x,
    (if String.prefix ") " (") " ++ x) then
       let '(captured, _) :=
         JS.span (fun c => negb (Ascii.eqb c "|"%char))
                 (JS.substring_from 2 (") " ++ x)) in
       if JS.nonempty captured then Some captured else None
     else None) =
    (let '(captured, _) :=
       JS.span (fun c => negb (Ascii.eqb c "|"%char)) x in
     if JS.nonempty captured then Some captured else None).
Proof. destruct x; reflexivity. Qed.

Lemma join_cons :
  forall sep x l,
    JS.join sep (x :: l) =
    x ++ match l with [] => "" | _ :: _ => sep ++ JS.join sep l end.
Proof.
  intros sep x [|y l]; simpl; [now rewrite append_empty_r | reflexivity].
Qed.

Lemma format_tips_head :
  forall h rest,
    exists more,
      Cli.format_tips (h :: rest) =
      ("(" ++ MentorTips.id h ++ " " ++ Num.show (MentorTips.score h)) ++
      ") " ++ MentorTips.text h ++ more /\
      (more = "" \/ exists later, more = " | " ++ later).
Proof.
  intros h rest. unfold Cli.format_tips.
  change (JS.slice0 (h :: rest) 2) with (h :: firstn 1 rest).
  rewrite map_cons, join_cons.
  match goal with
  | |- context [match ?l with [] => _ | _ :: _ => ?t end] =>
      exists (match l with [] => "" | _ :: _ => t end)
  end.
  split.
  - cbv beta. rewrite !append_assoc. reflexivity.
  - destruct (map _ (firstn 1 rest)); [now left | right; eauto].
Qed.

End TipSentence.

(** The tip sentence of a nudge is the text of the best hit: [main] hands
    [compose] the hits formatted as [(id score) text] and joined by [" | "],
    and the pattern of [compose] captures what follows the first [") "] up to
    the next [|].  When the id of the first hit has no closing bracket and
    its text is not empty and has no [|], the captured text, trimmed, is the
    trimmed text of that hit, whatever the second hit is. *)
Theorem nudge_tip_is_top_hit :
  forall h rest,
    TipsRAG.has_char ")" (MentorTips.id h) = false ->
    TipsRAG.has_char "|" (MentorTips.text h) = false ->
    MentorTips.text h <> "" ->
    ComposeNudge.tip_text_of (Cli.format_tips (h :: rest)) =
    JS.trim (MentorTips.text h).
Proof.
  intros h rest Hid Hbar Hne.
  destruct (format_tips_head h rest) as [more [-> Hmore]].
  unfold ComposeNudge.tip_text_of.
  rewrite match_tip_skip.
  2:{ change ("(" ++ ?x) with (String "(" x).
      cbn [TipsRAG.has_char]. rewrite !has_char_append, Hid, show_chars.
      reflexivity. }
  rewrite match_tip_unfold.
  rewrite tip_here.
  rewrite (span_append _ _ _ (no_bar_all _ Hbar)).
  assert (Hn : forall x, JS.nonempty (MentorTips.text h ++ x) = true).
  { intros x. destruct (MentorTips.text h); [congruence | reflexivity]. }
  destruct Hmore as [-> | [later ->]].
  - simpl. rewrite Hn. now rewrite append_empty_r.
  - change (JS.span _ (" | " ++ later)) with (" ", "| " ++ later).
    cbv iota beta. rewrite Hn. apply trim_space.
Qed.

Lemma nudge_tip_is_top_hit_witness :
  ComposeNudge.tip_text_of
    (Cli.format_tips
       [ {| MentorTips.id := "T2"; MentorTips.score := Num.one;
            MentorTips.text := " Ask one open question. ";
            MentorTips.tags := [] |};
         {| MentorTips.id := "T1"; MentorTips.score := Num.one;
            MentorTips.text := "Other (a | b) text";
            MentorTips.tags := [] |} ]) =
  "Ask one open question.".
Proof.
  apply (nudge_tip_is_top_hit
           {| MentorTips.id := "T2"; MentorTips.score := Num.one;
              MentorTips.text := " Ask one open question. ";
              MentorTips.tags := [] |});
    [reflexivity | reflexivity | discriminate].
Defined.


(** ** The loop with the deterministic brain *)

Section Routes.
Import DeterministicBrain.

(** The five decisions that [decide] can return. *)
Lemma decide_vocabulary :
  forall p,
    decide p = use_engagement_pulse p \/
    decide p = only "USE:mentor_tips" \/
    decide p = only "USE:echo" \/
    decide p = only "RESPOND:Debug mode - all systems operational" \/
    decide p = only ("RESPOND:" ++ default_reply p).
Proof.
  intros p. unfold decide.
  destruct (_ || _ || _); [now left|].
  destruct (_ || _).
  { destruct (_ || _); [right; now left | now left]. }
  destruct (_ || _ || _); [right; now left|].
  destruct (_ || _ || _); [right; now left|].
  destruct (JS.includes _ "echo"); [right; right; now left|].
  destruct (JS.includes _ "debug"); [right; right; right; now left|].
  right; right; right; right. reflexivity.
Qed.

Lemma act_engagement_pulse :
  forall inv p,
    Cli.act inv (use_engagement_pulse p) =
    let r :=
      EngagementPulse.run (Cli.data inv) (Cli.now inv)
        (Some {| EngagementPulse.mode :=
                   Some (if listPattern_test p then "list" else "summary");
                 EngagementPulse.limit := Cli.cli_limit inv;
                 EngagementPulse.prompt :=
                   Some (if JS.nonempty p then p else Cli.cli_prompt inv) |}) in
    Return (Cli.Engagement r, Cli.reflect_on_type (Cli.engagement_is_error r)).
Proof.
  intros inv p. unfold use_engagement_pulse.
  destruct (listPattern_test p); reflexivity.
Qed.

Lemma act_respond :
  forall inv reply,
    Cli.act inv (only ("RESPOND:" ++ reply)) =
    Return (Cli.Text reply, "looks ok").
Proof. intros inv reply. destruct reply; reflexivity. Qed.

Lemma act_mentor_tips :
  forall inv,
    Cli.act inv (only "USE:mentor_tips") =
    let tipsResult := MentorTips.retrieve (Cli.data inv) (Cli.cli_prompt inv) in
    let reflection := Cli.reflect_on_type (Cli.tips_is_error tipsResult) in
    match tipsResult with
    | MentorTips.TipsResult ((_ :: _) as hits) =>
        if Cli.compose inv then
          nudgeText <- ComposeNudge.compose (Cli.data inv) (Cli.random1 inv)
                         (Cli.random2 inv)
                         (Cli.engagement_data
                            (EngagementPulse.run (Cli.data inv) (Cli.now inv)
                                                 (Some Cli.summary_options)))
                         (Cli.format_tips hits) (Cli.pairId inv) ;;
          Return (Cli.TipsAndNudge tipsResult (Cli.parse_nudge nudgeText),
                  reflection)
        else Return (Cli.Tips tipsResult, reflection)
    | _ => Return (Cli.Tips tipsResult, reflection)
    end.
Proof. reflexivity. Qed.

Lemma act_echo :
  forall inv,
    Cli.act inv (only "USE:echo") =
    Return (Cli.Text ("Echo: " ++ Cli.cli_prompt inv), "looks ok").
Proof. reflexivity. Qed.

Lemma agent_loop_action :
  forall inv decision,
    Cli.result_action (Cli.agent_loop inv decision) = action decision.
Proof.
  intros inv decision. unfold Cli.agent_loop.
  now destruct (Cli.act inv decision) as [message|[obs refl]].
Qed.

Lemma compose_text_nonempty :
  forall data r1 r2 engagementData tips pairId text,
    ComposeNudge.compose data r1 r2 engagementData tips pairId = Return text ->
    JS.nonempty text = true.
Proof.
  intros data r1 r2 engagementData tips pairId text.
  unfold ComposeNudge.compose.
  destruct (users_csv data); [discriminate|].
  destruct (pairings_csv data); [discriminate|].
  destruct (programmes_json data); [discriminate|].
  simpl. destruct (ComposeNudge.select_pair _ _ _).
  - unfold ComposeNudge.compose_for.
    destruct (find _ _); [|intros [= <-]; reflexivity].
    destruct (find _ _); [|intros [= <-]; reflexivity].
    destruct (find _ _); intros [= <-]; reflexivity.
  - intros [= <-]. reflexivity.
Qed.

End Routes.

(** With the deterministic brain the loop ends in one of four ways: the
    engagement tool ran in the mode "list" or "summary" with the limit of
    the command line and the prompt; the tips tool ran on the prompt, and
    the observation is its result, alone or with a nudge, or the message of
    an exception that [compose] threw; the prompt was echoed; or a
    non-empty response was given.  The branch of the tool compose_nudge
    and the branch of an unknown tool are never taken. *)
Theorem main_deterministic_routes :
  forall inv,
    let p := Cli.cli_prompt inv in
    let d := DeterministicBrain.decide p in
    let r := Cli.main inv in
    Cli.unknown_tool d = false /\
    Cli.tool_of d <> "compose_nudge" /\
    ((exists mode,
         (mode = "list" \/ mode = "summary") /\
         Cli.result_action r = "USE:engagement_pulse:" ++ mode /\
         Cli.observation r =
         Cli.Engagement
           (EngagementPulse.run (Cli.data inv) (Cli.now inv)
              (Some {| EngagementPulse.mode := Some mode;
                       EngagementPulse.limit := Cli.cli_limit inv;
                       EngagementPulse.prompt := Some p |}))) \/
     (Cli.result_action r = "USE:mentor_tips" /\
      let tips := MentorTips.retrieve (Cli.data inv) p in
      (Cli.observation r = Cli.Tips tips \/
       (Cli.compose inv = true /\
        exists nudge, Cli.observation r = Cli.TipsAndNudge tips nudge) \/
       (Cli.compose inv = true /\
        Cli.reflection r = "needs improvement" /\
        exists message, Cli.observation r = Cli.Text ("Error: " ++ message)))) \/
     (Cli.result_action r = "USE:echo" /\
      Cli.observation r = Cli.Text ("Echo: " ++ p) /\
      Cli.reflection r = "looks ok") \/
     (exists reply,
         reply <> "" /\
         Cli.result_action r = "RESPOND:" ++ reply /\
         Cli.observation r = Cli.Text reply /\
         Cli.reflection r = "looks ok")).
Proof.
  intros inv p d r. subst d r. unfold Cli.main, Cli.agent_loop. fold p.
  destruct (decide_vocabulary p) as [H | [H | [H | [H | H]]]]; rewrite H.
  - split; [|split].
    + unfold DeterministicBrain.use_engagement_pulse.
      destruct (DeterministicBrain.listPattern_test p); reflexivity.
    + unfold DeterministicBrain.use_engagement_pulse.
      destruct (DeterministicBrain.listPattern_test p); discriminate.
    + left. rewrite act_engagement_pulse. cbv zeta.
      exists (if DeterministicBrain.listPattern_test p then "list" else "summary").
      split; [destruct (DeterministicBrain.listPattern_test p); auto|].
      split; [reflexivity|]. simpl.
      fold p. destruct (JS.nonempty p); reflexivity.
  - split; [reflexivity | split; [discriminate|]].
    right; left. split; [apply agent_loop_action|].
    rewrite act_mentor_tips. fold p. cbv zeta.
    destruct (MentorTips.retrieve (Cli.data inv) p) as [[|h hits]|msg hint];
      [now left | | now left].
    destruct (Cli.compose inv); [|now left].
    destruct (ComposeNudge.compose _ _ _ _ _ _) as [message|text]; simpl.
    + right; right. repeat split. now exists message.
    + right; left. split; [reflexivity|]. eauto.
  - split; [reflexivity | split; [discriminate|]].
    right; right; left. rewrite act_echo. repeat split.
  - split; [reflexivity | split; [discriminate|]].
    right; right; right.
    exists "Debug mode - all systems operational".
    repeat split. discriminate.
  - split; [reflexivity | split; [discriminate|]].
    right; right; right. exists (DeterministicBrain.default_reply p).
    rewrite act_respond. repeat split. discriminate.
Qed.

(** With [--json-only] the observation alone is printed unless it is
    falsy, which for the loop means the empty string: the action was
    exactly "RESPOND:" or was empty.  The deterministic brain gives
    neither, so with it the flag always prints the observation alone;
    without the flag the whole result is printed. *)
Theorem json_only_output :
  (forall inv decision,
      let r := Cli.agent_loop inv decision in
      Cli.output true r =
      if String.eqb (DeterministicBrain.action decision) "RESPOND:" ||
         String.eqb (DeterministicBrain.action decision) ""
      then Cli.PrintResult r
      else Cli.PrintObservation (Cli.observation r)) /\
  (forall inv,
      Cli.output true (Cli.main inv) =
      Cli.PrintObservation (Cli.observation (Cli.main inv))) /\
  (forall r, Cli.output false r = Cli.PrintResult r).
Proof.
  assert (Hgen : forall inv decision,
    let r := Cli.agent_loop inv decision in
    Cli.output true r =
    if String.eqb (DeterministicBrain.action decision) "RESPOND:" ||
       String.eqb (DeterministicBrain.action decision) ""
    then Cli.PrintResult r
    else Cli.PrintObservation (Cli.observation r)).
  { intros inv decision r. subst r. unfold Cli.output. simpl andb.
    assert (Ht : Cli.truthy (Cli.observation (Cli.agent_loop inv decision)) =
                 negb (String.eqb (DeterministicBrain.action decision) "RESPOND:" ||
                       String.eqb (DeterministicBrain.action decision) "")).
    { unfold Cli.agent_loop, Cli.act.
      destruct (JS.startsWith (DeterministicBrain.action decision) "USE:") eqn:Huse.
      - assert (Ha : String.eqb (DeterministicBrain.action decision) "RESPOND:" ||
                     String.eqb (DeterministicBrain.action decision) "" = false).
        { unfold JS.startsWith in Huse. apply prefix_app in Huse.
          destruct Huse as [rest ->]. reflexivity. }
        rewrite Ha. simpl negb.
        destruct (String.eqb _ "engagement_pulse"); [reflexivity|].
        destruct (String.eqb _ "mentor_tips").
        { destruct (MentorTips.retrieve _ _) as [[|h hits]|msg hint];
            try reflexivity.
          destruct (Cli.compose inv); [|reflexivity].
          destruct (ComposeNudge.compose _ _ _ _ _ _); reflexivity. }
        destruct (String.eqb _ "compose_nudge").
        { destruct (ComposeNudge.compose _ _ _ _ _ _) as [message|text] eqn:Hc;
            [reflexivity|].
          simpl. now rewrite (compose_text_nonempty _ _ _ _ _ _ _ Hc). }
        destruct (String.eqb _ "echo"); reflexivity.
      - destruct (JS.startsWith (DeterministicBrain.action decision) "RESPOND:")
          eqn:Hres.
        + unfold JS.startsWith in Hres. apply prefix_app in Hres.
          destruct Hres as [rest ->]. simpl. destruct rest; reflexivity.
        + destruct (String.eqb_spec (DeterministicBrain.action decision)
                                    "RESPOND:") as [E|E].
          { rewrite E in Hres. discriminate. }
          simpl. now destruct (DeterministicBrain.action decision). }
    rewrite Ht. now destruct (_ || _). }
  split; [exact Hgen | split; [|reflexivity]].
  intros inv. unfold Cli.main. rewrite Hgen.
  destruct (decide_vocabulary (Cli.cli_prompt inv)) as [H | [H | [H | [H | H]]]];
    rewrite H; reflexivity.
Qed.

(** ** The loop with a language model *)

Section Providers.
Import DeterministicBrain.

Lemma think_body_throws :
  forall config openai ollama prompt message,
    Brain.think_body config openai ollama prompt = Throw message <->
    (Brain.provider_of config = "openai" /\
     (Brain.has_key config = false /\ message = "OpenAI API key is required" \/
      Brain.has_key config = true /\ openai = OpenAIProvider.Rejected message)) \/
    (Brain.provider_of config = "ollama" /\
     ollama = OllamaProvider.Rejected message).
Proof.
  intros config openai ollama prompt message.
  unfold Brain.think_body, Brain.has_key.
  destruct (String.eqb_spec (Brain.provider_of config) "openai") as [E|E].
  - rewrite E. split.
    + intros H. left. split; [reflexivity|].
      destruct (Brain.apiKey config) as [key|].
      * destruct (JS.nonempty key).
        -- right. split; [reflexivity|].
           destruct openai as [m|raw]; simpl in H; [congruence|].
           destruct (JS.includes _ _); discriminate.
        -- left. split; congruence.
      * left. split; congruence.
    + intros [[_ [[Hk ->] | [Hk ->]]] | [H _]]; [| |discriminate].
      * destruct (Brain.apiKey config) as [key|]; [|reflexivity].
        now rewrite Hk.
      * destruct (Brain.apiKey config) as [key|]; [|discriminate].
        now rewrite Hk.
  - destruct (String.eqb_spec (Brain.provider_of config) "ollama") as [E'|E'].
    + split.
      * intros H. right. split; [exact E'|].
        destruct ollama as [m|raw]; simpl in H; [congruence|].
        destruct (JS.includes _ _); discriminate.
      * intros [[H _] | [_ ->]]; [contradiction | reflexivity].
    + split; [discriminate|].
      intros [[H _] | [H _]]; contradiction.
Qed.

End Providers.

(** A failure of the brain is not a failure of the loop: when the provider
    is openai and the key is missing, or the exchange with the provider
    ends in a rejection, [think] turns the message into the action
    "RESPOND:Error: <message>", and the loop reports the observation
    "Error: <message>" with the reflection "looks ok".  Nothing else makes
    [think] catch an error. *)
Theorem brain_error_is_a_response :
  forall config openai ollama inv message,
    (Brain.think_body config openai ollama (Cli.cli_prompt inv) = Throw message <->
     (Brain.provider_of config = "openai" /\
      (Brain.has_key config = false /\ message = "OpenAI API key is required" \/
       Brain.has_key config = true /\ openai = OpenAIProvider.Rejected message)) \/
     (Brain.provider_of config = "ollama" /\
      ollama = OllamaProvider.Rejected message)) /\
    (Brain.think_body config openai ollama (Cli.cli_prompt inv) = Throw message ->
     Cli.main_with config openai ollama inv =
     {| Cli.thought :=
          "Processing: " ++ ComposeNudge.quote ++ Cli.cli_prompt inv ++
          ComposeNudge.quote;
        Cli.result_action := "RESPOND:Error: " ++ message;
        Cli.observation := Cli.Text ("Error: " ++ message);
        Cli.reflection := "looks ok" |}).
Proof.
  intros config openai ollama inv message.
  split; [apply think_body_throws|].
  intros H. unfold Cli.main_with, Brain.think. rewrite H.
  unfold Cli.agent_loop.
  change ("RESPOND:Error: " ++ message) with ("RESPOND:" ++ "Error: " ++ message).
  now rewrite act_respond.
Qed.

Lemma brain_error_is_a_response_witness :
  Cli.main_with
    {| Brain.provider := Some "openai"; Brain.apiKey := None |}
    (OpenAIProvider.Replied "USE:echo") (OllamaProvider.Replied None)
    (Sample.invocation "check engagement pulse" None false) =
  {| Cli.thought :=
       "Processing: " ++ ComposeNudge.quote ++ "check engagement pulse" ++
       ComposeNudge.quote;
     Cli.result_action := "RESPOND:Error: OpenAI API key is required";
     Cli.observation := Cli.Text "Error: OpenAI API key is required";
     Cli.reflection := "looks ok" |}.
Proof.
  apply (brain_error_is_a_response
           {| Brain.provider := Some "openai"; Brain.apiKey := None |}
           (OpenAIProvider.Replied "USE:echo") (OllamaProvider.Replied None)
           (Sample.invocation "check engagement pulse" None false)
           "OpenAI API key is required").
  reflexivity.
Defined.

Section ModelReply.
Import DeterministicBrain.

Lemma includes_colon :
  forall s m,
    JS.includes s (String ":" m) = true -> TipsRAG.has_char ":" s = true.
Proof.
  intros s m H. apply includes_spec in H. destruct H as (a & b & ->).
  rewrite has_char_append. simpl. apply orb_true_r.
Qed.

Lemma act_engagement_action :
  forall inv named inferred p,
    (forall m, named = Some m -> TipsRAG.has_char ":" m = false) ->
    (named = None \/ named = Some "" -> inferred = Brain.mode_by_prompt p) ->
    Cli.act inv {| action := Brain.engagement_action named;
                   mode := Some inferred;
                   prompt := Some p |} =
    let r :=
      EngagementPulse.run (Cli.data inv) (Cli.now inv)
        (Some {| EngagementPulse.mode := Some (Brain.chosen_mode named p);
                 EngagementPulse.limit := Cli.cli_limit inv;
                 EngagementPulse.prompt :=
                   Some (if JS.nonempty p then p else Cli.cli_prompt inv) |}) in
    Return (Cli.Engagement r, Cli.reflect_on_type (Cli.engagement_is_error r)).
Proof.
  intros inv named inferred p Hm Hi. unfold Cli.act.
  change (JS.startsWith (action _) "USE:") with true. cbv iota.
  change (JS.substring_from 4 (action _))
    with ("engagement_pulse" ++
          match named with Some m => ":" ++ m | None => "" end).
  destruct named as [m|].
  - change ("engagement_pulse" ++ ":" ++ m)
      with ("engagement_pulse" ++ String ":" m).
    rewrite split_char_line by reflexivity.
    rewrite (split_char_none _ m (Hm m eq_refl)).
    cbn [nth nth_error]. change (String.eqb "engagement_pulse" "engagement_pulse") with true.
    cbv iota. unfold Brain.chosen_mode.
    destruct m as [|c m]; [|reflexivity].
    simpl. now rewrite Hi by auto.
  - rewrite split_char_none by reflexivity.
    cbn [nth nth_error]. change (String.eqb "engagement_pulse" "engagement_pulse") with true.
    cbv iota. unfold Brain.chosen_mode. simpl. now rewrite Hi by auto.
Qed.

Lemma run_result_kind :
  forall data now options,
    match EngagementPulse.run data now options with
    | EngagementPulse.ListResult _ _ =>
        EngagementPulse.mode_of options = "list"
    | EngagementPulse.SummaryResult _ _ _ _ =>
        EngagementPulse.mode_of options <> "list"
    | EngagementPulse.ErrorResult _ _ => True
    end.
Proof.
  intros data now options.
  unfold EngagementPulse.run, EngagementPulse.run_body.
  destruct (checkins_csv data); [exact I|].
  destruct (messages_csv data); [exact I|].
  destruct (users_csv data); [exact I|].
  destruct (pairings_csv data); [exact I|].
  simpl.
  destruct (String.eqb_spec (EngagementPulse.mode_of options) "list");
    assumption.
Qed.

Lemma chosen_mode_nonempty :
  forall named p, JS.nonempty (Brain.chosen_mode named p) = true.
Proof.
  intros [m|] p; unfold Brain.chosen_mode, Brain.mode_by_prompt.
  - destruct m; [|reflexivity]. simpl. now destruct (listPattern_test p).
  - now destruct (listPattern_test p).
Qed.

Lemma think_reply :
  forall config openai ollama raw named p,
    JS.trim raw = Brain.engagement_action named ->
    (Brain.provider_of config = "openai" /\ Brain.has_key config = true /\
     openai = OpenAIProvider.Replied raw) \/
    (Brain.provider_of config = "ollama" /\
     ollama = OllamaProvider.Replied (Some raw)) ->
    exists inferred,
      Brain.think config openai ollama p =
      {| action := Brain.engagement_action named; mode := Some inferred;
         prompt := Some p |} /\
      (named = None \/ named = Some "" -> inferred = Brain.mode_by_prompt p).
Proof.
  intros config openai ollama raw named p Hraw Hcfg.
  assert (Hinc : JS.includes (Brain.engagement_action named) "USE:engagement_pulse"
                 = true) by (destruct named; reflexivity).
  assert (Hdec : forall b : bool,
    (if b then listPattern_test p else listPattern_test p) = listPattern_test p)
    by (now intros []).
  exists (if JS.includes (Brain.engagement_action named) ":list" then "list"
          else if JS.includes (Brain.engagement_action named) ":summary" then "summary"
          else Brain.mode_by_prompt p).
  split.
  - unfold Brain.think, Brain.think_body.
    destruct Hcfg as [(Hp & Hk & ->) | (Hp & ->)].
    + rewrite Hp. simpl String.eqb. cbv iota.
      unfold Brain.has_key in Hk.
      destruct (Brain.apiKey config) as [key|]; [|discriminate].
      rewrite Hk. unfold OpenAIProvider.generate. rewrite Hraw, Hinc.
      reflexivity.
    + rewrite Hp. simpl String.eqb. cbv iota.
      unfold OllamaProvider.generate, OllamaProvider.content_of.
      rewrite Hraw.
      replace (JS.nonempty (Brain.engagement_action named)) with true
        by (now destruct named).
      rewrite Hinc. reflexivity.
  - intros [-> | ->]; reflexivity.
Qed.

End ModelReply.

(** A language model that answers with the engagement tool decides the
    mode by what it writes after the tool name: the loop runs the tool in
    that mode, whatever the prompt says, and in the mode that the prompt
    suggests ("list" when it holds which, who, list or show as a word,
    "summary" otherwise) when the reply names none.  The tool lists the
    dormant mentees only for the mode "list"; any other mode gives the
    summary. *)
Theorem model_reply_selects_mode :
  forall config openai ollama inv raw named,
    (forall m, named = Some m -> TipsRAG.has_char ":" m = false) ->
    JS.trim raw = Brain.engagement_action named ->
    (Brain.provider_of config = "openai" /\ Brain.has_key config = true /\
     openai = OpenAIProvider.Replied raw) \/
    (Brain.provider_of config = "ollama" /\
     ollama = OllamaProvider.Replied (Some raw)) ->
    let p := Cli.cli_prompt inv in
    let r := Cli.main_with config openai ollama inv in
    let chosen := Brain.chosen_mode named p in
    Cli.result_action r = Brain.engagement_action named /\
    Cli.observation r =
    Cli.Engagement
      (EngagementPulse.run (Cli.data inv) (Cli.now inv)
         (Some {| EngagementPulse.mode := Some chosen;
                  EngagementPulse.limit := Cli.cli_limit inv;
                  EngagementPulse.prompt := Some p |})) /\
    match Cli.observation r with
    | Cli.Engagement (EngagementPulse.ListResult _ _) => chosen = "list"
    | Cli.Engagement (EngagementPulse.SummaryResult _ _ _ _) =>
        chosen <> "list"
    | Cli.Engagement (EngagementPulse.ErrorResult _ _) => True
    | _ => False
    end.
Proof.
  intros config openai ollama inv raw named Hm Hraw Hcfg p r chosen.
  destruct (think_reply config openai ollama raw named p Hraw Hcfg)
    as (inferred & Hthink & Hinf).
  assert (Hobs : Cli.observation r =
    Cli.Engagement
      (EngagementPulse.run (Cli.data inv) (Cli.now inv)
         (Some {| EngagementPulse.mode := Some chosen;
                  EngagementPulse.limit := Cli.cli_limit inv;
                  EngagementPulse.prompt := Some p |}))).
  { subst r. unfold Cli.main_with, Cli.agent_loop. fold p. rewrite Hthink.
    rewrite (act_engagement_action inv named inferred p Hm Hinf).
    cbv zeta. simpl. fold p. now destruct (JS.nonempty p). }
  split; [|split; [exact Hobs|]].
  - subst r. unfold Cli.main_with. rewrite agent_loop_action. fold p.
    now rewrite Hthink.
  - rewrite Hobs.
    pose proof (run_result_kind (Cli.data inv) (Cli.now inv)
      (Some {| EngagementPulse.mode := Some chosen;
               EngagementPulse.limit := Cli.cli_limit inv;
               EngagementPulse.prompt := Some p |})) as Hk.
    replace (EngagementPulse.mode_of _) with chosen in Hk; [exact Hk|].
    unfold EngagementPulse.mode_of. cbn [EngagementPulse.mode].
    unfold chosen. now rewrite chosen_mode_nonempty.
Qed.

Lemma model_reply_selects_mode_witness :
  Cli.observation
    (Cli.main_with
       {| Brain.provider := Some "ollama"; Brain.apiKey := None |}
       (OpenAIProvider.Rejected "not asked")
       (OllamaProvider.Replied (Some " USE:engagement_pulse:weekly "))
       (Sample.invocation "which mentees look dormant" None false)) =
  Cli.Engagement (EngagementPulse.SummaryResult 3 2 "balanced" 27).
Proof.
  destruct (model_reply_selects_mode
              {| Brain.provider := Some "ollama"; Brain.apiKey := None |}
              (OpenAIProvider.Rejected "not asked")
              (OllamaProvider.Replied (Some " USE:engagement_pulse:weekly "))
              (Sample.invocation "which mentees look dormant" None false)
              " USE:engagement_pulse:weekly " (Some "weekly"))
    as (_ & H & _).
  - intros m [= <-]. reflexivity.
  - reflexivity.
  - right. split; reflexivity.
  - rewrite H. vm_compute. reflexivity.
Defined.

(** ** Tip retrieval: what a hit holds *)

Section Hits.

Lemma map_exn_In :
  forall {A B} (f : A -> Exn B) l hs,
    map_exn f l = Return hs ->
    forall h, In h hs -> exists r, In r l /\ f r = Return h.
Proof.
  intros A B f. induction l as [|a l IH]; intros hs H h Hin.
  - injection H as <-. contradiction.
  - simpl in H. destruct (f a) as [m|b] eqn:Ea; [discriminate|].
    simpl in H. destruct (map_exn f l) as [m|bs] eqn:El; [discriminate|].
    injection H as <-. destruct Hin as [<- | Hin].
    + exists a. split; [now left | exact Ea].
    + destruct (IH bs eq_refl h Hin) as (r & Hr & Hf).
      exists r. split; [now right | exact Hf].
Qed.

Lemma find_by_unique_id :
  forall tips t,
    NoDup (map tip_id tips) -> In t tips ->
    List.find (fun t0 => String.eqb (tip_id t0) (tip_id t)) tips = Some t.
Proof.
  induction tips as [|a tips IH]; intros t Hnd Hin; [contradiction|].
  simpl in Hnd. inversion Hnd as [|? ? Hnot Hnd']; subst.
  simpl. destruct Hin as [-> | Hin].
  - now rewrite String.eqb_refl.
  - destruct (String.eqb_spec (tip_id a) (tip_id t)) as [E|E].
    + exfalso. apply Hnot. rewrite E. now apply in_map.
    + now apply IH.
Qed.

Lemma findSimilar_In_score_all :
  forall query documents topK r,
    (0 <= topK)%Z ->
    In r (TipsRAG.findSimilar query documents topK) ->
    In r (TipsRAG.score_all query documents).
Proof.
  intros query documents topK r Hk Hin.
  unfold TipsRAG.findSimilar in Hin. rewrite slice0_firstn in Hin by assumption.
  apply In_firstn in Hin.
  destruct (findSimilar_sorted_scores query documents) as (Hperm & _).
  now apply (Permutation_in _ Hperm) in Hin.
Qed.

End Hits.

(** Every hit of [retrieve] is built from one tip of the file, when no two
    tips share an id: it has the id and the text of that tip, the tags are
    the non-empty pieces of its situation between commas, underscores and
    white space, and the score is the similarity, rounded to two decimals,
    of the query with the situation followed by the text. *)
Theorem retrieve_hits_are_tips :
  forall data query tips hits,
    tips_json data = Loaded tips ->
    NoDup (map tip_id tips) ->
    MentorTips.retrieve data query = MentorTips.TipsResult hits ->
    forall h,
      In h hits ->
      exists t,
        In t tips /\
        MentorTips.id h = tip_id t /\
        MentorTips.text h = tip_text t /\
        MentorTips.tags h =
        filter JS.nonempty
               (JS.split_runs MentorTips.is_tag_separator (situation t)) /\
        MentorTips.score h =
        Num.round2
          (TipsRAG.cosineSimilarity
             (TipsRAG.vectorise query)
             (TipsRAG.vectorise (situation t ++ " " ++ tip_text t))).
Proof.
  intros data query tips hits Hload Hnd Hret h Hin.
  unfold MentorTips.retrieve, MentorTips.retrieve_body in Hret.
  rewrite Hload in Hret. simpl in Hret.
  set (ranking := TipsRAG.findSimilar query (map MentorTips.to_document tips) 2)
    in Hret.
  assert (Hmap : map_exn (MentorTips.to_hit tips) ranking = Return hits).
  { destruct ranking as [|r ranking'].
    - injection Hret as <-. contradiction.
    - destruct (map_exn (MentorTips.to_hit tips) (r :: ranking')) as [m|hs];
        [discriminate|].
      simpl in Hret. now injection Hret as ->. }
  destruct (map_exn_In _ _ _ Hmap h Hin) as (r & Hr & Hhit).
  apply findSimilar_In_score_all in Hr; [|lia].
  unfold TipsRAG.score_all in Hr. apply in_map_iff in Hr.
  destruct Hr as (doc & <- & Hdoc). apply in_map_iff in Hdoc.
  destruct Hdoc as (t & <- & Ht).
  exists t. split; [exact Ht|].
  unfold MentorTips.to_hit in Hhit. simpl in Hhit.
  rewrite (find_by_unique_id tips t Hnd Ht) in Hhit.
  injection Hhit as <-. simpl. auto.
Qed.

Lemma retrieve_hits_are_tips_witness :
  exists t,
    In t Sample.tips /\
    tip_text t = "Reach out to dormant mentees with a short note".
Proof.
  destruct (retrieve_hits_are_tips
              Sample.dataset "xyzzy" Sample.tips
              [ {| MentorTips.id := "t1"; MentorTips.score := Num.zero;
                   MentorTips.text :=
                     "Reach out to dormant mentees with a short note";
                   MentorTips.tags := ["dormant"; "mentee"] |};
                {| MentorTips.id := "t4"; MentorTips.score := Num.zero;
                   MentorTips.text :=
                     "Balance one-sided conversations by asking open-ended questions";
                   MentorTips.tags := ["one"; "sided"] |} ]
              eq_refl)
    with (h := {| MentorTips.id := "t1"; MentorTips.score := Num.zero;
                  MentorTips.text :=
                    "Reach out to dormant mentees with a short note";
                  MentorTips.tags := ["dormant"; "mentee"] |})
    as (t & Ht & _ & Htext & _).
  - repeat constructor; simpl; intuition discriminate.
  - vm_compute. reflexivity.
  - now left.
  - exists t. split; [exact Ht | now rewrite <- Htext].
Defined.

(** ** The loaders: reading back a well-formed file *)

Section Files.

Lemma split_char_join :
  forall c x l,
    Forall (fun v => TipsRAG.has_char c v = false) (x :: l) ->
    JS.split_char c (JS.join (String c "") (x :: l)) = x :: l.
Proof.
  intros c x l. revert x. induction l as [|y l IH]; intros x H.
  - inversion H; subst. now apply split_char_none.
  - inversion H as [|? ? Hx Hl]; subst.
    change (JS.join (String c "") (x :: y :: l))
      with (x ++ String c (JS.join (String c "") (y :: l))).
    rewrite split_char_line by assumption. now rewrite IH.
Qed.

Lemma join_cons_char :
  forall sep d w ws,
    JS.join sep (String d w :: ws) = String d (JS.join sep (w :: ws)).
Proof. intros sep d w [|v ws]; reflexivity. Qed.

Lemma join_split_char :
  forall c s, JS.join (String c "") (JS.split_char c s) = s.
Proof.
  intros c. induction s as [|d s IH]; [reflexivity|].
  simpl. destruct (Ascii.eqb_spec d c) as [->|Hd].
  - destruct (split_char_cons c s) as (h & t & E).
    rewrite E in *. change (JS.join (String c "") ("" :: h :: t))
      with (String c (JS.join (String c "") (h :: t))).
    now rewrite IH.
  - destruct (split_char_cons c s) as (h & t & E).
    rewrite E in *. now rewrite join_cons_char, IH.
Qed.

Lemma trimStart_all_space :
  forall w, DeterministicBrain.all_chars JS.is_space w = true ->
            JS.trimStart w = "".
Proof.
  induction w as [|c w IH]; [reflexivity|].
  simpl. intros H. apply andb_true_iff in H. destruct H as [Hc Hw].
  rewrite Hc. now apply IH.
Qed.

Lemma trimEnd_all_space :
  forall w, DeterministicBrain.all_chars JS.is_space w = true ->
            JS.trimEnd w = "".
Proof.
  induction w as [|c w IH]; [reflexivity|].
  simpl. intros H. apply andb_true_iff in H. destruct H as [Hc Hw].
  now rewrite (IH Hw), Hc.
Qed.

Lemma trimEnd_append_space :
  forall w s,
    DeterministicBrain.all_chars JS.is_space w = true ->
    JS.trimEnd (s ++ w) = JS.trimEnd s.
Proof.
  intros w s Hw. induction s as [|c s IH].
  - simpl. now apply trimEnd_all_space.
  - simpl. now rewrite IH.
Qed.

Lemma trim_append_space :
  forall w s,
    DeterministicBrain.all_chars JS.is_space w = true ->
    JS.trim (s ++ w) = JS.trim s.
Proof.
  intros w s Hw. unfold JS.trim. induction s as [|c s IH].
  - simpl. rewrite (trimStart_all_space w Hw). reflexivity.
  - simpl. destruct (JS.is_space c); [exact IH|].
    apply (trimEnd_append_space w (String c s) Hw).
Qed.

Lemma free_of_Forall :
  forall c values,
    EngagementPulse.free_of c values = true ->
    Forall (fun v => TipsRAG.has_char c v = false) values.
Proof.
  intros c values H. unfold EngagementPulse.free_of in H.
  rewrite forallb_forall in H. apply Forall_forall. intros v Hv.
  apply H in Hv. now apply negb_true_iff in Hv.
Qed.

(** The lines after the header of a file whose lines hold no line break,
    with white space after the last line. *)
Lemma data_lines_csv_file :
  forall header lines trailing,
    EngagementPulse.free_of (ascii_of_N 10) (header :: lines) = true ->
    DeterministicBrain.all_chars JS.is_space trailing = true ->
    JS.trim (EngagementPulse.csv_file header lines) =
    EngagementPulse.csv_file header lines ->
    EngagementPulse.data_lines
      (EngagementPulse.csv_file header lines ++ trailing) = lines.
Proof.
  intros header lines trailing Hfree Hw Htrim.
  unfold EngagementPulse.data_lines.
  rewrite trim_append_space, Htrim by assumption.
  unfold EngagementPulse.csv_file.
  rewrite split_char_join by now apply free_of_Forall.
  reflexivity.
Qed.

Lemma map_parse_lines :
  forall {A} (parse : string -> option A) (line : A -> string) records,
    (forall r, In r records -> parse (line r) = Some r) ->
    map parse (map line records) = map Some records.
Proof.
  intros A parse line. induction records as [|r records IH]; intros H.
  - reflexivity.
  - simpl. rewrite (H r) by now left.
    rewrite IH; [reflexivity|]. intros r' Hr'. apply H. now right.
Qed.

Lemma parse_message_line :
  forall m,
    EngagementPulse.free_of ","
      [msg_pair_id m; msg_timestamp m; msg_author_role m; msg_channel m] = true ->
    EngagementPulse.parse_message (EngagementPulse.message_line m) = Some m.
Proof.
  intros [v0 v1 v2 v3 text] H. apply free_of_Forall in H.
  inversion H as [|? ? H0 H']; subst. inversion H' as [|? ? H1 H'']; subst.
  inversion H'' as [|? ? H2 H''']; subst. inversion H''' as [|? ? H3 _]; subst.
  simpl in H0, H1, H2, H3.
  unfold EngagementPulse.parse_message, EngagementPulse.message_line.
  cbn [msg_pair_id msg_timestamp msg_author_role msg_channel msg_text].
  change (JS.join "," [v0; v1; v2; v3; text])
    with (v0 ++ String "," (v1 ++ String "," (v2 ++ String ","
            (v3 ++ String "," text)))).
  rewrite !split_char_line by assumption.
  destruct (split_char_cons "," text) as (h & t & E).
  rewrite <- (join_split_char "," text) at 2. now rewrite E.
Qed.

Lemma parse_user_line :
  forall u,
    EngagementPulse.free_of ","
      [user_id u; role u; email u; timezone u; first_name u; joined_at u]
    = true ->
    EngagementPulse.parse_user (EngagementPulse.user_line u) = Some u.
Proof.
  intros [v0 v1 v2 v3 v4 v5] H. apply free_of_Forall in H.
  unfold EngagementPulse.parse_user, EngagementPulse.user_line.
  cbn [user_id role email timezone first_name joined_at] in *.
  now rewrite split_char_join.
Qed.

Lemma parse_pairing_line :
  forall p,
    EngagementPulse.free_of ","
      [pair_id p; mentor_id p; mentee_id p; programme_id p; started_at p]
    = true ->
    EngagementPulse.parse_pairing (EngagementPulse.pairing_line p) = Some p.
Proof.
  intros [v0 v1 v2 v3 v4] H. apply free_of_Forall in H.
  unfold EngagementPulse.parse_pairing, EngagementPulse.pairing_line.
  cbn [pair_id mentor_id mentee_id programme_id started_at] in *.
  now rewrite split_char_join.
Qed.

Lemma has_char_join :
  forall c sep values,
    TipsRAG.has_char c sep = false ->
    EngagementPulse.free_of c values = true ->
    TipsRAG.has_char c (JS.join sep values) = false.
Proof.
  intros c sep values Hsep. induction values as [|v values IH]; intros H.
  - reflexivity.
  - unfold EngagementPulse.free_of in H. simpl in H.
    apply andb_true_iff in H. destruct H as [Hv Hrest].
    apply negb_true_iff in Hv.
    destruct values as [|w values]; [exact Hv|].
    change (JS.join sep (v :: w :: values))
      with (v ++ sep ++ JS.join sep (w :: values)).
    rewrite !has_char_append, Hv, Hsep. simpl. now apply IH.
Qed.

Lemma free_of_lines :
  forall {A} (line : A -> string) header records,
    TipsRAG.has_char (ascii_of_N 10) header = false ->
    (forall r, In r records ->
               TipsRAG.has_char (ascii_of_N 10) (line r) = false) ->
    EngagementPulse.free_of (ascii_of_N 10) (header :: map line records) = true.
Proof.
  intros A line header records Hh Hr.
  unfold EngagementPulse.free_of. apply forallb_forall.
  intros v [<- | Hv]; [now rewrite Hh|].
  apply in_map_iff in Hv. destruct Hv as (r & <- & Hin).
  now rewrite (Hr r Hin).
Qed.

End Files.

(** [loadMessages] reads back a well-formed file.  Take a header line and
    messages whose values hold no line break and whose first four values
    hold no comma, and let the content be the header and one line per
    message (values joined by commas).  If the content neither starts nor
    ends with white space (trimming leaves it as it is), then the content,
    followed by any white space, is loaded as exactly these messages; the
    text of a message keeps its commas.  The condition is needed: the
    loader trims the file, so that white space at the end of the last text
    is lost. *)
Theorem loadMessages_reads_back :
  forall header messages trailing,
    let content :=
      EngagementPulse.csv_file header
        (map EngagementPulse.message_line messages) in
    TipsRAG.has_char (ascii_of_N 10) header = false ->
    (forall m,
        In m messages ->
        EngagementPulse.free_of ","
          [msg_pair_id m; msg_timestamp m; msg_author_role m; msg_channel m]
        = true /\
        EngagementPulse.free_of (ascii_of_N 10)
          [msg_pair_id m; msg_timestamp m; msg_author_role m; msg_channel m;
           msg_text m] = true) ->
    DeterministicBrain.all_chars JS.is_space trailing = true ->
    JS.trim content = content ->
    EngagementPulse.loadMessages (content ++ trailing) = map Some messages.
Proof.
  intros header messages trailing content Hh Hm Hw Htrim.
  unfold EngagementPulse.loadMessages, content.
  rewrite data_lines_csv_file; [| |assumption|assumption].
  - apply map_parse_lines. intros m Hin. apply parse_message_line.
    now apply Hm.
  - apply free_of_lines; [assumption|]. intros m Hin.
    apply has_char_join; [reflexivity|]. now apply Hm.
Qed.

Lemma loadMessages_reads_back_witness :
  EngagementPulse.loadMessages
    ("pair_id,timestamp,author_role,channel,text" ++ ComposeNudge.newline ++
     "p001,2025-08-01T10:00:00Z,mentor,chat,Hi, how are you?" ++
     ComposeNudge.newline ++
     "p001,2025-08-01T11:00:00Z,mentee,chat," ++ ComposeNudge.newline) =
  [ Some {| msg_pair_id := "p001"; msg_timestamp := "2025-08-01T10:00:00Z";
            msg_author_role := "mentor"; msg_channel := "chat";
            msg_text := "Hi, how are you?" |};
    Some {| msg_pair_id := "p001"; msg_timestamp := "2025-08-01T11:00:00Z";
            msg_author_role := "mentee"; msg_channel := "chat";
            msg_text := "" |} ].
Proof.
  apply (loadMessages_reads_back
           "pair_id,timestamp,author_role,channel,text"
           [ {| msg_pair_id := "p001"; msg_timestamp := "2025-08-01T10:00:00Z";
                msg_author_role := "mentor"; msg_channel := "chat";
                msg_text := "Hi, how are you?" |};
             {| msg_pair_id := "p001"; msg_timestamp := "2025-08-01T11:00:00Z";
                msg_author_role := "mentee"; msg_channel := "chat";
                msg_text := "" |} ]
           ComposeNudge.newline).
  - reflexivity.
  - intros m [<- | [<- | []]]; split; reflexivity.
  - reflexivity.
  - reflexivity.
Defined.

(** [loadUsers] and [loadPairings], of both tools, read back a well-formed
    file.  Take a header line and records whose values hold neither a
    comma nor a line break, and let the content be the header and one line
    per record (values joined by commas).  If the content neither starts
    nor ends with white space (trimming leaves it as it is), then the
    content, followed by any white space, is loaded as exactly these
    records.  The condition is needed: the loaders trim the file, so that
    white space at the end of the last value is lost. *)
Theorem loadUsers_loadPairings_read_back :
  forall header trailing,
    TipsRAG.has_char (ascii_of_N 10) header = false ->
    DeterministicBrain.all_chars JS.is_space trailing = true ->
    (forall users,
        let content :=
          EngagementPulse.csv_file header (map EngagementPulse.user_line users) in
        (forall u,
            In u users ->
            let values :=
              [user_id u; role u; email u; timezone u; first_name u;
               joined_at u] in
            EngagementPulse.free_of "," values = true /\
            EngagementPulse.free_of (ascii_of_N 10) values = true) ->
        JS.trim content = content ->
        EngagementPulse.loadUsers (content ++ trailing) = map Some users) /\
    (forall pairings,
        let content :=
          EngagementPulse.csv_file header
            (map EngagementPulse.pairing_line pairings) in
        (forall p,
            In p pairings ->
            let values :=
              [pair_id p; mentor_id p; mentee_id p; programme_id p;
               started_at p] in
            EngagementPulse.free_of "," values = true /\
            EngagementPulse.free_of (ascii_of_N 10) values = true) ->
        JS.trim content = content ->
        EngagementPulse.loadPairings (content ++ trailing) = map Some pairings).
Proof.
  intros header trailing Hh Hw. split.
  - intros users content Hu Htrim.
    unfold EngagementPulse.loadUsers, content.
    rewrite data_lines_csv_file; [| |assumption|assumption].
    + apply map_parse_lines. intros u Hin. apply parse_user_line.
      now apply Hu.
    + apply free_of_lines; [assumption|]. intros u Hin.
      apply has_char_join; [reflexivity|]. now apply Hu.
  - intros pairings content Hp Htrim.
    unfold EngagementPulse.loadPairings, content.
    rewrite data_lines_csv_file; [| |assumption|assumption].
    + apply map_parse_lines. intros p Hin. apply parse_pairing_line.
      now apply Hp.
    + apply free_of_lines; [assumption|]. intros p Hin.
      apply has_char_join; [reflexivity|]. now apply Hp.
Qed.

Lemma loadUsers_loadPairings_read_back_witness :
  EngagementPulse.loadPairings
    ("pair_id,mentor_id,mentee_id,programme_id,started_at" ++
     ComposeNudge.newline ++
     "p001,m001,u001,prog001,2025-06-01T00:00:00Z" ++ ComposeNudge.newline) =
  [ Some {| pair_id := "p001"; mentor_id := "m001"; mentee_id := "u001";
            programme_id := "prog001";
            started_at := "2025-06-01T00:00:00Z" |} ].
Proof.
  destruct (loadUsers_loadPairings_read_back
              "pair_id,mentor_id,mentee_id,programme_id,started_at"
              ComposeNudge.newline eq_refl eq_refl) as [_ H].
  apply (H [ {| pair_id := "p001"; mentor_id := "m001"; mentee_id := "u001";
                programme_id := "prog001";
                started_at := "2025-06-01T00:00:00Z" |} ]).
  - intros p [<- | []]; split; reflexivity.
  - reflexivity.
Defined.

(** ** Tokens: case and punctuation *)

Section Tokens.
Import TipsRAG.

Lemma lower_char_not_upper : forall c, JS.is_upper (JS.lower_char c) = false.
Proof.
  intros [b0 b1 b2 b3 b4 b5 b6 b7].
  destruct b0, b1, b2, b3, b4, b5, b6, b7; reflexivity.
Qed.

Lemma lower_char_idem :
  forall c, JS.lower_char (JS.lower_char c) = JS.lower_char c.
Proof.
  intros [b0 b1 b2 b3 b4 b5 b6 b7].
  destruct b0, b1, b2, b3, b4, b5, b6, b7; reflexivity.
Qed.

Lemma toLowerCase_idem :
  forall s, JS.toLowerCase (JS.toLowerCase s) = JS.toLowerCase s.
Proof.
  induction s as [|c s IH]; [reflexivity|].
  simpl. now rewrite lower_char_idem, IH.
Qed.

(** Replacing the punctuation before lower-casing changes nothing. *)
Lemma strip_lower_char :
  forall c,
    let strip c := if JS.is_word c || JS.is_space c then c else " "%char in
    strip (JS.lower_char (strip c)) = strip (JS.lower_char c).
Proof.
  intros [b0 b1 b2 b3 b4 b5 b6 b7].
  destruct b0, b1, b2, b3, b4, b5, b6, b7; reflexivity.
Qed.

Lemma strip_lower_strip :
  forall s,
    JS.strip_punctuation (JS.toLowerCase (JS.strip_punctuation s)) =
    JS.strip_punctuation (JS.toLowerCase s).
Proof.
  induction s as [|c s IH]; [reflexivity|].
  simpl. rewrite IH. f_equal. apply strip_lower_char.
Qed.

Lemma clean_chars :
  forall s,
    DeterministicBrain.all_chars
      (fun c => (JS.is_word c || JS.is_space c) && negb (JS.is_upper c))
      (JS.strip_punctuation (JS.toLowerCase s)) = true.
Proof.
  induction s as [|c s IH]; [reflexivity|].
  simpl. rewrite IH, andb_true_r.
  destruct c as [b0 b1 b2 b3 b4 b5 b6 b7].
  destruct b0, b1, b2, b3, b4, b5, b6, b7; reflexivity.
Qed.

Lemma split_runs_chars :
  forall (sep P : ascii -> bool) s in_gap w,
    DeterministicBrain.all_chars P s = true ->
    In w (JS.split_runs_aux sep in_gap s) ->
    DeterministicBrain.all_chars (fun c => P c && negb (sep c)) w = true.
Proof.
  intros sep P. induction s as [|c s IH]; intros in_gap w Hs Hin.
  - destruct Hin as [<- | []]. reflexivity.
  - simpl in Hs. apply andb_true_iff in Hs. destruct Hs as [Hc Hs].
    simpl in Hin. destruct (sep c) eqn:Hsep.
    + destruct in_gap.
      * now apply (IH true).
      * destruct Hin as [<- | Hin]; [reflexivity | now apply (IH true)].
    + pose proof (IH false) as IH'.
      destruct (JS.split_runs_aux sep false s) as [|w0 ws].
      * destruct Hin as [<- | []]. simpl. now rewrite Hc, Hsep.
      * destruct Hin as [<- | Hin].
        -- simpl. rewrite Hc, Hsep. simpl. apply IH'; [assumption | now left].
        -- apply IH'; [assumption | now right].
Qed.

Lemma tokens_chars :
  forall text w,
    In w (tokens text) ->
    DeterministicBrain.all_chars is_token_char w = true.
Proof.
  intros text w H. unfold tokens in H. apply filter_In in H.
  destruct H as [H _]. unfold JS.split_ws, JS.split_runs in H.
  apply (split_runs_chars _ _ _ _ _ (clean_chars text)) in H.
  revert H. apply all_chars_weaken. intros c Hc. unfold is_token_char.
  destruct (JS.is_word c), (JS.is_space c), (JS.is_upper c);
    try discriminate; reflexivity.
Qed.

End Tokens.

(** Every key of a feature vector is made of lower-case letters, digits
    and underscores only.  For ASCII text the features do not depend on
    letter case or punctuation: lower-casing the text, or replacing every
    character that is neither a word character nor white space by a space,
    leaves the vector as it is; so the ranking of the documents, and with
    it the result of [retrieve], is the same for an ASCII query in any case
    and with any punctuation.  (Beyond ASCII this fails: [toLowerCase]
    turns U+212A into the letter k, which the replacement would remove.) *)
Theorem vectorise_normalises :
  forall text,
    (forall k,
        JSMap.has k (TipsRAG.vectorise text) = true ->
        DeterministicBrain.all_chars TipsRAG.is_token_char k = true) /\
    (DeterministicBrain.all_chars JS.is_ascii text = true ->
     TipsRAG.vectorise (JS.toLowerCase text) = TipsRAG.vectorise text /\
     TipsRAG.vectorise (JS.strip_punctuation text) = TipsRAG.vectorise text /\
     (forall documents topK,
         TipsRAG.findSimilar (JS.toLowerCase text) documents topK =
         TipsRAG.findSimilar text documents topK /\
         TipsRAG.findSimilar (JS.strip_punctuation text) documents topK =
         TipsRAG.findSimilar text documents topK) /\
     (forall data,
         MentorTips.retrieve data (JS.toLowerCase text) =
         MentorTips.retrieve data text /\
         MentorTips.retrieve data (JS.strip_punctuation text) =
         MentorTips.retrieve data text)).
Proof.
  intros text. split.
  - intros k Hk. rewrite vectorise_bump_all, has_bump_all, in_app_iff in Hk.
    destruct Hk as [[Hk | Hk] | Hk]; [| |discriminate].
    + unfold TipsRAG.unigram_features in Hk. apply filter_In in Hk.
      now apply (tokens_chars text).
    + apply bigram_features_In in Hk.
      destruct Hk as (before & w1 & w2 & after & E & _ & _ & ->).
      rewrite !all_chars_append.
      rewrite (tokens_chars text w1), (tokens_chars text w2); [reflexivity | |];
        rewrite E; apply in_or_app; right; simpl; auto.
  - intros _.
    assert (Hlow : TipsRAG.vectorise (JS.toLowerCase text) =
                   TipsRAG.vectorise text)
      by (unfold TipsRAG.vectorise, TipsRAG.tokens;
          now rewrite toLowerCase_idem).
    assert (Hstrip : TipsRAG.vectorise (JS.strip_punctuation text) =
                     TipsRAG.vectorise text)
      by (unfold TipsRAG.vectorise, TipsRAG.tokens;
          now rewrite strip_lower_strip).
    assert (Hfind : forall documents topK,
      TipsRAG.findSimilar (JS.toLowerCase text) documents topK =
      TipsRAG.findSimilar text documents topK /\
      TipsRAG.findSimilar (JS.strip_punctuation text) documents topK =
      TipsRAG.findSimilar text documents topK).
    { intros documents topK. unfold TipsRAG.findSimilar, TipsRAG.score_all.
      now rewrite Hlow, Hstrip. }
    split; [exact Hlow | split; [exact Hstrip | split; [exact Hfind|]]].
    intros data. unfold MentorTips.retrieve, MentorTips.retrieve_body.
    destruct (tips_json data) as [m|tips]; [split; reflexivity|].
    simpl.
    destruct (Hfind (map MentorTips.to_document tips) 2%Z) as [-> ->].
    split; reflexivity.
Qed.

Lemma vectorise_normalises_witness :
  TipsRAG.vectorise (JS.strip_punctuation "Go up, the HILL!") =
  TipsRAG.vectorise "Go up, the HILL!" /\
  MentorTips.retrieve Sample.dataset (JS.toLowerCase "Tips for DORMANT mentees!") =
  MentorTips.retrieve Sample.dataset "Tips for DORMANT mentees!".
Proof.
  split.
  - destruct (vectorise_normalises "Go up, the HILL!") as [_ H].
    destruct (H eq_refl) as (_ & Hstrip & _). exact Hstrip.
  - destruct (vectorise_normalises "Tips for DORMANT mentees!") as [_ H].
    destruct (H eq_refl) as (_ & _ & _ & Hret).
    destruct (Hret Sample.dataset) as [Hlow _]. exact Hlow.
Defined.

(** ** The command line *)

Section CommandLine.

Lemma parse_args_without_prompt :
  forall n args provider model pairId menteeId debug limit jsonOnly compose,
    (List.length args <= n)%nat ->
    ~ In "--prompt" args ->
    match Cli.parse_args args "" provider model pairId menteeId debug limit
                         jsonOnly compose with
    | Some s => Cli.s_prompt s = ""
    | None => True
    end.
Proof.
  induction n as [|n IH];
    intros args provider model pairId menteeId debug limit jsonOnly compose
           Hlen Hno.
  - destruct args; [reflexivity | simpl in Hlen; lia].
  - destruct args as [|arg rest]; [reflexivity|].
    assert (Hrest : ~ In "--prompt" rest) by (intros H; apply Hno; now right).
    assert (Hafter : ~ In "--prompt" match rest with [] => rest | _ :: r => r end).
    { destruct rest; [exact Hrest|]. intros H. apply Hrest. now right. }
    assert (Hl1 : (List.length rest <= n)%nat) by (simpl in Hlen; lia).
    assert (Hl2 : (List.length match rest with [] => rest | _ :: r => r end
                   <= n)%nat).
    { destruct rest; simpl in *; lia. }
    cbn [Cli.parse_args].
    destruct (String.eqb_spec arg "--prompt") as [->|_].
    { exfalso. apply Hno. now left. }
    repeat match goal with
           | |- context [if String.eqb arg ?f then _ else _] =>
               destruct (String.eqb arg f); [now apply IH|]
           end.
    destruct (String.eqb arg "--help"); [exact I | now apply IH].
Qed.

End CommandLine.

(** The prompt is required: when no argument is [--prompt], the program
    prints no result; it ends with code 0 if [--help] was reached, with
    code 1 otherwise. *)
Theorem program_needs_prompt :
  forall env args w,
    ~ In "--prompt" args ->
    (Cli.settings env args = None /\ Cli.program env args w = Cli.Exit 0) \/
    (Cli.settings env args <> None /\ Cli.program env args w = Cli.Exit 1).
Proof.
  intros env args w Hno. unfold Cli.program.
  pose proof (parse_args_without_prompt
                (List.length args) args (Cli.PROVIDER env) (Cli.MODEL env)
                None None false (Some 5%Z) false false (le_n _) Hno) as H.
  fold (Cli.settings env args) in H.
  destruct (Cli.settings env args) as [s|].
  - right. split; [discriminate|]. now rewrite H.
  - left. split; reflexivity.
Qed.

Lemma program_needs_prompt_witness :
  Cli.program
    {| Cli.PROVIDER := None; Cli.MODEL := None; Cli.OPENAI_API_KEY := None;
       Cli.OLLAMA_HOST := None |}
    ["--limit"; "--help"; "--compose"]
    {| Cli.w_data := Sample.dataset; Cli.w_now := Sample.now;
       Cli.w_random1 := 0; Cli.w_random2 := 0;
       Cli.w_openai := OpenAIProvider.Rejected "no exchange";
       Cli.w_ollama := OllamaProvider.Rejected "no exchange" |} = Cli.Exit 1.
Proof.
  destruct (program_needs_prompt
              {| Cli.PROVIDER := None; Cli.MODEL := None;
                 Cli.OPENAI_API_KEY := None; Cli.OLLAMA_HOST := None |}
              ["--limit"; "--help"; "--compose"]
              {| Cli.w_data := Sample.dataset; Cli.w_now := Sample.now;
                 Cli.w_random1 := 0; Cli.w_random2 := 0;
                 Cli.w_openai := OpenAIProvider.Rejected "no exchange";
                 Cli.w_ollama := OllamaProvider.Rejected "no exchange" |})
    as [[H _] | [_ H]].
  - simpl. intuition discriminate.
  - discriminate H.
  - exact H.
Defined.

Section Limit.

Lemma prefix_false :
  forall p s, (forall r, s <> p ++ r) -> String.prefix p s = false.
Proof.
  intros p s H. destruct (String.prefix p s) eqn:E; [|reflexivity].
  apply prefix_app in E. destruct E as [r E]. now destruct (H r).
Qed.

Lemma digit_char :
  forall c,
    JS.is_digit c = true ->
    JS.is_space c = false /\ c <> "-"%char /\ c <> "+"%char /\ c <> "x"%char /\
    c <> "X"%char.
Proof.
  intros [b0 b1 b2 b3 b4 b5 b6 b7].
  destruct b0, b1, b2, b3, b4, b5, b6, b7; intros H;
    try discriminate H; repeat split; discriminate.
Qed.

(** [parseInt] of a digit string that is no hexadecimal numeral, after an
    optional minus sign. *)
Lemma parseInt_unsigned :
  forall s,
    DeterministicBrain.all_chars JS.is_digit s = true ->
    JS.nonempty s = true ->
    (if String.prefix "0x" s || String.prefix "0X" s
     then fst (JS.span JS.is_hex (JS.substring_from 2 s))
     else fst (JS.span JS.is_digit s)) = s /\
    String.prefix "0x" s || String.prefix "0X" s = false.
Proof.
  intros s Hd Hn.
  assert (Hx : String.prefix "0x" s || String.prefix "0X" s = false).
  { apply orb_false_iff. split; apply prefix_false; intros r ->;
      simpl in Hd; discriminate. }
  split; [|exact Hx]. rewrite Hx. now rewrite span_all.
Qed.

Lemma parseInt_digits :
  forall s,
    DeterministicBrain.all_chars JS.is_digit s = true ->
    JS.nonempty s = true ->
    JS.parseInt s = Some (Z.of_N (JS.parse_digits 0 s)) /\
    JS.parseInt ("-" ++ s) = Some (- Z.of_N (JS.parse_digits 0 s))%Z.
Proof.
  intros s Hd Hn.
  destruct (parseInt_unsigned s Hd Hn) as [Hdigits Hx].
  destruct s as [|c r]; [discriminate|].
  pose proof Hd as Hc. simpl in Hc. apply andb_true_iff in Hc.
  destruct Hc as [Hc _]. destruct (digit_char c Hc) as (Hsp & Hm & Hp & _).
  split.
  - unfold JS.parseInt.
    assert (Ht : JS.trimStart (String c r) = String c r)
      by (simpl; now rewrite Hsp).
    rewrite Ht.
    assert (H1 : String.prefix "-" (String c r) = false)
      by (apply prefix_false; intros r' [= E _]; congruence).
    assert (H2 : String.prefix "+" (String c r) = false)
      by (apply prefix_false; intros r' [= E _]; congruence).
    rewrite H1, H2. cbn [orb]. cbv zeta.
    rewrite Hdigits, Hx, Hn. reflexivity.
  - unfold JS.parseInt.
    change (JS.trimStart ("-" ++ String c r)) with ("-" ++ String c r).
    assert (H1 : String.prefix "-" ("-" ++ String c r) = true)
      by (apply prefix_app; now exists (String c r)).
    rewrite H1. cbn [orb]. cbv zeta.
    change (JS.substring_from 1 ("-" ++ String c r)) with (String c r).
    rewrite Hdigits, Hx, Hn. reflexivity.
Qed.

Lemma parseInt_no_number :
  forall c rest,
    JS.is_digit c = false -> JS.is_space c = false ->
    c <> "-"%char -> c <> "+"%char ->
    JS.parseInt (String c rest) = None.
Proof.
  intros c rest Hd Hsp Hm Hp. unfold JS.parseInt.
  assert (Ht : JS.trimStart (String c rest) = String c rest)
    by (simpl; now rewrite Hsp).
  rewrite Ht.
  assert (H1 : String.prefix "-" (String c rest) = false)
    by (apply prefix_false; intros r' [= E _]; congruence).
  assert (H2 : String.prefix "+" (String c rest) = false)
    by (apply prefix_false; intros r' [= E _]; congruence).
  assert (H3 : String.prefix "0x" (String c rest) = false)
    by (apply prefix_false; intros r' [= E _]; subst c; discriminate).
  assert (H4 : String.prefix "0X" (String c rest) = false)
    by (apply prefix_false; intros r' [= E _]; subst c; discriminate).
  rewrite H1, H2. cbn [orb]. cbv zeta. rewrite H3, H4. cbn [orb].
  simpl JS.span. rewrite Hd. reflexivity.
Qed.

End Limit.

(** The limit that the engagement tool works with, from the argument after
    [--limit]: a decimal numeral gives its number, also after a minus sign,
    except that zero gives 5; so do a missing or empty argument and one
    that starts with a character that no number starts with.  (Numbers are
    taken below 2^53, where a JavaScript number holds them exactly.) *)
Theorem limit_from_command_line :
  forall value options,
    EngagementPulse.limit options = Cli.limit_argument value ->
    let effective := EngagementPulse.limit_of (Some options) in
    (value = None \/ value = Some "" -> effective = 5%Z) /\
    (forall n,
        (n < 2 ^ 53)%N -> value = Some (JS.show_N n) ->
        effective = if (n =? 0)%N then 5%Z else Z.of_N n) /\
    (forall n,
        (n < 2 ^ 53)%N -> value = Some ("-" ++ JS.show_N n) ->
        effective = if (n =? 0)%N then 5%Z else (- Z.of_N n)%Z) /\
    (forall c rest,
        value = Some (String c rest) ->
        JS.is_digit c = false -> JS.is_space c = false ->
        c <> "-"%char -> c <> "+"%char ->
        effective = 5%Z).
Proof.
  intros value options Hlimit effective. subst effective.
  unfold EngagementPulse.limit_of. rewrite Hlimit. unfold Cli.limit_argument.
  split; [|split; [|split]].
  - intros [-> | ->]; reflexivity.
  - intros n _ ->. destruct (show_N_digits n) as [Hd Hn]. rewrite Hn.
    destruct (parseInt_digits _ Hd Hn) as [-> _].
    rewrite parse_digits_show_N. now destruct n.
  - intros n _ ->. destruct (show_N_digits n) as [Hd Hn].
    change (JS.nonempty ("-" ++ JS.show_N n)) with true. cbv iota.
    destruct (parseInt_digits _ Hd Hn) as [_ ->].
    rewrite parse_digits_show_N. now destruct n.
  - intros c rest -> Hd Hsp Hm Hp. cbn [JS.nonempty].
    now rewrite parseInt_no_number.
Qed.

Lemma limit_from_command_line_witness :
  EngagementPulse.limit_of
    (Some {| EngagementPulse.mode := Some "list";
             EngagementPulse.limit := Some 0%Z;
             EngagementPulse.prompt := None |}) = 5%Z.
Proof.
  destruct (limit_from_command_line
              (Some "0")
              {| EngagementPulse.mode := Some "list";
                 EngagementPulse.limit := Some 0%Z;
                 EngagementPulse.prompt := None |} eq_refl)
    as (_ & H & _).
  apply (H 0%N); reflexivity.
Defined.

(** A negative limit counts from the end: in list mode with the limit -n
    the mentees are the dormant pairs, ordered by days since the last
    check-in with the largest first, without the last n of them, while
    [dormant_count] still counts them all.  So [--limit -1] leaves out the
    dormant pair with the fewest days. *)
Theorem run_list_negative_limit :
  forall data now options checkins messages users pairings,
    checkins_csv data = Loaded checkins ->
    messages_csv data = Loaded messages ->
    users_csv data = Loaded users ->
    pairings_csv data = Loaded pairings ->
    EngagementPulse.mode_of options = "list" ->
    (EngagementPulse.limit_of options < 0)%Z ->
    let ranked := EngagementPulse.ranked_dormant now checkins messages in
    let n := Z.to_nat (- EngagementPulse.limit_of options) in
    exists mentees,
      EngagementPulse.run data now options =
      EngagementPulse.ListResult (List.length ranked) mentees /\
      map EngagementPulse.m_pair_id mentees =
      map EngagementPulse.pairId (firstn (List.length ranked - n) ranked) /\
      map EngagementPulse.m_last_checkin_days mentees =
      map EngagementPulse.dp_daysSince (firstn (List.length ranked - n) ranked) /\
      List.length mentees = (List.length ranked - n)%nat.
Proof.
  intros data now options checkins messages users pairings Hc Hm Hu Hp Hmode
         Hlimit ranked n.
  destruct (ranked_dormant_sorted now checkins messages) as [Hperm _].
  fold ranked in Hperm.
  exists (map (EngagementPulse.to_mentee users pairings)
              (firstn (List.length ranked - n) ranked)).
  split; [|split; [|split]].
  - unfold EngagementPulse.run, EngagementPulse.run_body.
    rewrite Hc, Hm, Hu, Hp. simpl. rewrite Hmode. simpl.
    fold (EngagementPulse.ranked_dormant now checkins messages). fold ranked.
    rewrite <- (Permutation_length Hperm).
    unfold JS.slice0. apply Z.ltb_lt in Hlimit. rewrite Hlimit.
    apply Z.ltb_lt in Hlimit.
    replace (Z.to_nat (Z.of_nat (List.length ranked) +
                       EngagementPulse.limit_of options))
      with (List.length ranked - n)%nat by (unfold n; lia).
    reflexivity.
  - rewrite map_map. apply map_ext. intros d. apply to_mentee_keeps.
  - rewrite map_map. apply map_ext. intros d. apply to_mentee_keeps.
  - rewrite length_map, length_firstn. lia.
Qed.

Lemma run_list_negative_limit_witness :
  exists mentees,
    EngagementPulse.run Sample.dataset Sample.now
      (Some {| EngagementPulse.mode := Some "list";
               EngagementPulse.limit := Some (-1)%Z;
               EngagementPulse.prompt := None |}) =
    EngagementPulse.ListResult 2 mentees /\
    map EngagementPulse.m_pair_id mentees = ["p002"].
Proof.
  destruct (run_list_negative_limit Sample.dataset Sample.now
              (Some {| EngagementPulse.mode := Some "list";
                       EngagementPulse.limit := Some (-1)%Z;
                       EngagementPulse.prompt := None |})
              Sample.checkins Sample.messages Sample.users Sample.pairings
              eq_refl eq_refl eq_refl eq_refl eq_refl eq_refl)
    as (mentees & Hrun & Hids & _).
  exists mentees. split; [exact Hrun | exact Hids].
Defined.

(** ** The router and letter case *)

Section RouterCase.
Import DeterministicBrain.

Lemma is_word_lower_char :
  forall c, JS.is_word (JS.lower_char c) = JS.is_word c.
Proof.
  intros [b0 b1 b2 b3 b4 b5 b6 b7].
  destruct b0, b1, b2, b3, b4, b5, b6, b7; reflexivity.
Qed.

Lemma get_toLowerCase :
  forall s n,
    is_word_at (String.get n (JS.toLowerCase s)) = is_word_at (String.get n s).
Proof.
  induction s as [|c s IH]; intros n; [reflexivity|].
  destruct n as [|n]; simpl; [apply is_word_lower_char | apply IH].
Qed.

Lemma substring_from_toLowerCase :
  forall n s,
    JS.substring_from n (JS.toLowerCase s) =
    JS.toLowerCase (JS.substring_from n s).
Proof.
  induction n as [|n IH]; intros s; [reflexivity|].
  destruct s as [|c s]; [reflexivity | apply IH].
Qed.

Lemma head_toLowerCase :
  forall s, is_word_at (head (JS.toLowerCase s)) = is_word_at (head s).
Proof. intros [|c s]; [reflexivity | apply is_word_lower_char]. Qed.

Lemma existsb_same :
  forall {A} (f g : A -> bool) l,
    (forall a, f a = g a) -> existsb f l = existsb g l.
Proof.
  intros A f g l H. induction l as [|a l IH]; [reflexivity|].
  simpl. now rewrite H, IH.
Qed.

Lemma match_here_toLowerCase :
  forall before before' s,
    is_word_at before' = is_word_at before ->
    match_here before' (JS.toLowerCase s) = match_here before s.
Proof.
  intros before before' s Hb. unfold match_here, word_boundary.
  rewrite Hb, head_toLowerCase. f_equal.
  apply existsb_same. intros w.
  rewrite toLowerCase_idem. unfold char_before.
  now rewrite get_toLowerCase, substring_from_toLowerCase, head_toLowerCase.
Qed.

Lemma test_from_toLowerCase :
  forall s before before',
    is_word_at before' = is_word_at before ->
    test_from before' (JS.toLowerCase s) = test_from before s.
Proof.
  induction s as [|c s IH]; intros before before' Hb.
  - change (test_from before' (JS.toLowerCase ""))
      with (match_here before' (JS.toLowerCase "") || false).
    change (test_from before "") with (match_here before "" || false).
    now rewrite (match_here_toLowerCase before before' "" Hb).
  - change (test_from before' (JS.toLowerCase (String c s)))
      with (match_here before' (JS.toLowerCase (String c s)) ||
            test_from (Some (JS.lower_char c)) (JS.toLowerCase s)).
    change (test_from before (String c s))
      with (match_here before (String c s) || test_from (Some c) s).
    rewrite (match_here_toLowerCase before before' (String c s) Hb).
    f_equal. apply IH. apply is_word_lower_char.
Qed.

Lemma listPattern_test_toLowerCase :
  forall s, listPattern_test (JS.toLowerCase s) = listPattern_test s.
Proof. intros s. now apply test_from_toLowerCase. Qed.

End RouterCase.

(** The router ignores the letter case of an ASCII prompt: the prompt and
    its lower-case form get the same tool and the same mode, or both the
    debug response, or both the default response, which quotes the prompt
    as it was given.  (Beyond ASCII this fails: after "who", U+212A is no
    word character, and the letter k that [toLowerCase] makes of it is.) *)
Theorem decide_ignores_case :
  forall p,
    DeterministicBrain.all_chars JS.is_ascii p = true ->
    let d := DeterministicBrain.decide p in
    let d' := DeterministicBrain.decide (JS.toLowerCase p) in
    DeterministicBrain.mode d' = DeterministicBrain.mode d /\
    (DeterministicBrain.action d =
     "RESPOND:" ++ DeterministicBrain.default_reply p /\
     DeterministicBrain.action d' =
     "RESPOND:" ++ DeterministicBrain.default_reply (JS.toLowerCase p) \/
     DeterministicBrain.action d <>
     "RESPOND:" ++ DeterministicBrain.default_reply p /\
     DeterministicBrain.action d' = DeterministicBrain.action d).
Proof.
  intros p _ d d'. subst d d'. unfold DeterministicBrain.decide.
  rewrite toLowerCase_idem.
  unfold DeterministicBrain.use_engagement_pulse.
  rewrite listPattern_test_toLowerCase.
  repeat match goal with
         | |- context [if ?b then _ else _] =>
             match b with
             | DeterministicBrain.listPattern_test _ => fail 1
             | _ => destruct b
             end
         end;
    (split; [reflexivity|]);
    try (right; split; [|reflexivity];
         destruct (DeterministicBrain.listPattern_test p); discriminate);
    left; split; reflexivity.
Qed.

Lemma decide_ignores_case_witness :
  DeterministicBrain.action
    (DeterministicBrain.decide (JS.toLowerCase "WHICH mentees look Dormant?")) =
  DeterministicBrain.action
    (DeterministicBrain.decide "WHICH mentees look Dormant?").
Proof.
  destruct (decide_ignores_case "WHICH mentees look Dormant?" eq_refl)
    as [_ [[H _] | [_ H]]].
  - vm_compute in H. discriminate H.
  - exact H.
Defined.

(** ** The balance of the messages *)

Section Balance.
Import EngagementPulse.

Lemma slice_last_map :
  forall {A B} (f : A -> B) n l,
    JS.slice_last n (map f l) = map f (JS.slice_last n l).
Proof.
  intros A B f n l. unfold JS.slice_last.
  now rewrite length_map, skipn_map.
Qed.

Lemma slice_last_app :
  forall {A} n (older recent : list A),
    List.length recent = n ->
    JS.slice_last n (older ++ recent)%list = recent.
Proof.
  intros A n older recent H. unfold JS.slice_last.
  rewrite length_app, H.
  replace (List.length older + n - n)%nat with (List.length older + 0)%nat
    by lia.
  rewrite skipn_app, Nat.add_0_r, skipn_all.
  replace (List.length older - List.length older)%nat with 0%nat by lia.
  reflexivity.
Qed.

Lemma swap_role_eqb :
  forall r,
    String.eqb (swap_role r) "mentor" = String.eqb r "mentee" /\
    String.eqb (swap_role r) "mentee" = String.eqb r "mentor".
Proof.
  intros r. unfold swap_role.
  destruct (String.eqb_spec r "mentor") as [->|H1]; [split; reflexivity|].
  destruct (String.eqb_spec r "mentee") as [->|H2]; [split; reflexivity|].
  split; apply String.eqb_neq; assumption.
Qed.

Lemma swap_balance_eqb :
  forall b,
    String.eqb (swap_balance b) "mentor_heavy" = String.eqb b "mentee_heavy" /\
    String.eqb (swap_balance b) "mentee_heavy" = String.eqb b "mentor_heavy".
Proof.
  intros b. unfold swap_balance.
  destruct (String.eqb_spec b "mentor_heavy") as [->|H1]; [split; reflexivity|].
  destruct (String.eqb_spec b "mentee_heavy") as [->|H2]; [split; reflexivity|].
  split; apply String.eqb_neq; assumption.
Qed.

Lemma count_role_swap :
  forall msgs,
    count_role "mentor" (map swap_author msgs) = count_role "mentee" msgs /\
    count_role "mentee" (map swap_author msgs) = count_role "mentor" msgs.
Proof.
  unfold count_role. induction msgs as [|m msgs [IH1 IH2]]; [split; reflexivity|].
  destruct (swap_role_eqb (msg_author_role m)) as [E1 E2].
  cbn [map filter swap_author msg_author_role]. rewrite E1, E2.
  split.
  - destruct (String.eqb (msg_author_role m) "mentee"); simpl; now rewrite IH1.
  - destruct (String.eqb (msg_author_role m) "mentor"); simpl; now rewrite IH2.
Qed.

Lemma count_balance_swap :
  forall balances,
    count_balance "mentor_heavy" (map swap_balance balances) =
    count_balance "mentee_heavy" balances /\
    count_balance "mentee_heavy" (map swap_balance balances) =
    count_balance "mentor_heavy" balances.
Proof.
  unfold count_balance.
  induction balances as [|b balances [IH1 IH2]]; [split; reflexivity|].
  destruct (swap_balance_eqb b) as [E1 E2].
  cbn [map filter]. rewrite E1, E2.
  split.
  - destruct (String.eqb b "mentee_heavy"); simpl; now rewrite IH1.
  - destruct (String.eqb b "mentor_heavy"); simpl; now rewrite IH2.
Qed.

Lemma count_balance_disjoint :
  forall balances,
    (count_balance "mentor_heavy" balances +
     count_balance "mentee_heavy" balances <= List.length balances)%nat.
Proof.
  unfold count_balance. induction balances as [|b balances IH]; [simpl; lia|].
  cbn [filter].
  destruct (String.eqb_spec b "mentor_heavy") as [->|H1].
  - simpl. lia.
  - destruct (String.eqb b "mentee_heavy"); simpl; lia.
Qed.

Lemma count_balance_perm :
  forall b l l', Permutation l l' -> count_balance b l = count_balance b l'.
Proof.
  intros b l l' H. unfold count_balance.
  induction H; simpl.
  - reflexivity.
  - destruct (String.eqb x b); simpl; now rewrite IHPermutation.
  - destruct (String.eqb x b), (String.eqb y b); reflexivity.
  - congruence.
Qed.

End Balance.

(** The balance of a pair looks at its 50 most recent messages only, and
    treats the two roles alike: exchanging mentor and mentee in the
    messages exchanges "mentor_heavy" and "mentee_heavy".  The same holds
    for the overall balance of the summary, which moreover does not depend
    on the order of the pairs. *)
Theorem balance_recent_and_symmetric :
  (forall older recent,
      List.length recent = 50%nat ->
      EngagementPulse.classify (older ++ recent)%list =
      EngagementPulse.classify recent) /\
  (forall msgs,
      EngagementPulse.classify (map EngagementPulse.swap_author msgs) =
      EngagementPulse.swap_balance (EngagementPulse.classify msgs)) /\
  (forall balances,
      EngagementPulse.overall_balance
        (map EngagementPulse.swap_balance balances) =
      EngagementPulse.swap_balance (EngagementPulse.overall_balance balances)) /\
  (forall balances balances',
      Permutation balances balances' ->
      EngagementPulse.overall_balance balances =
      EngagementPulse.overall_balance balances').
Proof.
  split; [|split; [|split]].
  - intros older recent H. unfold EngagementPulse.classify.
    rewrite (slice_last_app 50 older recent H).
    unfold JS.slice_last. rewrite H. reflexivity.
  - intros msgs. unfold EngagementPulse.classify.
    rewrite slice_last_map.
    destruct (count_role_swap (JS.slice_last 50 msgs)) as [-> ->].
    set (m := EngagementPulse.count_role "mentor" _).
    set (e := EngagementPulse.count_role "mentee" _).
    destruct (Nat.ltb_spec (3 * m) (2 * e)), (Nat.ltb_spec (3 * e) (2 * m));
      try reflexivity; lia.
  - intros balances. unfold EngagementPulse.overall_balance.
    rewrite length_map.
    destruct (count_balance_swap balances) as [-> ->].
    pose proof (count_balance_disjoint balances) as Hd.
    set (m := EngagementPulse.count_balance "mentor_heavy" _) in *.
    set (e := EngagementPulse.count_balance "mentee_heavy" _) in *.
    destruct (Nat.ltb_spec (List.length balances) (2 * e)),
             (Nat.ltb_spec (List.length balances) (2 * m));
      try reflexivity; lia.
  - intros balances balances' H. unfold EngagementPulse.overall_balance.
    rewrite (Permutation_length H).
    now rewrite (count_balance_perm "mentor_heavy" _ _ H),
                (count_balance_perm "mentee_heavy" _ _ H).
Qed.
